(** * Zoo Planner: placement engine and state codec

    A shallow embedding of the placement core of [app.js] (the second,
    current version of the script: overlap query, URL codec, palette drop,
    draw / move / resize gestures, deletion) together with the properties
    the specification states about it.

    Conventions of the embedding.
    - JavaScript numbers that reach the store are integers or [NaN]; they are
      modelled by [jsnum] with the comparison and [Math.max]/[Math.min]
      behaviour of JavaScript on [NaN].
    - Strings are [string]s of 8-bit code units.
    - Objects placed on the grid live in a heap of entities, and the three
      collections of [state] hold references into it, so that the object
      a gesture holds ([movingItem.data], [resizingEnclosure.enclosure]) is
      the very object the collections contain.
    - Raw pointer coordinates ([clientX], [clientY]) and the bounding box of
      the grid element are integers (CSS pixels).  The fractional grid
      position that edge detection works with is a binary64 number, as in
      the script, so that its threshold of 0.3 cells is compared exactly as
      the script compares it.
    - Rendering is not modelled, except for the validity class an enclosure
      is drawn with; the [z] parameter written by [updateURL] and the open
      confirmation dialogs are part of the state.  The zoo name and the
      palette item being dragged only feed rendering and are left out. *)

From Stdlib Require Import ZArith String Ascii List Bool Lia Floats.
From stdpp Require Import base option list strings pretty.
Import ListNotations.

Local Open Scope Z_scope.

(* ===================================================================== *)
(** * Part I: definitions                                                 *)
(* ===================================================================== *)

(* --------------------------------------------------------------------- *)
(** ** JavaScript numbers                                                 *)
(* --------------------------------------------------------------------- *)

Inductive jsnum : Type :=
| Num (z : Z)
| NaN.

Definition jadd (a b : jsnum) : jsnum :=
  match a, b with Num x, Num y => Num (x + y) | _, _ => NaN end.

Definition jsub (a b : jsnum) : jsnum :=
  match a, b with Num x, Num y => Num (x - y) | _, _ => NaN end.

Definition jmul (a b : jsnum) : jsnum :=
  match a, b with Num x, Num y => Num (x * y) | _, _ => NaN end.

(** Relational operators: every comparison with [NaN] is false. *)
Definition jle (a b : jsnum) : bool :=
  match a, b with Num x, Num y => x <=? y | _, _ => false end.

Definition jlt (a b : jsnum) : bool :=
  match a, b with Num x, Num y => x <? y | _, _ => false end.

Definition jge (a b : jsnum) : bool := jle b a.

Definition jgt (a b : jsnum) : bool := jlt b a.

(** [Math.max], [Math.min] and [Math.abs] return [NaN] as soon as an argument is. *)
Definition jmax (a b : jsnum) : jsnum :=
  match a, b with Num x, Num y => Num (Z.max x y) | _, _ => NaN end.

Definition jmin (a b : jsnum) : jsnum :=
  match a, b with Num x, Num y => Num (Z.min x y) | _, _ => NaN end.

Definition jabs (a : jsnum) : jsnum :=
  match a with Num x => Num (Z.abs x) | NaN => NaN end.

Definition isInt (a : jsnum) : Prop :=
  match a with Num _ => True | NaN => False end.

(* --------------------------------------------------------------------- *)
(** ** JavaScript strings                                                 *)
(* --------------------------------------------------------------------- *)

(** [s.split(sep)] for a one-character separator. *)
Fixpoint split (sep : ascii) (s : string) : list string :=
  match s with
  | EmptyString => [EmptyString]
  | String c s' =>
      if Ascii.eqb c sep then EmptyString :: split sep s'
      else match split sep s' with
           | p :: ps => String c p :: ps
           | [] => [String c EmptyString]
           end
  end.

(** [s[i]]: a one-character string, or [undefined]. *)
Definition strIndex (s : string) (i : nat) : option string :=
  match String.get i s with
  | Some c => Some (String c EmptyString)
  | None => None
  end.

(** [s.startsWith(p)]. *)
Definition startsWith (s p : string) : bool := String.prefix p s.

(** [s.includes(sub)]. *)
Fixpoint includes (s sub : string) : bool :=
  String.prefix sub s ||
  match s with
  | EmptyString => false
  | String _ s' => includes s' sub
  end.

(** [s.replace(/\.+$/, '')]: drop the dots the string ends with. *)
Fixpoint stripTrailingDots (s : string) : string :=
  match s with
  | EmptyString => EmptyString
  | String c s' =>
      let r := stripTrailingDots s' in
      if Ascii.eqb c "." && String.eqb r EmptyString then EmptyString
      else String c r
  end.

(** [l.join('')]. *)
Definition join (l : list string) : string := String.concat EmptyString l.

(** A string used as a condition: the empty string is falsy. *)
Definition truthy (s : string) : bool := negb (String.eqb s EmptyString).

(** Decimal rendering of a counter inside a template literal. *)
Definition decimal (n : N) : string := pretty n.

(* --------------------------------------------------------------------- *)
(** ** Base 36: [toBase36], [fromBase36]                                  *)
(* --------------------------------------------------------------------- *)

Definition digitChar (d : Z) : ascii :=
  if d <? 10 then ascii_of_N (Z.to_N (48 + d)) else ascii_of_N (Z.to_N (87 + d)).

(** Digits of a non-negative integer, most significant first. *)
Fixpoint digits36 (fuel : nat) (n : Z) (acc : string) : string :=
  match fuel with
  | O => acc
  | S fuel' =>
      let acc' := String (digitChar (n mod 36)) acc in
      if n / 36 =? 0 then acc' else digits36 fuel' (n / 36) acc'
  end.

(** [num.toString(36)]. *)
Definition toString36 (x : jsnum) : string :=
  match x with
  | NaN => "NaN"
  | Num z =>
      if z <? 0 then String "-" (digits36 (S (Z.to_nat (Z.log2 (- z)))) (- z) EmptyString)
      else digits36 (S (Z.to_nat (Z.log2 z))) z EmptyString
  end.

Definition toBase36 (num : jsnum) : string := toString36 num.

(** Value of a character as a digit in radix 36 (either case). *)
Definition digitVal (c : ascii) : option Z :=
  let n := Z.of_N (N_of_ascii c) in
  if (48 <=? n) && (n <=? 57) then Some (n - 48)
  else if (97 <=? n) && (n <=? 122) then Some (n - 87)
  else if (65 <=? n) && (n <=? 90) then Some (n - 55)
  else None.

(** White space skipped by [parseInt] among 8-bit code units. *)
Definition isStrWhiteSpace (c : ascii) : bool :=
  let n := N_of_ascii c in
  ((9 <=? n) && (n <=? 13) || (n =? 32) || (n =? 160))%N.

Fixpoint skipWhiteSpace (s : string) : string :=
  match s with
  | String c s' => if isStrWhiteSpace c then skipWhiteSpace s' else s
  | EmptyString => EmptyString
  end.

(** Longest prefix of radix-36 digits, read as a number; [None] if it is empty. *)
Fixpoint parseDigits (s : string) (acc : option Z) : option Z :=
  match s with
  | EmptyString => acc
  | String c s' =>
      match digitVal c with
      | Some d => parseDigits s' (Some (36 * default 0 acc + d))
      | None => acc
      end
  end.

(** [parseInt(str, 36)] on a string. *)
Definition parseInt36 (str : string) : jsnum :=
  let s := skipWhiteSpace str in
  let '(sign, s) :=
    match s with
    | String "-" s' => (-1, s')
    | String "+" s' => (1, s')
    | _ => (1, s)
    end in
  match parseDigits s None with
  | Some v => Num (sign * v)
  | None => NaN
  end.

(** [fromBase36(str)]; the argument is the result of indexing a string, and
    [parseInt] converts [undefined] to the string ["undefined"] first. *)
Definition fromBase36 (str : option string) : jsnum :=
  parseInt36 (default "undefined" str).

(* --------------------------------------------------------------------- *)
(** ** Data model                                                         *)
(* --------------------------------------------------------------------- *)

Definition GRID_SIZE : Z := 30.
Definition CELL_SIZE : Z := 20.

(** Entries of [BUILDINGS] and [DECORATIONS] (name, emoji and colour are
    cosmetic) and of [ANIMALS]. *)
Record itemDef : Type := {
  def_id : string;
  def_width : jsnum;
  def_height : jsnum
}.

Record animalDef : Type := {
  animal_id : string;
  minPerimeter : jsnum;
  minArea : jsnum
}.

(** The three catalogs, loaded once before any handler runs. *)
Record catalogs : Type := {
  BUILDINGS : list itemDef;
  DECORATIONS : list itemDef;
  ANIMALS : list animalDef
}.

(** An object on the grid.  A placed building or decoration is its catalog
    entry with [id], [gridX], [gridY] added and has no [animal]. *)
Record entity : Type := {
  id : string;
  gridX : jsnum;
  gridY : jsnum;
  width : jsnum;
  height : jsnum;
  animal : option string
}.

(** References to heap objects are positions in the heap. *)
Notation loc := nat (only parsing).

Inductive itemType : Type := TBuilding | TDecoration | TEnclosure.

(** [state.movingItem]. *)
Record movingItemT : Type := {
  m_type : itemType;
  m_id : string;
  m_data : loc;
  originalX : jsnum;
  originalY : jsnum;
  offsetX : jsnum;
  offsetY : jsnum
}.

Record edgeT : Type := {
  edge_left : bool;
  edge_right : bool;
  edge_top : bool;
  edge_bottom : bool
}.

Record geometry : Type := {
  g_gridX : jsnum;
  g_gridY : jsnum;
  g_width : jsnum;
  g_height : jsnum
}.

(** [state.resizingEnclosure]. *)
Record resizingT : Type := {
  r_enclosure : loc;
  r_edge : edgeT;
  originalData : geometry
}.

(** [state.drawing]. *)
Record drawingT : Type := {
  startX : Z;
  startY : Z;
  currentX : Z;
  currentY : Z
}.

(** The callback a confirmation dialog runs when it is accepted. *)
Inductive action : Type :=
| DeleteEnclosure (i : string)
| DeleteDecoration (i : string)
| DeleteBuilding (i : string)
| ClearEverything.

Record state : Type := {
  heap : list entity;
  selectedAnimal : option string;
  placedBuildings : list loc;
  placedDecorations : list loc;
  enclosures : list loc;
  drawing : option drawingT;
  movingItem : option movingItemT;
  moveStartPos : option (Z * Z);
  resizingEnclosure : option resizingT;
  nextEnclosureId : N;
  nextBuildingId : N;
  nextDecorationId : N;
  urlZ : option string;
  dialogs : list action
}.

Definition initialState : state := {|
  heap := [];
  selectedAnimal := None;
  placedBuildings := [];
  placedDecorations := [];
  enclosures := [];
  drawing := None;
  movingItem := None;
  moveStartPos := None;
  resizingEnclosure := None;
  nextEnclosureId := 1;
  nextBuildingId := 1;
  nextDecorationId := 1;
  urlZ := None;
  dialogs := []
|}.

(** Assignment to one field of [state], the others kept. *)
Definition set_heap (v : list entity) (s : state) : state :=
  {| heap := v; selectedAnimal := selectedAnimal s;
     placedBuildings := placedBuildings s;
     placedDecorations := placedDecorations s; enclosures := enclosures s;
     drawing := drawing s; movingItem := movingItem s;
     moveStartPos := moveStartPos s;
     resizingEnclosure := resizingEnclosure s;
     nextEnclosureId := nextEnclosureId s;
     nextBuildingId := nextBuildingId s;
     nextDecorationId := nextDecorationId s; urlZ := urlZ s;
     dialogs := dialogs s |}.

Definition set_selectedAnimal (v : option string) (s : state) : state :=
  {| heap := heap s; selectedAnimal := v;
     placedBuildings := placedBuildings s;
     placedDecorations := placedDecorations s; enclosures := enclosures s;
     drawing := drawing s; movingItem := movingItem s;
     moveStartPos := moveStartPos s;
     resizingEnclosure := resizingEnclosure s;
     nextEnclosureId := nextEnclosureId s;
     nextBuildingId := nextBuildingId s;
     nextDecorationId := nextDecorationId s; urlZ := urlZ s;
     dialogs := dialogs s |}.

Definition set_placedBuildings (v : list loc) (s : state) : state :=
  {| heap := heap s; selectedAnimal := selectedAnimal s;
     placedBuildings := v; placedDecorations := placedDecorations s;
     enclosures := enclosures s; drawing := drawing s;
     movingItem := movingItem s; moveStartPos := moveStartPos s;
     resizingEnclosure := resizingEnclosure s;
     nextEnclosureId := nextEnclosureId s;
     nextBuildingId := nextBuildingId s;
     nextDecorationId := nextDecorationId s; urlZ := urlZ s;
     dialogs := dialogs s |}.

Definition set_placedDecorations (v : list loc) (s : state) : state :=
  {| heap := heap s; selectedAnimal := selectedAnimal s;
     placedBuildings := placedBuildings s; placedDecorations := v;
     enclosures := enclosures s; drawing := drawing s;
     movingItem := movingItem s; moveStartPos := moveStartPos s;
     resizingEnclosure := resizingEnclosure s;
     nextEnclosureId := nextEnclosureId s;
     nextBuildingId := nextBuildingId s;
     nextDecorationId := nextDecorationId s; urlZ := urlZ s;
     dialogs := dialogs s |}.

Definition set_enclosures (v : list loc) (s : state) : state :=
  {| heap := heap s; selectedAnimal := selectedAnimal s;
     placedBuildings := placedBuildings s;
     placedDecorations := placedDecorations s; enclosures := v;
     drawing := drawing s; movingItem := movingItem s;
     moveStartPos := moveStartPos s;
     resizingEnclosure := resizingEnclosure s;
     nextEnclosureId := nextEnclosureId s;
     nextBuildingId := nextBuildingId s;
     nextDecorationId := nextDecorationId s; urlZ := urlZ s;
     dialogs := dialogs s |}.

Definition set_drawing (v : option drawingT) (s : state) : state :=
  {| heap := heap s; selectedAnimal := selectedAnimal s;
     placedBuildings := placedBuildings s;
     placedDecorations := placedDecorations s; enclosures := enclosures s;
     drawing := v; movingItem := movingItem s;
     moveStartPos := moveStartPos s;
     resizingEnclosure := resizingEnclosure s;
     nextEnclosureId := nextEnclosureId s;
     nextBuildingId := nextBuildingId s;
     nextDecorationId := nextDecorationId s; urlZ := urlZ s;
     dialogs := dialogs s |}.

Definition set_movingItem (v : option movingItemT) (s : state) : state :=
  {| heap := heap s; selectedAnimal := selectedAnimal s;
     placedBuildings := placedBuildings s;
     placedDecorations := placedDecorations s; enclosures := enclosures s;
     drawing := drawing s; movingItem := v; moveStartPos := moveStartPos s;
     resizingEnclosure := resizingEnclosure s;
     nextEnclosureId := nextEnclosureId s;
     nextBuildingId := nextBuildingId s;
     nextDecorationId := nextDecorationId s; urlZ := urlZ s;
     dialogs := dialogs s |}.

Definition set_moveStartPos (v : option (Z * Z)) (s : state) : state :=
  {| heap := heap s; selectedAnimal := selectedAnimal s;
     placedBuildings := placedBuildings s;
     placedDecorations := placedDecorations s; enclosures := enclosures s;
     drawing := drawing s; movingItem := movingItem s; moveStartPos := v;
     resizingEnclosure := resizingEnclosure s;
     nextEnclosureId := nextEnclosureId s;
     nextBuildingId := nextBuildingId s;
     nextDecorationId := nextDecorationId s; urlZ := urlZ s;
     dialogs := dialogs s |}.

Definition set_resizingEnclosure (v : option resizingT) (s : state) : state :=
  {| heap := heap s; selectedAnimal := selectedAnimal s;
     placedBuildings := placedBuildings s;
     placedDecorations := placedDecorations s; enclosures := enclosures s;
     drawing := drawing s; movingItem := movingItem s;
     moveStartPos := moveStartPos s; resizingEnclosure := v;
     nextEnclosureId := nextEnclosureId s;
     nextBuildingId := nextBuildingId s;
     nextDecorationId := nextDecorationId s; urlZ := urlZ s;
     dialogs := dialogs s |}.

Definition set_nextEnclosureId (v : N) (s : state) : state :=
  {| heap := heap s; selectedAnimal := selectedAnimal s;
     placedBuildings := placedBuildings s;
     placedDecorations := placedDecorations s; enclosures := enclosures s;
     drawing := drawing s; movingItem := movingItem s;
     moveStartPos := moveStartPos s;
     resizingEnclosure := resizingEnclosure s; nextEnclosureId := v;
     nextBuildingId := nextBuildingId s;
     nextDecorationId := nextDecorationId s; urlZ := urlZ s;
     dialogs := dialogs s |}.

Definition set_nextBuildingId (v : N) (s : state) : state :=
  {| heap := heap s; selectedAnimal := selectedAnimal s;
     placedBuildings := placedBuildings s;
     placedDecorations := placedDecorations s; enclosures := enclosures s;
     drawing := drawing s; movingItem := movingItem s;
     moveStartPos := moveStartPos s;
     resizingEnclosure := resizingEnclosure s;
     nextEnclosureId := nextEnclosureId s; nextBuildingId := v;
     nextDecorationId := nextDecorationId s; urlZ := urlZ s;
     dialogs := dialogs s |}.

Definition set_nextDecorationId (v : N) (s : state) : state :=
  {| heap := heap s; selectedAnimal := selectedAnimal s;
     placedBuildings := placedBuildings s;
     placedDecorations := placedDecorations s; enclosures := enclosures s;
     drawing := drawing s; movingItem := movingItem s;
     moveStartPos := moveStartPos s;
     resizingEnclosure := resizingEnclosure s;
     nextEnclosureId := nextEnclosureId s;
     nextBuildingId := nextBuildingId s; nextDecorationId := v;
     urlZ := urlZ s; dialogs := dialogs s |}.

Definition set_urlZ (v : option string) (s : state) : state :=
  {| heap := heap s; selectedAnimal := selectedAnimal s;
     placedBuildings := placedBuildings s;
     placedDecorations := placedDecorations s; enclosures := enclosures s;
     drawing := drawing s; movingItem := movingItem s;
     moveStartPos := moveStartPos s;
     resizingEnclosure := resizingEnclosure s;
     nextEnclosureId := nextEnclosureId s;
     nextBuildingId := nextBuildingId s;
     nextDecorationId := nextDecorationId s; urlZ := v;
     dialogs := dialogs s |}.

Definition set_dialogs (v : list action) (s : state) : state :=
  {| heap := heap s; selectedAnimal := selectedAnimal s;
     placedBuildings := placedBuildings s;
     placedDecorations := placedDecorations s; enclosures := enclosures s;
     drawing := drawing s; movingItem := movingItem s;
     moveStartPos := moveStartPos s;
     resizingEnclosure := resizingEnclosure s;
     nextEnclosureId := nextEnclosureId s;
     nextBuildingId := nextBuildingId s;
     nextDecorationId := nextDecorationId s; urlZ := urlZ s; dialogs := v |}.

(** Assignment to one property of an object. *)
Definition set_gridX (v : jsnum) (o : entity) : entity :=
  {| id := id o; gridX := v; gridY := gridY o; width := width o; height := height o; animal := animal o |}.

Definition set_gridY (v : jsnum) (o : entity) : entity :=
  {| id := id o; gridX := gridX o; gridY := v; width := width o; height := height o; animal := animal o |}.

Definition set_width (v : jsnum) (o : entity) : entity :=
  {| id := id o; gridX := gridX o; gridY := gridY o; width := v; height := height o; animal := animal o |}.

Definition set_height (v : jsnum) (o : entity) : entity :=
  {| id := id o; gridX := gridX o; gridY := gridY o; width := width o; height := v; animal := animal o |}.

(* --------------------------------------------------------------------- *)
(** ** The store: heap access and the overlap query                       *)
(* --------------------------------------------------------------------- *)

(** Value read through a reference that points to no object (never
    produced by the handlers: objects are only ever added to the heap). *)
Definition noObject : entity :=
  {| id := EmptyString; gridX := NaN; gridY := NaN; width := NaN; height := NaN;
     animal := None |}.

Definition deref (s : state) (l : loc) : entity := default noObject (heap s !! l).

(** [o.f = v] for the object at [l]. *)
Definition assign (l : loc) (f : entity -> entity) (s : state) : state :=
  set_heap (alter f l (heap s)) s.

(** Allocation of a fresh object. *)
Definition alloc (o : entity) (s : state) : loc * state :=
  (length (heap s), set_heap (heap s ++ [o]) s).

Definition buildingsOf (s : state) : list entity := map (deref s) (placedBuildings s).
Definition decorationsOf (s : state) : list entity := map (deref s) (placedDecorations s).
Definition enclosuresOf (s : state) : list entity := map (deref s) (enclosures s).

(** [o.id === excludeId], where [excludeId] is [null] or a string. *)
Definition isExcluded (o : entity) (excludeId : option string) : bool :=
  match excludeId with
  | Some x => String.eqb (id o) x
  | None => false
  end.

(** The test of the three loops of [checkOverlap]. *)
Definition rectHits (gX gY w h : jsnum) (o : entity) : bool :=
  negb (jle (jadd gX w) (gridX o) ||
        jge gX (jadd (gridX o) (width o)) ||
        jle (jadd gY h) (gridY o) ||
        jge gY (jadd (gridY o) (height o))).

(** One [for ... of] loop of [checkOverlap]; [true] is its [return true]. *)
Fixpoint overlapLoop (l : list entity) (gX gY w h : jsnum)
    (excludeId : option string) : bool :=
  match l with
  | [] => false
  | o :: rest =>
      if isExcluded o excludeId then overlapLoop rest gX gY w h excludeId
      else if rectHits gX gY w h o then true
      else overlapLoop rest gX gY w h excludeId
  end.

Definition checkOverlap (s : state) (gX gY w h : jsnum)
    (excludeId : option string) : bool :=
  if overlapLoop (buildingsOf s) gX gY w h excludeId then true
  else if overlapLoop (decorationsOf s) gX gY w h excludeId then true
  else overlapLoop (enclosuresOf s) gX gY w h excludeId.

(* --------------------------------------------------------------------- *)
(** ** State codec                                                        *)
(* --------------------------------------------------------------------- *)

(** [arr.findIndex(p)]. *)
Fixpoint findIndexFrom {A : Type} (p : A -> bool) (l : list A) (i : Z) : jsnum :=
  match l with
  | [] => Num (-1)
  | a :: rest => if p a then Num i else findIndexFrom p rest (i + 1)
  end.

Definition findIndex {A : Type} (p : A -> bool) (l : list A) : jsnum :=
  findIndexFrom p l 0.

(** [instanceId.split('-')[0]]. *)
Definition typeIdOf (instanceId : string) : string :=
  default EmptyString (split "-" instanceId !! 0%nat).

(** The [typeIndex] the encoder writes for a placed building or decoration. *)
Definition typeIndexOf (catalog : list itemDef) (b : entity) : jsnum :=
  let typeId := typeIdOf (id b) in
  findIndex (fun d => String.eqb (def_id d) typeId) catalog.

(** The [animalIndex] the encoder writes for an enclosure.  Comparing a
    catalog id with the [animal] of an object that has none is false. *)
Definition animalIndexOf (animals : list animalDef) (e : entity) : jsnum :=
  findIndex (fun a => match animal e with
                      | Some x => String.eqb (animal_id a) x
                      | None => false
                      end) animals.

Definition encodeItem (catalog : list itemDef) (b : entity) : string :=
  toBase36 (typeIndexOf catalog b) +:+ toBase36 (gridX b) +:+ toBase36 (gridY b).

Definition encodeEnclosure (animals : list animalDef) (e : entity) : string :=
  toBase36 (animalIndexOf animals e) +:+ toBase36 (gridX e) +:+ toBase36 (gridY e) +:+
  toBase36 (width e) +:+ toBase36 (height e).

Definition buildingStr (C : catalogs) (s : state) : string :=
  join (map (encodeItem (BUILDINGS C)) (buildingsOf s)).

Definition decorationStr (C : catalogs) (s : state) : string :=
  join (map (encodeItem (DECORATIONS C)) (decorationsOf s)).

Definition enclosureStr (C : catalogs) (s : state) : string :=
  join (map (encodeEnclosure (ANIMALS C)) (enclosuresOf s)).

Definition encodeZooState (C : catalogs) (s : state) : string :=
  stripTrailingDots
    (buildingStr C s +:+ "." +:+ decorationStr C s +:+ "." +:+ enclosureStr C s).

(** Records produced by the decoder. *)
Record itemData : Type := {
  typeIndex : jsnum;
  i_x : jsnum;
  i_y : jsnum
}.

Record enclosureData : Type := {
  animalIndex : jsnum;
  e_x : jsnum;
  e_y : jsnum;
  e_w : jsnum;
  e_h : jsnum
}.

Record decoded : Type := {
  d_buildings : list itemData;
  d_decorations : list itemData;
  d_enclosures : list enclosureData
}.

(** The loop [for (let i = 0; i < str.length; i += 3)] with its guard
    [i + 3 <= str.length]; [fuel] bounds the number of iterations. *)
Fixpoint itemLoop (fuel : nat) (str : string) (i : nat) (acc : list itemData)
    : list itemData :=
  match fuel with
  | O => acc
  | S fuel' =>
      if (i <? String.length str)%nat then
        let acc' :=
          if (i + 3 <=? String.length str)%nat then
            acc ++ [ {| typeIndex := fromBase36 (strIndex str i);
                        i_x := fromBase36 (strIndex str (i + 1));
                        i_y := fromBase36 (strIndex str (i + 2)) |} ]
          else acc in
        itemLoop fuel' str (i + 3) acc'
      else acc
  end.

(** The loop [for (let i = 0; i < str.length; i += 5)] of the enclosures. *)
Fixpoint enclosureLoop (fuel : nat) (str : string) (i : nat)
    (acc : list enclosureData) : list enclosureData :=
  match fuel with
  | O => acc
  | S fuel' =>
      if (i <? String.length str)%nat then
        let acc' :=
          if (i + 5 <=? String.length str)%nat then
            acc ++ [ {| animalIndex := fromBase36 (strIndex str i);
                        e_x := fromBase36 (strIndex str (i + 1));
                        e_y := fromBase36 (strIndex str (i + 2));
                        e_w := fromBase36 (strIndex str (i + 3));
                        e_h := fromBase36 (strIndex str (i + 4)) |} ]
          else acc in
        enclosureLoop fuel' str (i + 5) acc'
      else acc
  end.

(** [parts[k] || '']. *)
Definition part (parts : list string) (k : nat) : string :=
  default EmptyString (parts !! k).

(** Outcome of a block of statements: a value, or an exception. *)
Inductive completion (A : Type) : Type :=
| Normal (a : A)
| Thrown.
Arguments Normal {A} a.
Arguments Thrown {A}.

Definition andThen {A B : Type} (c : completion A) (k : A -> completion B)
    : completion B :=
  match c with
  | Normal a => k a
  | Thrown => Thrown
  end.

(** [compact.split('.')]: a [TypeError] when [compact] is [null] ([None]). *)
Definition splitDots (compact : option string) : completion (list string) :=
  match compact with
  | Some str => Normal (split "." str)
  | None => Thrown
  end.

(** The body of the [try] block of [decodeZooState].  Each loop runs on a
    string of known length, which bounds its number of iterations. *)
Definition decodeBody (compact : option string) : completion decoded :=
  andThen (splitDots compact) (fun parts =>
    let buildingStr := part parts 0 in
    let decorationStr := part parts 1 in
    let enclosureStr := part parts 2 in
    let buildings :=
      if truthy buildingStr && (0 <? String.length buildingStr)%nat
      then itemLoop (String.length buildingStr) buildingStr 0 [] else [] in
    let decorations :=
      if truthy decorationStr && (0 <? String.length decorationStr)%nat
      then itemLoop (String.length decorationStr) decorationStr 0 [] else [] in
    let enclosures :=
      if truthy enclosureStr && (0 <? String.length enclosureStr)%nat
      then enclosureLoop (String.length enclosureStr) enclosureStr 0 [] else [] in
    Normal {| d_buildings := buildings; d_decorations := decorations;
              d_enclosures := enclosures |}).

(** [decodeZooState]: the [catch] branch returns [null] ([None]). *)
Definition decodeZooState (compact : option string) : option decoded :=
  match decodeBody compact with
  | Normal data => Some data
  | Thrown => None
  end.

(* --------------------------------------------------------------------- *)
(** ** URL, animal list, insertion and deletion                           *)
(* --------------------------------------------------------------------- *)

(** [updateURL]: the [z] parameter is set only when there is data. *)
Definition updateURL (C : catalogs) (s : state) : state :=
  let encoded := encodeZooState C s in
  if truthy encoded && negb (String.eqb encoded ".") && negb (String.eqb encoded "..")
  then set_urlZ (Some encoded) s
  else set_urlZ None s.

(** [new Set(state.enclosures.map(e => e.animal))]. *)
Definition usedAnimals (s : state) : list (option string) :=
  map animal (enclosuresOf s).

(** [usedAnimals.has(v)] for [v] a string or [null]. *)
Definition setHas (used : list (option string)) (v : option string) : bool :=
  match v with
  | Some a => existsb (fun u => match u with
                                | Some b => String.eqb b a
                                | None => false
                                end) used
  | None => false
  end.

(** A value of [state.selectedAnimal] used as a condition. *)
Definition isSelected (v : option string) : bool :=
  match v with
  | Some a => truthy a
  | None => false
  end.

Definition selectAnimal (animalId : string) (s : state) : state :=
  if setHas (usedAnimals s) (Some animalId) then s
  else set_selectedAnimal (Some animalId) s.

(** What [renderAnimalList] does to the state: the first animal is
    selected when none is, and a selected animal that now has an enclosure
    is replaced by the first free one. *)
Definition renderAnimalList (C : catalogs) (s : state) : state :=
  let used := usedAnimals s in
  let s1 :=
    match ANIMALS C with
    | a :: _ => if negb (isSelected (selectedAnimal s)) then selectAnimal (animal_id a) s else s
    | [] => s
    end in
  if setHas used (selectedAnimal s1) then
    match find (fun a => negb (setHas used (Some (animal_id a)))) (ANIMALS C) with
    | Some firstAvailable => selectAnimal (animal_id firstAvailable) s1
    | None => set_selectedAnimal None s1
    end
  else s1.

Definition addBuilding (C : catalogs) (buildingDef : itemDef) (gX gY : jsnum)
    (skipURLUpdate : bool) (s : state) : state :=
  let newId := def_id buildingDef +:+ "-" +:+ decimal (nextBuildingId s) in
  let s := set_nextBuildingId (nextBuildingId s + 1)%N s in
  let building :=
    {| id := newId; gridX := gX; gridY := gY;
       width := def_width buildingDef; height := def_height buildingDef;
       animal := None |} in
  let '(l, s) := alloc building s in
  let s := set_placedBuildings (placedBuildings s ++ [l]) s in
  if skipURLUpdate then s else updateURL C s.

Definition addDecoration (C : catalogs) (decorationDef : itemDef) (gX gY : jsnum)
    (skipURLUpdate : bool) (s : state) : state :=
  let newId := def_id decorationDef +:+ "-" +:+ decimal (nextDecorationId s) in
  let s := set_nextDecorationId (nextDecorationId s + 1)%N s in
  let decoration :=
    {| id := newId; gridX := gX; gridY := gY;
       width := def_width decorationDef; height := def_height decorationDef;
       animal := None |} in
  let '(l, s) := alloc decoration s in
  let s := set_placedDecorations (placedDecorations s ++ [l]) s in
  if skipURLUpdate then s else updateURL C s.

Definition addEnclosure (C : catalogs) (gX gY w h : jsnum) (s : state) : state :=
  if negb (isSelected (selectedAnimal s)) then s
  else if setHas (usedAnimals s) (selectedAnimal s) then s
  else
    let newId := "enclosure-" +:+ decimal (nextEnclosureId s) in
    let s := set_nextEnclosureId (nextEnclosureId s + 1)%N s in
    let enclosure :=
      {| id := newId; gridX := gX; gridY := gY; width := w; height := h;
         animal := selectedAnimal s |} in
    let '(l, s) := alloc enclosure s in
    let s := set_enclosures (enclosures s ++ [l]) s in
    updateURL C (renderAnimalList C s).

(** [arr[i]] for a number [i]. *)
Definition atIndex {A : Type} (l : list A) (i : jsnum) : option A :=
  match i with
  | Num z => if z <? 0 then None else l !! Z.to_nat z
  | NaN => None
  end.

(** The three [forEach] loops of [loadFromURL]. *)
Definition loadBuilding (C : catalogs) (s : state) (bData : itemData) : state :=
  match atIndex (BUILDINGS C) (typeIndex bData) with
  | Some buildingDef => addBuilding C buildingDef (i_x bData) (i_y bData) true s
  | None => s
  end.

Definition loadDecoration (C : catalogs) (s : state) (dData : itemData) : state :=
  match atIndex (DECORATIONS C) (typeIndex dData) with
  | Some decorationDef => addDecoration C decorationDef (i_x dData) (i_y dData) true s
  | None => s
  end.

Definition loadEnclosure (C : catalogs) (s : state) (eData : enclosureData) : state :=
  let newId := "enclosure-" +:+ decimal (nextEnclosureId s) in
  let s := set_nextEnclosureId (nextEnclosureId s + 1)%N s in
  match atIndex (ANIMALS C) (animalIndex eData) with
  | None => s
  | Some a =>
      let enclosure :=
        {| id := newId; gridX := e_x eData; gridY := e_y eData;
           width := e_w eData; height := e_h eData;
           animal := Some (animal_id a) |} in
      let '(l, s) := alloc enclosure s in
      set_enclosures (enclosures s ++ [l]) s
  end.

(** [loadFromURL]; [encoded] is the [z] search parameter ([None] when the
    URL has none).  Returns the value of the function and the new state. *)
Definition loadFromURL (C : catalogs) (encoded : option string) (s : state)
    : bool * state :=
  match encoded with
  | None => (false, s)
  | Some encoded =>
      if negb (truthy encoded) then (false, s)
      else
        match decodeZooState (Some encoded) with
        | None => (false, s)
        | Some data =>
            let s := fold_left (loadBuilding C) (d_buildings data) s in
            let s := fold_left (loadDecoration C) (d_decorations data) s in
            let s :=
              match d_enclosures data with
              | [] => s
              | _ :: _ =>
                  renderAnimalList C (fold_left (loadEnclosure C) (d_enclosures data) s)
              end in
            (true, updateURL C s)
        end
  end.

(** The part of [init] that follows the loading of the catalogs. *)
Definition init (C : catalogs) (encoded : option string) : state :=
  snd (loadFromURL C encoded (renderAnimalList C initialState)).

(** [arr.filter(o => keep(o))] on a collection of references. *)
Definition filterRefs (s : state) (keep : entity -> bool) (l : list loc) : list loc :=
  List.filter (fun r => keep (deref s r)) l.

Definition deleteBuilding (C : catalogs) (i : string) (s : state) : state :=
  let s := set_placedBuildings
             (filterRefs s (fun b => negb (String.eqb (id b) i)) (placedBuildings s)) s in
  updateURL C s.

Definition deleteDecoration (C : catalogs) (i : string) (s : state) : state :=
  let s := set_placedDecorations
             (filterRefs s (fun d => negb (String.eqb (id d) i)) (placedDecorations s)) s in
  updateURL C s.

Definition deleteEnclosure (C : catalogs) (i : string) (s : state) : state :=
  let s := set_enclosures
             (filterRefs s (fun e => negb (String.eqb (id e) i)) (enclosures s)) s in
  updateURL C (renderAnimalList C s).

Definition deleteBuildingByType (C : catalogs) (buildingType : string) (s : state) : state :=
  match find (fun b => includes (id b) buildingType) (buildingsOf s) with
  | Some building => deleteBuilding C (id building) s
  | None => s
  end.

Definition deleteAllRestrooms (C : catalogs) (s : state) : state :=
  let s := set_placedBuildings
             (filterRefs s (fun b => negb (startsWith (id b) "restroom-")) (placedBuildings s)) s in
  updateURL C s.

Definition deleteAllDecorationType (C : catalogs) (decorationType : string) (s : state)
    : state :=
  let s := set_placedDecorations
             (filterRefs s (fun d => negb (startsWith (id d) (decorationType +:+ "-")))
                (placedDecorations s)) s in
  updateURL C s.

Definition deleteEnclosureByAnimal (C : catalogs) (animalId : string) (s : state) : state :=
  match find (fun e => match animal e with
                       | Some a => String.eqb a animalId
                       | None => false
                       end) (enclosuresOf s) with
  | Some enclosure => deleteEnclosure C (id enclosure) s
  | None => s
  end.

(** [showConfirmDialog(message, onConfirm)]: a dialog is opened. *)
Definition showConfirmDialog (onConfirm : action) (s : state) : state :=
  set_dialogs (dialogs s ++ [onConfirm]) s.

(** The callbacks passed to [showConfirmDialog]. *)
Definition runAction (C : catalogs) (a : action) (s : state) : state :=
  match a with
  | DeleteEnclosure i => deleteEnclosure C i s
  | DeleteDecoration i => deleteDecoration C i s
  | DeleteBuilding i => deleteBuilding C i s
  | ClearEverything =>
      let s := set_placedBuildings [] s in
      let s := set_placedDecorations [] s in
      let s := set_enclosures [] s in
      let s := set_nextEnclosureId 1%N s in
      let s := set_selectedAnimal None s in
      set_urlZ None (renderAnimalList C s)
  end.

(** Click on the Yes button of the [k]-th open dialog: the dialog is
    removed, then the callback runs. *)
Definition confirmYes (C : catalogs) (k : nat) (s : state) : state :=
  match dialogs s !! k with
  | Some a => runAction C a (set_dialogs (delete k (dialogs s)) s)
  | None => s
  end.

(** Click on No, or outside the dialog: the dialog is removed. *)
Definition confirmNo (k : nat) (s : state) : state :=
  set_dialogs (delete k (dialogs s)) s.

Definition startOver (s : state) : state := showConfirmDialog ClearEverything s.

(* --------------------------------------------------------------------- *)
(** ** Pointer events on the grid                                         *)
(* --------------------------------------------------------------------- *)

Record domRect : Type := {
  rect_left : Z;
  rect_top : Z;
  rect_right : Z;
  rect_bottom : Z
}.

(** What the handlers read from a mouse event: the raw pointer position,
    the bounding box of the grid element at that time, and the result of
    the two [closest] look-ups made from [e.target] (the [enclosureId] or
    [buildingId] of the group the pointer is over, if any). *)
Record mouseEvent : Type := {
  clientX : Z;
  clientY : Z;
  svgRect : domRect;
  overEnclosure : option string;
  overBuilding : option string
}.

Definition clampZ (lo hi v : Z) : Z := Z.max lo (Z.min hi v).

(** [getGridPoint(e)]: the grid cell under the pointer. *)
Definition getGridPoint (e : mouseEvent) : Z * Z :=
  let x := clientX e - rect_left (svgRect e) in
  let y := clientY e - rect_top (svgRect e) in
  (clampZ 0 (GRID_SIZE - 1) (x / CELL_SIZE), clampZ 0 (GRID_SIZE - 1) (y / CELL_SIZE)).

(** The binary64 number nearest to an integer, and a JavaScript number as
    a binary64 number. *)
Definition floatOfZ (z : Z) : float := SF2Prim (binary_normalize prec emax z 0 false).

Definition floatOf (v : jsnum) : float :=
  match v with
  | Num z => floatOfZ z
  | NaN => PrimFloat.nan
  end.

(** [Math.max] and [Math.min] on binary64 numbers. *)
Definition fmax (a b : float) : float :=
  if PrimFloat.is_nan a || PrimFloat.is_nan b then PrimFloat.nan
  else if PrimFloat.ltb a b then b else a.

Definition fmin (a b : float) : float :=
  if PrimFloat.is_nan a || PrimFloat.is_nan b then PrimFloat.nan
  else if PrimFloat.ltb b a then b else a.

(** [getGridPoint(e, true)]: the position in cells, not rounded. *)
Definition getPrecisePoint (e : mouseEvent) : float * float :=
  let x := floatOfZ (clientX e - rect_left (svgRect e)) in
  let y := floatOfZ (clientY e - rect_top (svgRect e)) in
  (fmax (floatOfZ 0)
     (fmin (floatOfZ GRID_SIZE) (PrimFloat.div x (floatOfZ CELL_SIZE))),
   fmax (floatOfZ 0)
     (fmin (floatOfZ GRID_SIZE) (PrimFloat.div y (floatOfZ CELL_SIZE)))).

(** [EDGE_THRESHOLD = 0.3], that is, the binary64 number nearest to 0.3. *)
Definition EDGE_THRESHOLD : float := 0x1.3333333333333p-2%float.

(** The body of the loop of [detectEnclosureEdge] for one enclosure, in
    binary64 arithmetic as in the source. *)
Definition edgeOf (enclosure : entity) (mouseGridX mouseGridY : float) : option edgeT :=
  let left := floatOf (gridX enclosure) in
  let right := floatOf (jadd (gridX enclosure) (width enclosure)) in
  let top := floatOf (gridY enclosure) in
  let bottom := floatOf (jadd (gridY enclosure) (height enclosure)) in
  if PrimFloat.leb (PrimFloat.sub left EDGE_THRESHOLD) mouseGridX &&
     PrimFloat.leb mouseGridX (PrimFloat.add right EDGE_THRESHOLD) &&
     PrimFloat.leb (PrimFloat.sub top EDGE_THRESHOLD) mouseGridY &&
     PrimFloat.leb mouseGridY (PrimFloat.add bottom EDGE_THRESHOLD)
  then
    let nearLeft :=
      PrimFloat.leb (PrimFloat.abs (PrimFloat.sub mouseGridX left)) EDGE_THRESHOLD in
    let nearRight :=
      PrimFloat.leb (PrimFloat.abs (PrimFloat.sub mouseGridX right)) EDGE_THRESHOLD in
    let nearTop :=
      PrimFloat.leb (PrimFloat.abs (PrimFloat.sub mouseGridY top)) EDGE_THRESHOLD in
    let nearBottom :=
      PrimFloat.leb (PrimFloat.abs (PrimFloat.sub mouseGridY bottom)) EDGE_THRESHOLD in
    let isLeft := nearLeft && negb nearRight in
    let isRight := nearRight && negb nearLeft in
    let isTop := nearTop && negb nearBottom in
    let isBottom := nearBottom && negb nearTop in
    if isLeft || isRight || isTop || isBottom
    then Some {| edge_left := isLeft; edge_right := isRight;
                 edge_top := isTop; edge_bottom := isBottom |}
    else None
  else None.

Fixpoint detectLoop (s : state) (l : list loc) (mouseGridX mouseGridY : float)
    : option (loc * edgeT) :=
  match l with
  | [] => None
  | r :: rest =>
      match edgeOf (deref s r) mouseGridX mouseGridY with
      | Some edge => Some (r, edge)
      | None => detectLoop s rest mouseGridX mouseGridY
      end
  end.

Definition detectEnclosureEdge (s : state) (mouseGridX mouseGridY : float)
    : option (loc * edgeT) :=
  detectLoop s (enclosures s) mouseGridX mouseGridY.

(** [arr.find(o => o.id === i)] on a collection of references. *)
Definition findById (s : state) (l : list loc) (i : string) : option loc :=
  find (fun r => String.eqb (id (deref s r)) i) l.

(** The record [handleGridMouseDown] stores in [state.movingItem]. *)
Definition startMove (t : itemType) (i : string) (r : loc) (point : Z * Z)
    (e : mouseEvent) (s : state) : state :=
  let item := deref s r in
  let s := set_movingItem
             (Some {| m_type := t; m_id := i; m_data := r;
                      originalX := gridX item; originalY := gridY item;
                      offsetX := jsub (Num (fst point)) (gridX item);
                      offsetY := jsub (Num (snd point)) (gridY item) |}) s in
  set_moveStartPos (Some (clientX e, clientY e)) s.

Definition handleGridMouseDown (e : mouseEvent) (s : state) : state :=
  let point := getGridPoint e in
  let precisePoint := getPrecisePoint e in
  match detectEnclosureEdge s (fst precisePoint) (snd precisePoint) with
  | Some (enc, edge) =>
      let s := set_resizingEnclosure
                 (Some {| r_enclosure := enc; r_edge := edge;
                          originalData :=
                            {| g_gridX := gridX (deref s enc);
                               g_gridY := gridY (deref s enc);
                               g_width := width (deref s enc);
                               g_height := height (deref s enc) |} |}) s in
      set_moveStartPos (Some (clientX e, clientY e)) s
  | None =>
      match overEnclosure e with
      | Some i =>
          match findById s (enclosures s) i with
          | Some enclosure => startMove TEnclosure i enclosure point e s
          | None => s
          end
      | None =>
          match overBuilding e with
          | Some i =>
              match findById s (placedBuildings s) i with
              | Some item => startMove TBuilding i item point e s
              | None =>
                  match findById s (placedDecorations s) i with
                  | Some item => startMove TDecoration i item point e s
                  | None => s
                  end
              end
          | None =>
              if negb (isSelected (selectedAnimal s)) then s
              else set_drawing
                     (Some {| startX := fst point; startY := snd point;
                              currentX := fst point; currentY := snd point |}) s
          end
      end
  end.

(** The candidate geometry of a resize step, after the constraint to the
    grid. *)
Definition resizeCandidate (edge : edgeT) (enc : entity) (point : Z * Z) : geometry :=
  let newX := gridX enc in
  let newY := gridY enc in
  let newWidth := width enc in
  let newHeight := height enc in
  let newWidth :=
    if edge_right edge
    then jmax (Num 1) (jadd (jsub (Num (fst point)) (gridX enc)) (Num 1))
    else newWidth in
  let oldRight := jadd (gridX enc) (width enc) in
  let newX := if edge_left edge then jmin (Num (fst point)) (jsub oldRight (Num 1)) else newX in
  let newWidth := if edge_left edge then jsub oldRight newX else newWidth in
  let newHeight :=
    if edge_bottom edge
    then jmax (Num 1) (jadd (jsub (Num (snd point)) (gridY enc)) (Num 1))
    else newHeight in
  let oldBottom := jadd (gridY enc) (height enc) in
  let newY := if edge_top edge then jmin (Num (snd point)) (jsub oldBottom (Num 1)) else newY in
  let newHeight := if edge_top edge then jsub oldBottom newY else newHeight in
  let newX := jmax (Num 0) (jmin newX (Num (GRID_SIZE - 1))) in
  let newY := jmax (Num 0) (jmin newY (Num (GRID_SIZE - 1))) in
  let newWidth := jmax (Num 1) (jmin newWidth (jsub (Num GRID_SIZE) newX)) in
  let newHeight := jmax (Num 1) (jmin newHeight (jsub (Num GRID_SIZE) newY)) in
  {| g_gridX := newX; g_gridY := newY; g_width := newWidth; g_height := newHeight |}.

(** [enc.gridX = ...; enc.gridY = ...; enc.width = ...; enc.height = ...]. *)
Definition setGeometry (g : geometry) (o : entity) : entity :=
  set_height (g_height g) (set_width (g_width g) (set_gridY (g_gridY g) (set_gridX (g_gridX g) o))).

Definition isNearSVG (e : mouseEvent) : bool :=
  (rect_left (svgRect e) - 50 <=? clientX e) && (clientX e <=? rect_right (svgRect e) + 50) &&
  (rect_top (svgRect e) - 50 <=? clientY e) && (clientY e <=? rect_bottom (svgRect e) + 50).

Definition handleGridMouseMove (C : catalogs) (e : mouseEvent) (s : state) : state :=
  match resizingEnclosure s with
  | Some resize =>
      let point := getGridPoint e in
      let enc := r_enclosure resize in
      let c := resizeCandidate (r_edge resize) (deref s enc) point in
      let hasOverlap :=
        checkOverlap s (g_gridX c) (g_gridY c) (g_width c) (g_height c)
          (Some (id (deref s enc))) in
      if negb hasOverlap then updateURL C (assign enc (setGeometry c) s)
      else s
  | None =>
      match movingItem s with
      | Some m =>
          if negb (isNearSVG e) then s
          else
            let point := getGridPoint e in
            let newX := jsub (Num (fst point)) (offsetX m) in
            let newY := jsub (Num (snd point)) (offsetY m) in
            let w := width (deref s (m_data m)) in
            let h := height (deref s (m_data m)) in
            let newX := jmax (Num 0) (jmin newX (jsub (Num GRID_SIZE) w)) in
            let newY := jmax (Num 0) (jmin newY (jsub (Num GRID_SIZE) h)) in
            assign (m_data m) (fun o => set_gridY newY (set_gridX newX o)) s
      | None =>
          match drawing s with
          | Some d =>
              let point := getGridPoint e in
              set_drawing
                (Some {| startX := startX d; startY := startY d;
                         currentX := fst point; currentY := snd point |}) s
          | None => s
          end
      end
  end.

(** [distanceMoved < 5], where [distanceMoved] is the square root of
    [dx * dx + dy * dy], or 100 when no start position was recorded.  On
    integers the root is below 5 exactly when the sum is below 25. *)
Definition barelyMoved (e : mouseEvent) (s : state) : bool :=
  match moveStartPos s with
  | Some (x0, y0) =>
      (clientX e - x0) * (clientX e - x0) + (clientY e - y0) * (clientY e - y0) <? 25
  | None => false
  end.

(** [fitsInGrid] of [handleGridMouseUp], [renderEnclosure], [renderBuilding]. *)
Definition fitsInGrid (gX gY w h : jsnum) : bool :=
  jge gX (Num 0) && jge gY (Num 0) &&
  jle (jadd gX w) (Num GRID_SIZE) && jle (jadd gY h) (Num GRID_SIZE).

(** The callback of the dialog opened by a click on an item: it deletes,
    from the collection of its type, the item with that id. *)
Definition deleteAction (t : itemType) (i : string) : action :=
  match t with
  | TEnclosure => DeleteEnclosure i
  | TDecoration => DeleteDecoration i
  | TBuilding => DeleteBuilding i
  end.

Definition deleteRequest (m : movingItemT) : action :=
  deleteAction (m_type m) (m_id m).

Definition handleGridMouseUp (C : catalogs) (e : mouseEvent) (s : state) : state :=
  match resizingEnclosure s with
  | Some resize =>
      let s :=
        if barelyMoved e s then
          let enc := r_enclosure resize in
          let s := assign enc (setGeometry (originalData resize)) s in
          showConfirmDialog (DeleteEnclosure (id (deref s enc))) s
        else s in
      set_moveStartPos None (set_resizingEnclosure None s)
  | None =>
      match movingItem s with
      | Some m =>
          if barelyMoved e s then
            let s := assign (m_data m)
                       (fun o => set_gridY (originalY m) (set_gridX (originalX m) o)) s in
            let s := showConfirmDialog (deleteRequest m) s in
            set_moveStartPos None (set_movingItem None s)
          else
            let item := deref s (m_data m) in
            let fits := fitsInGrid (gridX item) (gridY item) (width item) (height item) in
            let hasOverlap :=
              checkOverlap s (gridX item) (gridY item) (width item) (height item)
                (Some (m_id m)) in
            let s :=
              if negb fits || hasOverlap
              then assign (m_data m)
                     (fun o => set_gridY (originalY m) (set_gridX (originalX m) o)) s
              else s in
            set_moveStartPos None (set_movingItem None (updateURL C s))
      | None =>
          match drawing s with
          | None => s
          | Some d =>
              let x := Z.min (startX d) (currentX d) in
              let y := Z.min (startY d) (currentY d) in
              let w := Z.abs (currentX d - startX d) + 1 in
              let h := Z.abs (currentY d - startY d) + 1 in
              let hasOverlap := checkOverlap s (Num x) (Num y) (Num w) (Num h) None in
              let s :=
                if (0 <? w) && (0 <? h) && negb hasOverlap
                then addEnclosure C (Num x) (Num y) (Num w) (Num h) s
                else s in
              set_drawing None s
          end
      end
  end.

(** [handleGridDrop]; [itemId] is the [buildingId] carried by the drag. *)
Definition handleGridDrop (C : catalogs) (itemId : string) (e : mouseEvent) (s : state)
    : state :=
  if negb (truthy itemId) then s
  else
    let found :=
      match find (fun b => String.eqb (def_id b) itemId) (BUILDINGS C) with
      | Some item => Some (item, false)
      | None =>
          match find (fun d => String.eqb (def_id d) itemId) (DECORATIONS C) with
          | Some item => Some (item, true)
          | None => None
          end
      end in
    match found with
    | None => s
    | Some (item, isDecoration) =>
        let isRestroom := String.eqb (def_id item) "restroom" in
        let alreadyPlaced :=
          existsb (fun b => includes (id b) (def_id item)) (buildingsOf s) in
        if negb isDecoration && (negb isRestroom && alreadyPlaced) then s
        else
          let gX := (clientX e - rect_left (svgRect e)) / CELL_SIZE in
          let gY := (clientY e - rect_top (svgRect e)) / CELL_SIZE in
          let fits :=
            jle (jadd (Num gX) (def_width item)) (Num GRID_SIZE) &&
            jle (jadd (Num gY) (def_height item)) (Num GRID_SIZE) in
          let hasOverlap :=
            checkOverlap s (Num gX) (Num gY) (def_width item) (def_height item) None in
          if fits && negb hasOverlap then
            if isDecoration then addDecoration C item (Num gX) (Num gY) false s
            else addBuilding C item (Num gX) (Num gY) false s
          else s
    end.

(** Events the page reacts to, and the handler bound to each. *)
Inductive event : Type :=
| Drop (itemId : string) (e : mouseEvent)
| MouseDown (e : mouseEvent)
| MouseMove (e : mouseEvent)
| MouseUp (e : mouseEvent)
| ClickAnimalCard (animalId : string)
| ClickDeleteAnimal (animalId : string)
| ClickDeleteBuilding (buildingType : string)
| ClickDeleteRestrooms
| ClickDeleteDecorations (decorationType : string)
| ClickStartOver
| ClickYes (k : nat)
| ClickNo (k : nat).

Definition handle (C : catalogs) (ev : event) (s : state) : state :=
  match ev with
  | Drop itemId e => handleGridDrop C itemId e s
  | MouseDown e => handleGridMouseDown e s
  | MouseMove e => handleGridMouseMove C e s
  | MouseUp e => handleGridMouseUp C e s
  | ClickAnimalCard a => selectAnimal a s
  | ClickDeleteAnimal a => deleteEnclosureByAnimal C a s
  | ClickDeleteBuilding t => deleteBuildingByType C t s
  | ClickDeleteRestrooms => deleteAllRestrooms C s
  | ClickDeleteDecorations t => deleteAllDecorationType C t s
  | ClickStartOver => startOver s
  | ClickYes k => confirmYes C k s
  | ClickNo k => confirmNo k s
  end.

Definition run (C : catalogs) (evs : list event) (s : state) : state :=
  fold_left (fun s ev => handle C ev s) evs s.

(* --------------------------------------------------------------------- *)
(** ** Validation shown to the user                                       *)
(* --------------------------------------------------------------------- *)

(** The class [renderEnclosure] adds to the rectangle of an enclosure. *)
Inductive enclosureClass : Type :=
| EnclosureInvalid
| EnclosureWarning
| EnclosureOk.

(** [ANIMALS.find(a => a.id === enclosure.animal)]. *)
Definition animalOf (C : catalogs) (enclosure : entity) : option animalDef :=
  find (fun a => match animal enclosure with
                 | Some x => String.eqb (animal_id a) x
                 | None => false
                 end) (ANIMALS C).

Definition area (o : entity) : jsnum := jmul (width o) (height o).
Definition perimeter (o : entity) : jsnum := jmul (Num 2) (jadd (width o) (height o)).

(** [meetsRequirements] of [renderEnclosure] as a condition. *)
Definition meetsRequirements (C : catalogs) (enclosure : entity) : bool :=
  match animalOf C enclosure with
  | Some a => jge (area enclosure) (minArea a) && jge (perimeter enclosure) (minPerimeter a)
  | None => false
  end.

Definition isValidPlacement (s : state) (enclosure : entity) : bool :=
  fitsInGrid (gridX enclosure) (gridY enclosure) (width enclosure) (height enclosure) &&
  negb (checkOverlap s (gridX enclosure) (gridY enclosure) (width enclosure)
          (height enclosure) (Some (id enclosure))).

Definition renderEnclosure (C : catalogs) (s : state) (enclosure : entity)
    : enclosureClass :=
  if negb (isValidPlacement s enclosure) then EnclosureInvalid
  else if negb (meetsRequirements C enclosure) then EnclosureWarning
  else EnclosureOk.

(** A row of [updateSummaryTable]: none when the animal is unknown,
    otherwise the flags [perimeterTooSmall], [areaTooSmall] and
    [needsWarning]. *)
Record summaryRow : Type := {
  perimeterTooSmall : bool;
  areaTooSmall : bool;
  needsWarning : bool
}.

Definition summaryRowOf (C : catalogs) (enclosure : entity) : option summaryRow :=
  match animalOf C enclosure with
  | None => None
  | Some a =>
      let areaTooSmall := jlt (area enclosure) (minArea a) in
      let perimeterTooSmall := jlt (perimeter enclosure) (minPerimeter a) in
      Some {| perimeterTooSmall := perimeterTooSmall; areaTooSmall := areaTooSmall;
              needsWarning := areaTooSmall || perimeterTooSmall |}
  end.

Definition updateSummaryTable (C : catalogs) (s : state) : list summaryRow :=
  omap (summaryRowOf C) (enclosuresOf s).

(* --------------------------------------------------------------------- *)
(** ** Vocabulary of the specification                                    *)
(* --------------------------------------------------------------------- *)

(** Everything the store holds: buildings, then decorations, then enclosures. *)
Definition stored (s : state) : list entity :=
  buildingsOf s ++ decorationsOf s ++ enclosuresOf s.

(** An axis-aligned rectangle on integer grid coordinates. *)
Record rect : Type := {
  rx : Z;
  ry : Z;
  rw : Z;
  rh : Z
}.

(** The overlap relation as the specification words it. *)
Definition overlaps_spec (a b : rect) : Prop :=
  rx a < rx b + rw b /\ rx b < rx a + rw a /\
  ry a < ry b + rh b /\ ry b < ry a + rh a.

(** Two rectangles that meet along an edge. *)
Definition edgeTouching (a b : rect) : Prop :=
  rx a + rw a = rx b \/ rx b + rw b = rx a \/
  ry a + rh a = ry b \/ ry b + rh b = ry a.

(** The object [o] occupies the integer rectangle [r]. *)
Definition occupies (o : entity) (r : rect) : Prop :=
  gridX o = Num (rx r) /\ gridY o = Num (ry r) /\
  width o = Num (rw r) /\ height o = Num (rh r).

Definition integral (o : entity) : Prop :=
  isInt (gridX o) /\ isInt (gridY o) /\ isInt (width o) /\ isInt (height o).

(** [checkOverlap] called on the rectangle [a]. *)
Definition queryOverlap (s : state) (a : rect) (excludeId : option string) : bool :=
  checkOverlap s (Num (rx a)) (Num (ry a)) (Num (rw a)) (Num (rh a)) excludeId.

(** [rectHits] called on the rectangle [a]. *)
Definition hits (a : rect) (o : entity) : bool :=
  rectHits (Num (rx a)) (Num (ry a)) (Num (rw a)) (Num (rh a)) o.

(** A value that fits one base-36 character: an integer from 0 to 35. *)
Definition base36Digit (v : jsnum) : Prop :=
  match v with
  | Num z => 0 <= z < 36
  | NaN => False
  end.

(** The tuple the codec keeps of a placed building or decoration, and of
    an enclosure: the instance id is not part of it. *)
Definition itemTuple (catalog : list itemDef) (b : entity) : itemData :=
  {| typeIndex := typeIndexOf catalog b; i_x := gridX b; i_y := gridY b |}.

Definition enclosureTuple (animals : list animalDef) (e : entity) : enclosureData :=
  {| animalIndex := animalIndexOf animals e; e_x := gridX e; e_y := gridY e;
     e_w := width e; e_h := height e |}.

Definition encodableItem (catalog : list itemDef) (b : entity) : Prop :=
  base36Digit (typeIndexOf catalog b) /\ base36Digit (gridX b) /\ base36Digit (gridY b).

Definition encodableEnclosure (animals : list animalDef) (e : entity) : Prop :=
  base36Digit (animalIndexOf animals e) /\ base36Digit (gridX e) /\
  base36Digit (gridY e) /\ base36Digit (width e) /\ base36Digit (height e).


(** A string without the separator of the sections. *)
Fixpoint noDot (str : string) : Prop :=
  match str with
  | EmptyString => True
  | String c rest => c <> "."%char /\ noDot rest
  end.

(** A section read three, respectively five, characters at a time, a
    shorter remainder being dropped. *)
Fixpoint chunks3 (str : string) : list itemData :=
  match str with
  | String a (String b (String c rest)) =>
      {| typeIndex := fromBase36 (Some (String a EmptyString));
         i_x := fromBase36 (Some (String b EmptyString));
         i_y := fromBase36 (Some (String c EmptyString)) |} :: chunks3 rest
  | _ => []
  end.

Fixpoint chunks5 (str : string) : list enclosureData :=
  match str with
  | String a (String b (String c (String d (String e rest)))) =>
      {| animalIndex := fromBase36 (Some (String a EmptyString));
         e_x := fromBase36 (Some (String b EmptyString));
         e_y := fromBase36 (Some (String c EmptyString));
         e_w := fromBase36 (Some (String d EmptyString));
         e_h := fromBase36 (Some (String e EmptyString)) |} :: chunks5 rest
  | _ => []
  end.

(** The four geometry properties of an object. *)
Definition geometryOf (o : entity) : geometry :=
  {| g_gridX := gridX o; g_gridY := gridY o; g_width := width o; g_height := height o |}.

(** [c] hits a stored object whose id is not [i]. *)
Definition hitsAnother (s : state) (c : geometry) (i : string) : Prop :=
  exists o, In o (stored s) /\ id o <> i /\
            rectHits (g_gridX c) (g_gridY c) (g_width c) (g_height c) o = true.

(** The two states hold the same objects in the same collections. *)
Definition sameStore (s s' : state) : Prop :=
  heap s' = heap s /\ placedBuildings s' = placedBuildings s /\
  placedDecorations s' = placedDecorations s /\ enclosures s' = enclosures s.

(** The two states have the same collections (the objects may differ). *)
Definition sameCollections (s s' : state) : Prop :=
  placedBuildings s' = placedBuildings s /\
  placedDecorations s' = placedDecorations s /\ enclosures s' = enclosures s.

(** The collection an item of a given type belongs to. *)
Definition collectionOf (t : itemType) (s : state) : list entity :=
  match t with
  | TBuilding => buildingsOf s
  | TDecoration => decorationsOf s
  | TEnclosure => enclosuresOf s
  end.

(** Squared distance, in pixels, between the pointer and a start position. *)
Definition distance2 (e : mouseEvent) (x0 y0 : Z) : Z :=
  (clientX e - x0) * (clientX e - x0) + (clientY e - y0) * (clientY e - y0).

(** No two distinct stored objects overlap. *)
Definition noOverlap (s : state) : Prop :=
  forall (i j : nat) (o1 o2 : entity),
    i <> j -> stored s !! i = Some o1 -> stored s !! j = Some o2 ->
    rectHits (gridX o1) (gridY o1) (width o1) (height o1) o2 = false.

(** At most one enclosure per animal. *)
Definition uniqueOccupants (s : state) : Prop :=
  forall (i j : nat) (e1 e2 : entity),
    i <> j -> enclosuresOf s !! i = Some e1 -> enclosuresOf s !! j = Some e2 ->
    animal e1 <> animal e2.

(** At most one placed building per catalog entry, restrooms apart. *)
Definition uniqueBuildings (s : state) : Prop :=
  forall (i j : nat) (b1 b2 : entity),
    i <> j -> buildingsOf s !! i = Some b1 -> buildingsOf s !! j = Some b2 ->
    typeIdOf (id b1) = typeIdOf (id b2) -> typeIdOf (id b1) = "restroom".

(* --------------------------------------------------------------------- *)
(** ** Sample catalogs and scenarios                                      *)
(* --------------------------------------------------------------------- *)

Definition sampleCatalogs : catalogs := {|
  BUILDINGS :=
    [ {| def_id := "giftshop"; def_width := Num 2; def_height := Num 2 |};
      {| def_id := "restroom"; def_width := Num 1; def_height := Num 1 |};
      {| def_id := "restaurant"; def_width := Num 3; def_height := Num 2 |} ];
  DECORATIONS :=
    [ {| def_id := "bench"; def_width := Num 1; def_height := Num 1 |};
      {| def_id := "tree"; def_width := Num 1; def_height := Num 1 |};
      {| def_id := "fountain"; def_width := Num 2; def_height := Num 2 |} ];
  ANIMALS :=
    [ {| animal_id := "lion"; minPerimeter := Num 20; minArea := Num 24 |};
      {| animal_id := "zebra"; minPerimeter := Num 14; minArea := Num 12 |};
      {| animal_id := "giraffe"; minPerimeter := Num 14; minArea := Num 20 |};
      {| animal_id := "penguin"; minPerimeter := Num 8; minArea := Num 4 |} ]
|}.

(** The grid element placed at the origin of the viewport. *)
Definition sampleRect : domRect :=
  {| rect_left := 0; rect_top := 0; rect_right := 600; rect_bottom := 600 |}.

(** A pointer event at pixel [(x, y)] over the bare grid. *)
Definition pointerAt (x y : Z) : mouseEvent :=
  {| clientX := x; clientY := y; svgRect := sampleRect;
     overEnclosure := None; overBuilding := None |}.

(** A pointer event at pixel [(x, y)] over the building or decoration [i]. *)
Definition pointerOnBuilding (i : string) (x y : Z) : mouseEvent :=
  {| clientX := x; clientY := y; svgRect := sampleRect;
     overEnclosure := None; overBuilding := Some i |}.

(** A pointer event at pixel [(x, y)] over the enclosure [i]. *)
Definition pointerOnEnclosure (i : string) (x y : Z) : mouseEvent :=
  {| clientX := x; clientY := y; svgRect := sampleRect;
     overEnclosure := Some i; overBuilding := None |}.


(** An enclosure drawn from cell (0, 0) to cell (3, 2) for the animal
    [a], on an empty grid. *)
Definition drawn4x3 (a : string) : state :=
  run sampleCatalogs
    [ClickAnimalCard a; MouseDown (pointerAt 5 5); MouseMove (pointerAt 70 50);
     MouseUp (pointerAt 70 50)]
    (init sampleCatalogs None).

(** A restaurant on cells (5..7, 0..1) and, beside it, an enclosure on
    cells (0..3, 0..2) for the zebra. *)
Definition twoNeighbours : state :=
  run sampleCatalogs
    [Drop "restaurant" (pointerAt 105 5); ClickAnimalCard "zebra";
     MouseDown (pointerAt 5 5); MouseMove (pointerAt 70 50); MouseUp (pointerAt 70 50)]
    (init sampleCatalogs None).

(** The right edge of the enclosure grabbed, at pixel (80, 30). *)
Definition resizeStarted : state := handleGridMouseDown (pointerAt 80 30) twoNeighbours.

(** The enclosure grabbed by its body at pixel (30, 30), then dragged four
    cells to the right, onto the restaurant. *)
Definition moveStarted : state :=
  handleGridMouseDown (pointerOnEnclosure "enclosure-1" 30 30) twoNeighbours.


(** The enclosure of [twoNeighbours] pressed and released two pixels away. *)
Definition clickedEnclosure : state :=
  handleGridMouseUp sampleCatalogs (pointerAt 31 32) moveStarted.

(** Its right edge pressed at pixel (80, 30), a move event two pixels to
    the right (the pointer is then in the next cell, and the enclosure
    grows by one), and the release three pixels from the press. *)
Definition resizeDragged : state :=
  handleGridMouseMove sampleCatalogs (pointerAt 82 30) resizeStarted.

Definition clickedEdge : state :=
  handleGridMouseUp sampleCatalogs (pointerAt 83 30) resizeDragged.

(** The page opened with [?z=000000]: two records of the gift shop
    (catalog index 0), both on cell (0, 0). *)
Definition loadedOverlapping : state := init sampleCatalogs (Some "000000").

(** The page opened with [?z=000055..0aa110kk11]: two gift shops, on cells
    (0, 0) and (5, 5), and two enclosures for the lion (animal index 0),
    on cells (10, 10) and (20, 20). *)
Definition loadedTwice : state := init sampleCatalogs (Some "000055..0aa110kk11").

(** A zoo with one object in each collection. *)
Definition sampleZoo : state :=
  run sampleCatalogs
    [Drop "restaurant" (pointerAt 105 110); Drop "fountain" (pointerAt 305 410);
     ClickAnimalCard "zebra"; MouseDown (pointerAt 5 5); MouseMove (pointerAt 70 50);
     MouseUp (pointerAt 70 50)]
    (init sampleCatalogs None).


(* --------------------------------------------------------------------- *)
(** ** Further vocabulary                                                 *)
(* --------------------------------------------------------------------- *)

(** The last character of a string is a dot. *)
Fixpoint endsWithDot (str : string) : bool :=
  match str with
  | EmptyString => false
  | String c EmptyString => Ascii.eqb c "."
  | String _ rest => endsWithDot rest
  end.

(** The page opened with [?z=0!!]: a gift shop whose coordinates did not
    parse. *)
Definition loadedCorrupt : state := init sampleCatalogs (Some "0!!").

(** The references held by the three collections. *)
Definition refsOf (s : state) : list nat :=
  placedBuildings s ++ placedDecorations s ++ enclosures s.

(** Every reference of the collections points to an object. *)
Definition validRefs (s : state) : Prop :=
  forall l, In l (refsOf s) -> (l < length (heap s))%nat.

(** The selected animal has no enclosure. *)
Definition selectionFree (s : state) : Prop :=
  setHas (usedAnimals s) (selectedAnimal s) = false.

(** From [s] to [s'] only geometry, gesture, URL and dialogs changed: the
    collections, the selection and the id and animal of every object are
    the same. *)
Definition frame (s s' : state) : Prop :=
  sameCollections s s' /\
  length (heap s') = length (heap s) /\
  (forall l, id (deref s' l) = id (deref s l) /\ animal (deref s' l) = animal (deref s l)) /\
  selectedAnimal s' = selectedAnimal s.

(** A function on objects that touches the geometry only. *)
Definition geometryOnly (f : entity -> entity) : Prop :=
  forall o, id (f o) = id o /\ animal (f o) = animal o.

(** A state whose collections shrank, the heap being the same. *)
Definition shrunk (s s' : state) : Prop :=
  heap s' = heap s /\
  sublist (placedBuildings s') (placedBuildings s) /\
  sublist (placedDecorations s') (placedDecorations s) /\
  sublist (enclosures s') (enclosures s).

(** What every handler keeps once the references are valid: the validity
    of the references, a selection without enclosure, and the absence of
    two enclosures for one animal. *)
Definition keeps (s s' : state) : Prop :=
  validRefs s ->
  validRefs s' /\ (selectionFree s -> selectionFree s') /\
  (NoDup (usedAnimals s) -> NoDup (usedAnimals s')).

(** From [s] to [s'] one object [o] was created and joined the buildings
    ([toBuildings]) or the decorations. *)
Definition addedItem (s s' : state) (o : entity) (toBuildings : bool) : Prop :=
  heap s' = heap s ++ [o] /\
  (if toBuildings
   then placedBuildings s' = placedBuildings s ++ [length (heap s)] /\
        placedDecorations s' = placedDecorations s
   else placedBuildings s' = placedBuildings s /\
        placedDecorations s' = placedDecorations s ++ [length (heap s)]) /\
  enclosures s' = enclosures s /\
  selectedAnimal s' = selectedAnimal s.

(** From [s] to [s'] one object [o] was created and joined the enclosures. *)
Definition addedEnclosure (s s' : state) (o : entity) : Prop :=
  heap s' = heap s ++ [o] /\
  placedBuildings s' = placedBuildings s /\
  placedDecorations s' = placedDecorations s /\
  enclosures s' = enclosures s ++ [length (heap s)].

(** The test of [checkOverlap] between two objects. *)
Definition hit (a b : entity) : bool :=
  rectHits (gridX a) (gridY a) (width a) (height a) b.

(** No object of the list hits a later one. *)
Fixpoint pairwiseFree (l : list entity) : Prop :=
  match l with
  | [] => True
  | o :: rest => (forall o', In o' rest -> hit o o' = false) /\ pairwiseFree rest
  end.

(** No two stored objects have the same id. *)
Definition uniqueIds (s : state) : Prop := NoDup (map id (stored s)).


(** During a move of the object [m_data m] started in [s0]: only its
    position differs. *)
Definition movingSince (s0 : state) (m : movingItemT) (s : state) : Prop :=
  resizingEnclosure s = None /\ movingItem s = Some m /\
  sameCollections s0 s /\
  (forall l, l <> m_data m -> deref s l = deref s0 l) /\
  is_Some (heap s !! m_data m) /\
  (exists x y, deref s (m_data m) = set_gridY y (set_gridX x (deref s0 (m_data m)))).

(** No move or resize is going on, and the store is the one of [s0]. *)
Definition idleSince (s0 s : state) : Prop :=
  resizingEnclosure s = None /\ movingItem s = None /\ sameStore s0 s.

(** A complete pointer gesture: press, moves, release. *)
Definition gesture (e0 : mouseEvent) (moves : list mouseEvent) (e1 : mouseEvent)
    : list event :=
  MouseDown e0 :: map MouseMove moves ++ [MouseUp e1].

(** A string without the separator of instance ids. *)
Fixpoint noDash (str : string) : Prop :=
  match str with
  | EmptyString => True
  | String c rest => c <> "-"%char /\ noDash rest
  end.

(** The object has an instance id made of one of the [types] and of a
    counter below [next]. *)
Definition numbered (types : list string) (next : N) (o : entity) : Prop :=
  exists t n, In t types /\ (n < next)%N /\ id o = t +:+ "-" +:+ decimal n.

(** Every stored object was numbered by the counter of its collection. *)
Definition numberedIds (C : catalogs) (s : state) : Prop :=
  Forall (numbered (map def_id (BUILDINGS C)) (nextBuildingId s)) (buildingsOf s) /\
  Forall (numbered (map def_id (DECORATIONS C)) (nextDecorationId s)) (decorationsOf s) /\
  Forall (numbered ["enclosure"] (nextEnclosureId s)) (enclosuresOf s).

(** No building type is a decoration type, and none is called
    ["enclosure"]. *)
Definition separateCatalogs (C : catalogs) : Prop :=
  (forall b d, In b (BUILDINGS C) -> In d (DECORATIONS C) -> def_id b <> def_id d) /\
  (forall b, In b (BUILDINGS C ++ DECORATIONS C) -> def_id b <> "enclosure").

Definition sameCounters (s s' : state) : Prop :=
  nextEnclosureId s' = nextEnclosureId s /\ nextBuildingId s' = nextBuildingId s /\
  nextDecorationId s' = nextDecorationId s.

Definition sameGesture (s s' : state) : Prop :=
  resizingEnclosure s' = resizingEnclosure s /\ movingItem s' = movingItem s.

(** No move and no resize is going on. *)
Definition idle (s : state) : Prop := resizingEnclosure s = None /\ movingItem s = None.

(** What a user does: a complete pointer gesture on the grid, or one
    event. *)
Inductive userAction : Type :=
| Gesture (e0 : mouseEvent) (moves : list mouseEvent) (e1 : mouseEvent)
| Single (ev : event).

Definition eventsOf (a : userAction) : list event :=
  match a with
  | Gesture e0 moves e1 => gesture e0 moves e1
  | Single ev => [ev]
  end.

Definition pointerEvent (ev : event) : bool :=
  match ev with
  | MouseDown _ | MouseMove _ | MouseUp _ => true
  | _ => false
  end.

(** The pointer events of a session come as complete gestures. *)
Definition orderly (a : userAction) : Prop :=
  match a with
  | Gesture _ _ _ => True
  | Single ev => pointerEvent ev = false
  end.

Definition session (actions : list userAction) : list event :=
  concat (map eventsOf actions).

(** The collection of references, the counter and the type names that go
    with a kind of object. *)
Definition refsIn (t : itemType) (s : state) : list loc :=
  match t with
  | TBuilding => placedBuildings s
  | TDecoration => placedDecorations s
  | TEnclosure => enclosures s
  end.

Definition counterOf (t : itemType) (s : state) : N :=
  match t with
  | TBuilding => nextBuildingId s
  | TDecoration => nextDecorationId s
  | TEnclosure => nextEnclosureId s
  end.

Definition typesOf (C : catalogs) (t : itemType) : list string :=
  match t with
  | TBuilding => map def_id (BUILDINGS C)
  | TDecoration => map def_id (DECORATIONS C)
  | TEnclosure => ["enclosure"]
  end.

Definition itemTypeEq (a b : itemType) : bool :=
  match a, b with
  | TBuilding, TBuilding | TDecoration, TDecoration | TEnclosure, TEnclosure => true
  | _, _ => false
  end.

(** The references are valid, the ids are distinct and every id was made
    from the counter of its collection. *)
Definition wellNumbered (C : catalogs) (s : state) : Prop :=
  validRefs s /\ uniqueIds s /\ numberedIds C s.

(** From [s] to [s'] one object of kind [t] was created, numbered by the
    counter of its kind, and joined its collection. *)
Definition grownBy (C : catalogs) (t : itemType) (s s' : state) (o : entity) : Prop :=
  heap s' = heap s ++ [o] /\
  (forall t', refsIn t' s'
              = if itemTypeEq t t' then refsIn t' s ++ [length (heap s)] else refsIn t' s) /\
  (forall t', counterOf t' s'
              = if itemTypeEq t t' then (counterOf t' s + 1)%N else counterOf t' s) /\
  exists x, In x (typesOf C t) /\ id o = x +:+ "-" +:+ decimal (counterOf t s).

(** No two ids of the list have the same type, restrooms apart. *)
Fixpoint loneTypes (ids : list string) : Prop :=
  match ids with
  | [] => True
  | a :: rest =>
      (forall b, In b rest -> typeIdOf a = typeIdOf b -> typeIdOf a = "restroom") /\
      loneTypes rest
  end.

(** An instance id of a building of the catalog. *)
Definition buildingId (C : catalogs) (i : string) : Prop :=
  exists t n, In t (map def_id (BUILDINGS C)) /\ i = t +:+ "-" +:+ n.

(** No type id of the buildings catalog contains a dash. *)
Definition dashFree (C : catalogs) : Prop :=
  forall b, In b (BUILDINGS C) -> noDash (def_id b).

(** The object passes the test [fitsInGrid] of the handlers. *)
Definition inGrid (o : entity) : Prop :=
  fitsInGrid (gridX o) (gridY o) (width o) (height o) = true.

(** Every stored object lies inside the grid. *)
Definition allInGrid (s : state) : Prop := forall o, In o (stored s) -> inGrid o.

(** The rectangle being drawn, if any, has its corners on cells of the
    grid. *)
Definition drawingInGrid (s : state) : Prop :=
  forall d, drawing s = Some d ->
            0 <= startX d < GRID_SIZE /\ 0 <= startY d < GRID_SIZE /\
            0 <= currentX d < GRID_SIZE /\ 0 <= currentY d < GRID_SIZE.

(** The pointer of a drop is not left of, nor above, the grid element. *)
Definition insideDrop (a : userAction) : Prop :=
  match a with
  | Single (Drop _ e) => rect_left (svgRect e) <= clientX e /\ rect_top (svgRect e) <= clientY e
  | _ => True
  end.

Definition sameDrawing (s s' : state) : Prop := drawing s' = drawing s.

(** A rectangle that lies inside the grid. *)
Definition inBounds (a : rect) : Prop :=
  0 <= rx a /\ 0 <= ry a /\ rx a + rw a <= GRID_SIZE /\ ry a + rh a <= GRID_SIZE.





(* --------------------------------------------------------------------- *)
(** ** Contents of a state, by catalog entry                              *)
(* --------------------------------------------------------------------- *)

(** Within each catalog the ids are pairwise distinct, and no id of a
    building or decoration contains a dash. *)
Definition cleanCatalogs (C : catalogs) : Prop :=
  NoDup (map def_id (BUILDINGS C)) /\ Forall (fun d => noDash (def_id d)) (BUILDINGS C) /\
  NoDup (map def_id (DECORATIONS C)) /\ Forall (fun d => noDash (def_id d)) (DECORATIONS C) /\
  NoDup (map animal_id (ANIMALS C)).

(** [r] is the record of the placed object [b]: [b] is an instance (its id
    is the id of the entry, a dash and a counter) of entry [k] of the
    catalog, [k] and the position of [b] are integers from 0 to 35, and [r]
    holds [k] and the position. *)
Definition itemRecord (catalog : list itemDef) (b : entity) (r : itemData) : Prop :=
  exists k def n,
    r = {| typeIndex := Num k; i_x := gridX b; i_y := gridY b |} /\
    0 <= k < 36 /\ catalog !! Z.to_nat k = Some def /\
    id b = def_id def +:+ "-" +:+ decimal n /\
    base36Digit (gridX b) /\ base36Digit (gridY b).

(** [r] is the record of [o], and [o] has the size of its catalog entry. *)
Definition loadedItem (catalog : list itemDef) (o : entity) (r : itemData) : Prop :=
  exists k def n,
    r = {| typeIndex := Num k; i_x := gridX o; i_y := gridY o |} /\
    0 <= k < 36 /\ catalog !! Z.to_nat k = Some def /\
    id o = def_id def +:+ "-" +:+ decimal n /\
    base36Digit (gridX o) /\ base36Digit (gridY o) /\
    width o = def_width def /\ height o = def_height def.

(** [r] is the record of the enclosure [e]: its animal is entry [k] of the
    catalog, [k] and the four numbers of its rectangle are integers from 0
    to 35, and [r] holds [k] and the rectangle. *)
Definition enclosureRecord (animals : list animalDef) (e : entity) (r : enclosureData)
    : Prop :=
  exists k a,
    r = {| animalIndex := Num k; e_x := gridX e; e_y := gridY e;
           e_w := width e; e_h := height e |} /\
    0 <= k < 36 /\ animals !! Z.to_nat k = Some a /\
    animal e = Some (animal_id a) /\
    base36Digit (gridX e) /\ base36Digit (gridY e) /\
    base36Digit (width e) /\ base36Digit (height e).

(** [o] is what [loadFromURL] makes of the record of [b]. *)
Definition loadedFrom (catalog : list itemDef) (b o : entity) : Prop :=
  exists def n,
    atIndex catalog (typeIndexOf catalog b) = Some def /\
    id o = def_id def +:+ "-" +:+ decimal n /\
    gridX o = gridX b /\ gridY o = gridY b /\
    width o = def_width def /\ height o = def_height def.

(** A catalog whose only building has a dash in its id, and that building
    dropped on cell (5, 5) of the empty grid. *)
Definition dashedCatalogs : catalogs := {|
  BUILDINGS := [ {| def_id := "ice-cream"; def_width := Num 1; def_height := Num 1 |} ];
  DECORATIONS := [];
  ANIMALS := []
|}.

Definition iceCreamAt55 : state :=
  handleGridDrop dashedCatalogs "ice-cream" (pointerAt 105 110) (init dashedCatalogs None).

(** An enclosure drawn on cells (0..3, 0..2), grabbed and dragged away;
    while it is held the restaurant is dropped on cell (0, 0); the
    enclosure is then dragged onto the restaurant and released. *)
Definition dropDuringMove : state :=
  run sampleCatalogs
    [ClickAnimalCard "zebra"; MouseDown (pointerAt 5 5); MouseMove (pointerAt 70 50);
     MouseUp (pointerAt 70 50);
     MouseDown (pointerOnEnclosure "enclosure-1" 30 30); MouseMove (pointerAt 230 230);
     Drop "restaurant" (pointerAt 5 5);
     MouseMove (pointerAt 50 30); MouseUp (pointerAt 50 30)]
    (init sampleCatalogs None).

(* ===================================================================== *)
(** * Part II: properties                                                 *)
(* ===================================================================== *)

(** Replace a closed term by its value. *)
Ltac evaluate t :=
  let v := eval vm_compute in t in
  replace t with v by (vm_compute; reflexivity).

(* --------------------------------------------------------------------- *)
(** ** The overlap query                                                  *)
(* --------------------------------------------------------------------- *)

Lemma overlapLoop_existsb (l : list entity) (gX gY w h : jsnum) (ex : option string) :
  overlapLoop l gX gY w h ex
  = existsb (fun o => negb (isExcluded o ex) && rectHits gX gY w h o) l.
Proof.
  induction l as [|o rest IH]; simpl; [reflexivity|].
  destruct (isExcluded o ex); simpl; [exact IH|].
  destruct (rectHits gX gY w h o); simpl; [reflexivity|exact IH].
Qed.

Lemma checkOverlap_existsb (s : state) (gX gY w h : jsnum) (ex : option string) :
  checkOverlap s gX gY w h ex
  = existsb (fun o => negb (isExcluded o ex) && rectHits gX gY w h o) (stored s).
Proof.
  unfold checkOverlap, stored.
  rewrite !existsb_app, !overlapLoop_existsb.
  repeat match goal with |- context [existsb ?f ?l] => destruct (existsb f l) end;
    reflexivity.
Qed.

(** The query answers [true] exactly when some stored object that is not
    excluded passes the test of the loops. *)
Lemma checkOverlap_true_iff (s : state) (gX gY w h : jsnum) (ex : option string) :
  checkOverlap s gX gY w h ex = true <->
  exists o, In o (stored s) /\ isExcluded o ex = false /\ rectHits gX gY w h o = true.
Proof.
  rewrite checkOverlap_existsb, existsb_exists.
  split; intros (o & Hin & H); exists o; split; try assumption.
  - apply andb_true_iff in H as [H1 H2]. apply negb_true_iff in H1. auto.
  - destruct H as [-> ->]. reflexivity.
Qed.


(** On integer rectangles the test of the loops is the overlap relation
    of the specification. *)
Lemma hits_overlaps_spec (a b : rect) (o : entity) :
  occupies o b -> hits a o = true <-> overlaps_spec a b.
Proof.
  intros (Hx & Hy & Hw & Hh). unfold hits, rectHits, overlaps_spec, jge.
  rewrite Hx, Hy, Hw, Hh. simpl.
  rewrite negb_true_iff, !orb_false_iff, !Z.leb_gt. lia.
Qed.

Lemma hits_edgeTouching (a b : rect) (o : entity) :
  occupies o b -> 0 < rw a -> 0 < rh a -> 0 < rw b -> 0 < rh b ->
  edgeTouching a b -> hits a o = false.
Proof.
  intros Ho Hwa Hha Hwb Hhb Ht.
  destruct (hits a o) eqn:E; [|reflexivity].
  apply (hits_overlaps_spec a b o Ho) in E. unfold overlaps_spec, edgeTouching in *. lia.
Qed.

Lemma integral_occupies (o : entity) : integral o -> exists b, occupies o b.
Proof.
  destruct o as [i [x|] [y|] [w|] [h|] an]; unfold integral; simpl; try tauto.
  intros _. exists {| rx := x; ry := y; rw := w; rh := h |}. repeat split.
Qed.

(** An object is left out of the query exactly when its id is the
    excluded one. *)
Lemma isExcluded_other (o : entity) (excludeId : option string) :
  isExcluded o excludeId = false <-> excludeId <> Some (id o).
Proof.
  destruct excludeId as [i|]; simpl.
  - rewrite String.eqb_neq. split; [intros H E; injection E as ->; tauto|].
    intros H E. apply H. rewrite E. reflexivity.
  - split; [discriminate|reflexivity].
Qed.

(** On a store of integer rectangles the query is the overlap relation of
    the specification, taken over the objects with another id. *)
Lemma queryOverlap_overlapsAnother (s : state) (a : rect) (excludeId : option string) :
  Forall integral (stored s) ->
  queryOverlap s a excludeId = true <->
  exists o b, In o (stored s) /\ excludeId <> Some (id o) /\
              occupies o b /\ overlaps_spec a b.
Proof.
  intros Hint. unfold queryOverlap. rewrite checkOverlap_true_iff. split.
  - intros (o & Hin & Hex & Hhit).
    rewrite Forall_forall in Hint.
    destruct (integral_occupies o (Hint o (proj2 (list_elem_of_In _ _) Hin))) as [b Hb].
    exists o, b. split; [exact Hin|]. split; [apply isExcluded_other, Hex|].
    split; [exact Hb|]. apply (hits_overlaps_spec a b o Hb). exact Hhit.
  - intros (o & b & Hin & Hex & Hb & Hov). exists o.
    split; [exact Hin|]. split; [apply isExcluded_other, Hex|].
    apply (hits_overlaps_spec a b o Hb). exact Hov.
Qed.

(** C7. For integer rectangles the test applied by the overlap query is
    exactly [a.x < b.x+b.w /\ b.x < a.x+a.w /\ a.y < b.y+b.h /\ b.y < a.y+a.h];
    rectangles that only share an edge are not reported; and, on a store of
    integer rectangles, [checkOverlap] answers true exactly when some
    stored building, decoration or enclosure whose id is not [excludeId]
    overlaps the queried rectangle in that sense. *)
Theorem checkOverlap_meets_spec (s : state) (a : rect) (excludeId : option string) :
  Forall integral (stored s) ->
  (forall o b, occupies o b -> hits a o = true <-> overlaps_spec a b) /\
  (forall o b, occupies o b -> 0 < rw a -> 0 < rh a -> 0 < rw b -> 0 < rh b ->
               edgeTouching a b -> hits a o = false) /\
  (queryOverlap s a excludeId = true <->
   exists o b, In o (stored s) /\ excludeId <> Some (id o) /\
               occupies o b /\ overlaps_spec a b).
Proof.
  intros Hint. split; [|split].
  - intros o b. apply hits_overlaps_spec.
  - intros o b. apply hits_edgeTouching.
  - apply queryOverlap_overlapsAnother, Hint.
Qed.

(* --------------------------------------------------------------------- *)
(** ** Strings                                                            *)
(* --------------------------------------------------------------------- *)

Lemma app_cons (c : ascii) (a b : string) : String c a +:+ b = String c (a +:+ b).
Proof. reflexivity. Qed.

Lemma app_empty_l (a : string) : "" +:+ a = a.
Proof. reflexivity. Qed.

Lemma app_empty_r (a : string) : a +:+ "" = a.
Proof. induction a as [|c a IH]; [reflexivity|]. rewrite app_cons, IH. reflexivity. Qed.

Lemma app_assoc_str (a b c : string) : (a +:+ b) +:+ c = a +:+ (b +:+ c).
Proof. induction a as [|x a IH]; [reflexivity|]. rewrite !app_cons, IH. reflexivity. Qed.

Lemma length_app_str (a b : string) :
  String.length (a +:+ b) = (String.length a + String.length b)%nat.
Proof. induction a as [|x a IH]; [reflexivity|]. rewrite app_cons. simpl. rewrite IH. reflexivity. Qed.

Lemma strIndex_app_r (p r : string) (k : nat) :
  strIndex (p +:+ r) (String.length p + k) = strIndex r k.
Proof.
  unfold strIndex. induction p as [|x p IH]; [reflexivity|].
  rewrite app_cons. simpl. exact IH.
Qed.

Lemma strIndex_app_0 (p r : string) :
  strIndex (p +:+ r) (String.length p) = strIndex r 0.
Proof. rewrite <- (strIndex_app_r p r 0), Nat.add_0_r. reflexivity. Qed.

Lemma noDot_app (a b : string) : noDot a -> noDot b -> noDot (a +:+ b).
Proof.
  induction a as [|x a IH]; intros Ha Hb; [exact Hb|].
  rewrite app_cons. destruct Ha as [Hx Ha]. split; [exact Hx|]. apply IH; assumption.
Qed.

Lemma split_noDot (str : string) : noDot str -> split "." str = [str].
Proof.
  induction str as [|c rest IH]; intros H; [reflexivity|].
  destruct H as [Hc Hrest]. simpl.
  destruct (Ascii.eqb_spec c "."%char) as [E|_]; [contradiction|].
  rewrite (IH Hrest). reflexivity.
Qed.

Lemma split_app_dot (p r : string) :
  noDot p -> split "." (p +:+ String "." r) = p :: split "." r.
Proof.
  induction p as [|c p IH]; intros H.
  - reflexivity.
  - destruct H as [Hc Hp]. rewrite app_cons. simpl.
    destruct (Ascii.eqb_spec c "."%char) as [E|_]; [contradiction|].
    rewrite (IH Hp). reflexivity.
Qed.

Lemma strip_noDot (str : string) : noDot str -> stripTrailingDots str = str.
Proof.
  induction str as [|c rest IH]; intros H; [reflexivity|].
  destruct H as [Hc Hrest]. simpl. rewrite (IH Hrest).
  destruct (Ascii.eqb_spec c "."%char) as [E|_]; [contradiction|]. reflexivity.
Qed.

Lemma strip_app_noDot (p r : string) :
  noDot p -> stripTrailingDots (p +:+ r) = p +:+ stripTrailingDots r.
Proof.
  induction p as [|c p IH]; intros H; [reflexivity|].
  destruct H as [Hc Hp]. rewrite !app_cons. simpl. rewrite (IH Hp).
  destruct (Ascii.eqb_spec c "."%char) as [E|_]; [contradiction|]. reflexivity.
Qed.

Lemma strip_dot (r : string) :
  stripTrailingDots (String "." r)
  = if String.eqb (stripTrailingDots r) "" then "" else String "." (stripTrailingDots r).
Proof. reflexivity. Qed.

Lemma eqb_empty (str : string) : String.eqb str "" = true <-> str = "".
Proof. apply String.eqb_eq. Qed.

(** What the decoder finds in the three sections of
    [strip (b . d . e)] when no section contains a dot. *)
Lemma sections_of_encoding (b d e : string) :
  noDot b -> noDot d -> noDot e ->
  let parts := split "." (stripTrailingDots (b +:+ "." +:+ d +:+ "." +:+ e)) in
  part parts 0 = b /\ part parts 1 = d /\ part parts 2 = e.
Proof.
  intros Hb Hd He. cbv zeta.
  rewrite (strip_app_noDot b _ Hb).
  change ("." +:+ d +:+ "." +:+ e) with (String "." (d +:+ String "." e)).
  rewrite strip_dot, (strip_app_noDot d _ Hd), strip_dot, (strip_noDot e He).
  destruct e as [|ce e].
  - simpl (String.eqb "" ""). cbv iota. rewrite app_empty_r.
    destruct d as [|cd d].
    + simpl (String.eqb "" ""). cbv iota. rewrite app_empty_r, (split_noDot b Hb).
      repeat split.
    + simpl (String.eqb _ ""). cbv iota.
      rewrite (split_app_dot b _ Hb), (split_noDot _ Hd). repeat split.
  - simpl (String.eqb (String ce e) ""). cbv iota.
    assert (String.eqb (d +:+ String "." (String ce e)) "" = false) as ->.
    { destruct d; reflexivity. }
    rewrite (split_app_dot b _ Hb), (split_app_dot d _ Hd), (split_noDot _ He).
    repeat split.
Qed.


(* --------------------------------------------------------------------- *)
(** ** The loops of the decoder                                           *)
(* --------------------------------------------------------------------- *)

Lemma itemLoop_done (fuel : nat) (str : string) (i : nat) (acc : list itemData) :
  (String.length str <= i)%nat -> itemLoop fuel str i acc = acc.
Proof.
  intros H. destruct fuel as [|fuel]; [reflexivity|]. simpl.
  destruct (Nat.ltb_spec i (String.length str)); [lia|reflexivity].
Qed.

(** With fuel for every remaining character, the loop that starts at the
    end of the prefix [p] appends the triples of the remainder [r]. *)
Lemma itemLoop_chunks3 (fuel : nat) :
  forall (p r : string) (acc : list itemData),
    (String.length r <= fuel)%nat ->
    itemLoop fuel (p +:+ r) (String.length p) acc = acc ++ chunks3 r.
Proof.
  induction fuel as [|fuel IH]; intros p r acc Hfuel.
  - destruct r; [|simpl in Hfuel; lia]. simpl. rewrite app_nil_r. reflexivity.
  - destruct r as [|a [|b [|c r]]].
    + rewrite itemLoop_done; [|rewrite app_empty_r; lia].
      simpl. rewrite app_nil_r. reflexivity.
    + simpl. rewrite length_app_str. simpl.
      destruct (Nat.ltb_spec (String.length p) (String.length p + 1)); [|lia].
      destruct (Nat.leb_spec (String.length p + 3) (String.length p + 1)); [lia|].
      rewrite itemLoop_done; [|rewrite length_app_str; simpl; lia].
      rewrite app_nil_r. reflexivity.
    + simpl. rewrite length_app_str. simpl.
      destruct (Nat.ltb_spec (String.length p) (String.length p + 2)); [|lia].
      destruct (Nat.leb_spec (String.length p + 3) (String.length p + 2)); [lia|].
      rewrite itemLoop_done; [|rewrite length_app_str; simpl; lia].
      rewrite app_nil_r. reflexivity.
    + simpl in Hfuel.
      change (itemLoop (S fuel) ?str ?i ?acc) with
        (if (i <? String.length str)%nat
         then itemLoop fuel str (i + 3)
                (if (i + 3 <=? String.length str)%nat
                 then acc ++ [ {| typeIndex := fromBase36 (strIndex str i);
                                  i_x := fromBase36 (strIndex str (i + 1));
                                  i_y := fromBase36 (strIndex str (i + 2)) |} ]
                 else acc)
         else acc).
      rewrite length_app_str. simpl String.length.
      destruct (Nat.ltb_spec (String.length p) (String.length p + S (S (S (String.length r)))));
        [|lia].
      destruct (Nat.leb_spec (String.length p + 3)
                  (String.length p + S (S (S (String.length r))))); [|lia].
      rewrite !strIndex_app_r, strIndex_app_0.
      change (strIndex (String a (String b (String c r))) 0) with (Some (String a "")).
      change (strIndex (String a (String b (String c r))) 1) with (Some (String b "")).
      change (strIndex (String a (String b (String c r))) 2) with (Some (String c "")).
      replace (p +:+ String a (String b (String c r)))
        with ((p +:+ String a (String b (String c ""))) +:+ r)
        by (rewrite app_assoc_str; reflexivity).
      replace (String.length p + 3)%nat
        with (String.length (p +:+ String a (String b (String c ""))))
        by (rewrite length_app_str; reflexivity).
      rewrite IH by lia. rewrite <- app_assoc. reflexivity.
Qed.

Lemma itemLoop_section (str : string) :
  itemLoop (String.length str) str 0 [] = chunks3 str.
Proof. exact (itemLoop_chunks3 (String.length str) "" str [] (Nat.le_refl _)). Qed.

Lemma enclosureLoop_done (fuel : nat) (str : string) (i : nat) (acc : list enclosureData) :
  (String.length str <= i)%nat -> enclosureLoop fuel str i acc = acc.
Proof.
  intros H. destruct fuel as [|fuel]; [reflexivity|]. simpl.
  destruct (Nat.ltb_spec i (String.length str)); [lia|reflexivity].
Qed.

Lemma enclosureLoop_short (fuel : nat) (p r : string) (acc : list enclosureData) :
  (0 < String.length r < 5)%nat ->
  enclosureLoop (S fuel) (p +:+ r) (String.length p) acc = acc.
Proof.
  intros H. simpl. rewrite length_app_str.
  destruct (Nat.ltb_spec (String.length p) (String.length p + String.length r)); [|lia].
  destruct (Nat.leb_spec (String.length p + 5) (String.length p + String.length r)); [lia|].
  apply enclosureLoop_done. rewrite length_app_str. lia.
Qed.

Lemma enclosureLoop_chunks5 (fuel : nat) :
  forall (p r : string) (acc : list enclosureData),
    (String.length r <= fuel)%nat ->
    enclosureLoop fuel (p +:+ r) (String.length p) acc = acc ++ chunks5 r.
Proof.
  induction fuel as [|fuel IH]; intros p r acc Hfuel.
  - destruct r; [|simpl in Hfuel; lia]. simpl. rewrite app_nil_r. reflexivity.
  - destruct r as [|a [|b [|c [|d [|e r]]]]].
    + rewrite enclosureLoop_done; [|rewrite app_empty_r; lia].
      simpl. rewrite app_nil_r. reflexivity.
    + rewrite enclosureLoop_short by (simpl; lia). simpl. rewrite app_nil_r. reflexivity.
    + rewrite enclosureLoop_short by (simpl; lia). simpl. rewrite app_nil_r. reflexivity.
    + rewrite enclosureLoop_short by (simpl; lia). simpl. rewrite app_nil_r. reflexivity.
    + rewrite enclosureLoop_short by (simpl; lia). simpl. rewrite app_nil_r. reflexivity.
    + simpl in Hfuel.
      change (enclosureLoop (S fuel) ?str ?i ?acc) with
        (if (i <? String.length str)%nat
         then enclosureLoop fuel str (i + 5)
                (if (i + 5 <=? String.length str)%nat
                 then acc ++ [ {| animalIndex := fromBase36 (strIndex str i);
                                  e_x := fromBase36 (strIndex str (i + 1));
                                  e_y := fromBase36 (strIndex str (i + 2));
                                  e_w := fromBase36 (strIndex str (i + 3));
                                  e_h := fromBase36 (strIndex str (i + 4)) |} ]
                 else acc)
         else acc).
      rewrite length_app_str. simpl String.length.
      destruct (Nat.ltb_spec (String.length p)
                  (String.length p + S (S (S (S (S (String.length r))))))); [|lia].
      destruct (Nat.leb_spec (String.length p + 5)
                  (String.length p + S (S (S (S (S (String.length r))))))); [|lia].
      rewrite !strIndex_app_r, strIndex_app_0.
      set (five := String a (String b (String c (String d (String e ""))))).
      change (strIndex (String a (String b (String c (String d (String e r))))) 0)
        with (Some (String a "")).
      change (strIndex (String a (String b (String c (String d (String e r))))) 1)
        with (Some (String b "")).
      change (strIndex (String a (String b (String c (String d (String e r))))) 2)
        with (Some (String c "")).
      change (strIndex (String a (String b (String c (String d (String e r))))) 3)
        with (Some (String d "")).
      change (strIndex (String a (String b (String c (String d (String e r))))) 4)
        with (Some (String e "")).
      replace (p +:+ String a (String b (String c (String d (String e r)))))
        with ((p +:+ five) +:+ r) by (rewrite app_assoc_str; reflexivity).
      replace (String.length p + 5)%nat with (String.length (p +:+ five))
        by (rewrite length_app_str; reflexivity).
      rewrite IH by lia. rewrite <- app_assoc. reflexivity.
Qed.

Lemma enclosureLoop_section (str : string) :
  enclosureLoop (String.length str) str 0 [] = chunks5 str.
Proof. exact (enclosureLoop_chunks5 (String.length str) "" str [] (Nat.le_refl _)). Qed.

(** The decoder in terms of the sections: it always completes. *)
Lemma decodeZooState_sections (str : string) :
  decodeZooState (Some str)
  = Some {| d_buildings := chunks3 (part (split "." str) 0);
            d_decorations := chunks3 (part (split "." str) 1);
            d_enclosures := chunks5 (part (split "." str) 2) |}.
Proof.
  unfold decodeZooState, decodeBody, splitDots, andThen.
  rewrite !itemLoop_section, !enclosureLoop_section.
  assert (Hi : forall t, (if truthy t && (0 <? String.length t)%nat
                          then chunks3 t else []) = chunks3 t).
  { intros [|? ?]; reflexivity. }
  assert (He : forall t, (if truthy t && (0 <? String.length t)%nat
                          then chunks5 t else []) = chunks5 t).
  { intros [|? ?]; reflexivity. }
  rewrite !Hi, He. reflexivity.
Qed.

(* --------------------------------------------------------------------- *)
(** ** Round trip through the codec                                       *)
(* --------------------------------------------------------------------- *)

(** A value from 0 to 35 is written as one character, which is not the
    separator and reads back as the value. *)
Lemma digit_roundtrip (v : jsnum) :
  base36Digit v ->
  exists c : ascii,
    toBase36 v = String c "" /\ c <> "."%char /\ fromBase36 (Some (String c "")) = v.
Proof.
  destruct v as [z|]; simpl; [|tauto]. intros Hz.
  replace z with (Z.of_nat (Z.to_nat z)) by lia.
  assert (Hn : (Z.to_nat z < 36)%nat) by lia.
  generalize dependent (Z.to_nat z). clear Hz z. intros n Hn.
  do 36 (destruct n as [|n];
         [eexists; split; [vm_compute; reflexivity|]; split; [discriminate|reflexivity]|]).
  lia.
Qed.

Lemma join_cons (x : string) (l : list string) : join (x :: l) = x +:+ join l.
Proof.
  unfold join. destruct l as [|y l].
  - simpl. rewrite app_empty_r. reflexivity.
  - reflexivity.
Qed.

Lemma encodeItem_chars (catalog : list itemDef) (b : entity) :
  encodableItem catalog b ->
  noDot (encodeItem catalog b) /\
  forall rest, chunks3 (encodeItem catalog b +:+ rest)
               = itemTuple catalog b :: chunks3 rest.
Proof.
  intros (Ht & Hx & Hy). unfold encodeItem, itemTuple.
  destruct (digit_roundtrip _ Ht) as (ct & -> & Hct & Et).
  destruct (digit_roundtrip _ Hx) as (cx & -> & Hcx & Ex).
  destruct (digit_roundtrip _ Hy) as (cy & -> & Hcy & Ey).
  split.
  - repeat split; assumption.
  - intros rest. repeat (rewrite app_cons || rewrite app_empty_l). cbn [chunks3].
    rewrite Et, Ex, Ey. reflexivity.
Qed.

Lemma encodeEnclosure_chars (animals : list animalDef) (e : entity) :
  encodableEnclosure animals e ->
  noDot (encodeEnclosure animals e) /\
  forall rest, chunks5 (encodeEnclosure animals e +:+ rest)
               = enclosureTuple animals e :: chunks5 rest.
Proof.
  intros (Ha & Hx & Hy & Hw & Hh). unfold encodeEnclosure, enclosureTuple.
  destruct (digit_roundtrip _ Ha) as (ca & -> & Hca & Ea).
  destruct (digit_roundtrip _ Hx) as (cx & -> & Hcx & Ex).
  destruct (digit_roundtrip _ Hy) as (cy & -> & Hcy & Ey).
  destruct (digit_roundtrip _ Hw) as (cw & -> & Hcw & Ew).
  destruct (digit_roundtrip _ Hh) as (ch & -> & Hch & Eh).
  split.
  - repeat split; assumption.
  - intros rest. repeat (rewrite app_cons || rewrite app_empty_l). cbn [chunks5].
    rewrite Ea, Ex, Ey, Ew, Eh. reflexivity.
Qed.

Lemma items_section (catalog : list itemDef) (l : list entity) :
  Forall (encodableItem catalog) l ->
  noDot (join (map (encodeItem catalog) l)) /\
  chunks3 (join (map (encodeItem catalog) l)) = map (itemTuple catalog) l.
Proof.
  induction 1 as [|b l Hb Hl [IHdot IHchunks]]; [split; reflexivity|].
  destruct (encodeItem_chars catalog b Hb) as [Hdot Hchunks].
  cbn [map]. rewrite join_cons. split.
  - apply noDot_app; assumption.
  - rewrite Hchunks, IHchunks. reflexivity.
Qed.

Lemma enclosures_section (animals : list animalDef) (l : list entity) :
  Forall (encodableEnclosure animals) l ->
  noDot (join (map (encodeEnclosure animals) l)) /\
  chunks5 (join (map (encodeEnclosure animals) l)) = map (enclosureTuple animals) l.
Proof.
  induction 1 as [|e l He Hl [IHdot IHchunks]]; [split; reflexivity|].
  destruct (encodeEnclosure_chars animals e He) as [Hdot Hchunks].
  cbn [map]. rewrite join_cons. split.
  - apply noDot_app; assumption.
  - rewrite Hchunks, IHchunks. reflexivity.
Qed.

(* --------------------------------------------------------------------- *)
(** ** The record of a building                                           *)
(* --------------------------------------------------------------------- *)




(* --------------------------------------------------------------------- *)
(** ** Decoding never fails                                               *)
(* --------------------------------------------------------------------- *)

(** A character that is no radix-36 digit reads as [NaN]. *)
Lemma fromBase36_not_a_digit (c : ascii) :
  digitVal c = None -> fromBase36 (Some (String c "")) = NaN.
Proof.
  destruct c as [[] [] [] [] [] [] [] []]; vm_compute; intros H;
    first [reflexivity | discriminate H].
Qed.

Lemma chunks3_not_digits (a b c : ascii) :
  digitVal a = None -> digitVal b = None -> digitVal c = None ->
  chunks3 (String a (String b (String c "")))
  = [ {| typeIndex := NaN; i_x := NaN; i_y := NaN |} ].
Proof.
  intros Ha Hb Hc. cbn [chunks3].
  rewrite (fromBase36_not_a_digit a Ha), (fromBase36_not_a_digit b Hb),
    (fromBase36_not_a_digit c Hc). reflexivity.
Qed.

(** C10. The decoder returns a structure for every string (only a
    non-string argument reaches the [catch] branch); a character outside
    the base-36 alphabet raises nothing and reads as [NaN]; so a corrupt
    record, such as three characters that are neither digits nor dots,
    is decoded to a record with [NaN] fields. *)
Theorem decodeZooState_total :
  (forall str : string, exists data, decodeZooState (Some str) = Some data) /\
  decodeZooState None = None /\
  (forall c : ascii, digitVal c = None -> fromBase36 (Some (String c "")) = NaN) /\
  (forall a b c : ascii,
      digitVal a = None -> digitVal b = None -> digitVal c = None ->
      a <> "."%char -> b <> "."%char -> c <> "."%char ->
      decodeZooState (Some (String a (String b (String c ""))))
      = Some {| d_buildings := [ {| typeIndex := NaN; i_x := NaN; i_y := NaN |} ];
                d_decorations := []; d_enclosures := [] |}).
Proof.
  split; [|split; [|split]].
  - intros str. rewrite decodeZooState_sections. eexists. reflexivity.
  - reflexivity.
  - exact fromBase36_not_a_digit.
  - intros a b c Ha Hb Hc Na Nb Nc. rewrite decodeZooState_sections.
    rewrite split_noDot by (repeat split; assumption).
    change (part [?t] 0) with t. change (part [?t] 1) with "". change (part [?t] 2) with "".
    rewrite (chunks3_not_digits a b c Ha Hb Hc). reflexivity.
Qed.

Lemma decodeZooState_total_witness :
  decodeZooState (Some "#?!")
  = Some {| d_buildings := [ {| typeIndex := NaN; i_x := NaN; i_y := NaN |} ];
            d_decorations := []; d_enclosures := [] |}.
Proof.
  apply (proj2 (proj2 (proj2 decodeZooState_total)));
    first [reflexivity | discriminate].
Defined.

(* --------------------------------------------------------------------- *)
(** ** Status of an enclosure                                             *)
(* --------------------------------------------------------------------- *)





(** The two scenarios of the specification, run through the handlers: an
    enclosure drawn from cell (0, 0) to cell (3, 2) is 4 by 3; it is ok for
    an animal that needs area 12 and perimeter 14, and a warning for one
    that needs area 20. *)
Example drawn_enclosure_ok :
  map (fun e => (gridX e, gridY e, width e, height e,
                 renderEnclosure sampleCatalogs (drawn4x3 "zebra") e))
      (enclosuresOf (drawn4x3 "zebra"))
  = [(Num 0, Num 0, Num 4, Num 3, EnclosureOk)].
Proof. vm_compute. reflexivity. Qed.

Example drawn_enclosure_warning :
  map (fun e => (gridX e, gridY e, width e, height e,
                 renderEnclosure sampleCatalogs (drawn4x3 "giraffe") e))
      (enclosuresOf (drawn4x3 "giraffe"))
  = [(Num 0, Num 0, Num 4, Num 3, EnclosureWarning)].
Proof. vm_compute. reflexivity. Qed.

(* --------------------------------------------------------------------- *)
(** ** Heap and store                                                     *)
(* --------------------------------------------------------------------- *)

Lemma deref_assign_same (l : loc) (f : entity -> entity) (s : state) :
  is_Some (heap s !! l) -> deref (assign l f s) l = f (deref s l).
Proof.
  intros [o Ho]. unfold deref, assign.
  change (heap (set_heap ?h s)) with h.
  rewrite list_lookup_alter_eq, Ho. reflexivity.
Qed.

Lemma deref_assign_other (l l' : loc) (f : entity -> entity) (s : state) :
  l <> l' -> deref (assign l f s) l' = deref s l'.
Proof.
  intros Hne. unfold deref, assign.
  change (heap (set_heap ?h s)) with h.
  rewrite list_lookup_alter_ne by exact Hne. reflexivity.
Qed.

Lemma sameStore_refl (s : state) : sameStore s s.
Proof. repeat split. Qed.

Lemma sameStore_trans (s1 s2 s3 : state) :
  sameStore s1 s2 -> sameStore s2 s3 -> sameStore s1 s3.
Proof.
  intros (A1 & A2 & A3 & A4) (B1 & B2 & B3 & B4).
  repeat split; congruence.
Qed.

Lemma sameStore_deref (s s' : state) (l : loc) : sameStore s s' -> deref s' l = deref s l.
Proof. intros (H & _). unfold deref. rewrite H. reflexivity. Qed.

Lemma sameStore_stored (s s' : state) : sameStore s s' -> stored s' = stored s.
Proof.
  intros (H1 & H2 & H3 & H4).
  unfold stored, buildingsOf, decorationsOf, enclosuresOf, deref.
  rewrite H1, H2, H3, H4. reflexivity.
Qed.

Lemma sameStore_collections (s s' : state) : sameStore s s' -> sameCollections s s'.
Proof. intros (_ & H). exact H. Qed.

Lemma sameStore_updateURL (C : catalogs) (s : state) : sameStore s (updateURL C s).
Proof. unfold updateURL. destruct (_ && _); repeat split. Qed.

Lemma sameStore_selectAnimal (a : string) (s : state) : sameStore s (selectAnimal a s).
Proof. unfold selectAnimal. destruct (setHas _ _); repeat split. Qed.

Lemma sameStore_renderAnimalList (C : catalogs) (s : state) :
  sameStore s (renderAnimalList C s).
Proof.
  unfold renderAnimalList.
  set (s1 := match ANIMALS C with
             | [] => s
             | a :: _ => if negb (isSelected (selectedAnimal s))
                         then selectAnimal (animal_id a) s else s
             end).
  assert (H1 : sameStore s s1).
  { subst s1. destruct (ANIMALS C); [apply sameStore_refl|].
    destruct (negb _); [apply sameStore_selectAnimal|apply sameStore_refl]. }
  destruct (setHas _ _); [|exact H1].
  destruct (find _ _).
  - eapply sameStore_trans; [exact H1|apply sameStore_selectAnimal].
  - eapply sameStore_trans; [exact H1|]. repeat split.
Qed.

Lemma isExcluded_false_iff (o : entity) (i : string) :
  isExcluded o (Some i) = false <-> id o <> i.
Proof. simpl. apply String.eqb_neq. Qed.

(** The overlap query with an excluded id, in the words of the claims. *)
Lemma checkOverlap_hitsAnother (s : state) (c : geometry) (i : string) :
  checkOverlap s (g_gridX c) (g_gridY c) (g_width c) (g_height c) (Some i) = true
  <-> hitsAnother s c i.
Proof.
  rewrite checkOverlap_true_iff. unfold hitsAnother.
  split; intros (o & Hin & Hex & Hhit); exists o;
    (split; [exact Hin|]); (split; [|exact Hhit]);
    apply isExcluded_false_iff; exact Hex.
Qed.

(* --------------------------------------------------------------------- *)
(** ** Resize: a candidate that overlaps is rejected                      *)
(* --------------------------------------------------------------------- *)


(** The other branch: a candidate that hits nothing else becomes the
    geometry of the enclosure. *)
Lemma resize_applied (C : catalogs) (e : mouseEvent) (s : state) (resize : resizingT) :
  resizingEnclosure s = Some resize ->
  is_Some (heap s !! r_enclosure resize) ->
  ~ hitsAnother s
      (resizeCandidate (r_edge resize) (deref s (r_enclosure resize)) (getGridPoint e))
      (id (deref s (r_enclosure resize))) ->
  geometryOf (deref (handleGridMouseMove C e s) (r_enclosure resize))
  = resizeCandidate (r_edge resize) (deref s (r_enclosure resize)) (getGridPoint e).
Proof.
  intros Hr Hl Hno. rewrite <- checkOverlap_hitsAnother in Hno.
  apply not_true_is_false in Hno.
  unfold handleGridMouseMove. rewrite Hr. cbv zeta. rewrite Hno. cbn [negb].
  rewrite (sameStore_deref _ _ _ (sameStore_updateURL C _)).
  rewrite deref_assign_same by exact Hl.
  destruct (resizeCandidate _ _ _). reflexivity.
Qed.


(* --------------------------------------------------------------------- *)
(** ** Move: release after a drag                                         *)
(* --------------------------------------------------------------------- *)

Lemma barelyMoved_iff (e : mouseEvent) (s : state) (x0 y0 : Z) :
  moveStartPos s = Some (x0, y0) ->
  barelyMoved e s = true <-> distance2 e x0 y0 < 25.
Proof. intros H. unfold barelyMoved, distance2. rewrite H. apply Z.ltb_lt. Qed.








(* --------------------------------------------------------------------- *)
(** ** Status of an enclosure, in the words of the specification          *)
(* --------------------------------------------------------------------- *)




(* --------------------------------------------------------------------- *)
(** ** Click: a delete request                                            *)
(* --------------------------------------------------------------------- *)

Lemma filterRefs_keep (s : state) (keep : entity -> bool) (l : list loc) (o : entity) :
  In o (map (deref s) (filterRefs s keep l)) -> keep o = true.
Proof.
  unfold filterRefs. intros H. apply in_map_iff in H as (r & <- & Hr).
  apply filter_In in Hr as [_ Hk]. exact Hk.
Qed.

Lemma collectionOf_sameStore (t : itemType) (s s' : state) :
  sameStore s s' -> collectionOf t s' = collectionOf t s.
Proof.
  intros (H1 & H2 & H3 & H4).
  destruct t; unfold collectionOf, buildingsOf, decorationsOf, enclosuresOf, deref;
    rewrite H1, ?H2, ?H3, ?H4; reflexivity.
Qed.

(** Running the callback of a delete request: afterwards the collection
    of that type holds no object with that id. *)
Lemma runAction_deletes (C : catalogs) (t : itemType) (i : string) (s : state) (o : entity) :
  In o (collectionOf t (runAction C (deleteAction t i) s)) -> id o <> i.
Proof.
  intros H. apply String.eqb_neq, negb_true_iff.
  destruct t; cbn [deleteAction runAction] in H.
  - unfold deleteBuilding in H.
    rewrite (collectionOf_sameStore _ _ _ (sameStore_updateURL C _)) in H.
    exact (filterRefs_keep s _ _ o H).
  - unfold deleteDecoration in H.
    rewrite (collectionOf_sameStore _ _ _ (sameStore_updateURL C _)) in H.
    exact (filterRefs_keep s _ _ o H).
  - unfold deleteEnclosure in H.
    rewrite (collectionOf_sameStore _ _ _ (sameStore_updateURL C _)) in H.
    rewrite (collectionOf_sameStore _ _ _ (sameStore_renderAnimalList C _)) in H.
    exact (filterRefs_keep s _ _ o H).
Qed.

Lemma confirmYes_last (C : catalogs) (a : action) (s : state) (l : list action) :
  dialogs s = l ++ [a] ->
  confirmYes C (length l) s = runAction C a (set_dialogs l s).
Proof.
  intros H. unfold confirmYes. rewrite H, list_lookup_middle by reflexivity.
  replace (delete (length l) (l ++ [a])) with l; [reflexivity|].
  clear H. induction l as [|x l IH]; [reflexivity|]. simpl. f_equal. exact IH.
Qed.

(** The release of a click on an item being moved. *)
Lemma click_on_moving_item (C : catalogs) (e : mouseEvent) (s : state) (m : movingItemT) :
  resizingEnclosure s = None ->
  movingItem s = Some m ->
  barelyMoved e s = true ->
  handleGridMouseUp C e s
  = set_moveStartPos None (set_movingItem None
      (showConfirmDialog (deleteRequest m)
         (assign (m_data m)
            (fun o => set_gridY (originalY m) (set_gridX (originalX m) o)) s))).
Proof. intros Hrz Hm Hb. unfold handleGridMouseUp. rewrite Hrz, Hm, Hb. reflexivity. Qed.

(** The release of a click on the edge of an enclosure. *)
Lemma click_on_edge (C : catalogs) (e : mouseEvent) (s : state) (resize : resizingT) :
  resizingEnclosure s = Some resize ->
  barelyMoved e s = true ->
  handleGridMouseUp C e s
  = set_moveStartPos None (set_resizingEnclosure None
      (showConfirmDialog
         (DeleteEnclosure
            (id (deref (assign (r_enclosure resize) (setGeometry (originalData resize)) s)
                   (r_enclosure resize))))
         (assign (r_enclosure resize) (setGeometry (originalData resize)) s))).
Proof. intros Hrz Hb. unfold handleGridMouseUp. rewrite Hrz, Hb. reflexivity. Qed.

(** C6. Click-versus-drag threshold.  A move or resize gesture released
    less than 5 pixels from where it was pressed commits nothing: the
    release handler first puts the geometry back to the values recorded
    when the gesture started ([originalData] for a resize; [originalX],
    [originalY] for a move, whose size never changes), then opens one
    confirmation dialog whose callback deletes the item, ends the gesture,
    and leaves the three collections as they were.  Declining the dialog
    leaves them so; accepting it removes the item. *)
Theorem click_is_delete_request (C : catalogs) (e : mouseEvent) (s : state) (x0 y0 : Z) :
  moveStartPos s = Some (x0, y0) ->
  distance2 e x0 y0 < 25 ->
  let s' := handleGridMouseUp C e s in
  let k := length (dialogs s) in
  (forall resize : resizingT,
      resizingEnclosure s = Some resize ->
      is_Some (heap s !! r_enclosure resize) ->
      geometryOf (deref s' (r_enclosure resize)) = originalData resize /\
      dialogs s' = dialogs s ++ [DeleteEnclosure (id (deref s (r_enclosure resize)))] /\
      sameCollections s s' /\
      resizingEnclosure s' = None /\ moveStartPos s' = None /\
      sameCollections s (confirmNo k s') /\
      (forall o, In o (enclosuresOf (confirmYes C k s')) ->
                 id o <> id (deref s (r_enclosure resize)))) /\
  (forall m : movingItemT,
      resizingEnclosure s = None ->
      movingItem s = Some m ->
      is_Some (heap s !! m_data m) ->
      gridX (deref s' (m_data m)) = originalX m /\
      gridY (deref s' (m_data m)) = originalY m /\
      width (deref s' (m_data m)) = width (deref s (m_data m)) /\
      height (deref s' (m_data m)) = height (deref s (m_data m)) /\
      dialogs s' = dialogs s ++ [deleteRequest m] /\
      sameCollections s s' /\
      movingItem s' = None /\ moveStartPos s' = None /\
      sameCollections s (confirmNo k s') /\
      (forall o, In o (collectionOf (m_type m) (confirmYes C k s')) -> id o <> m_id m)).
Proof.
  intros Hpos Hdist s' k.
  assert (Hb : barelyMoved e s = true) by (apply (barelyMoved_iff e s x0 y0 Hpos); exact Hdist).
  split.
  - intros resize Hrz Hl.
    assert (Hid : id (deref (assign (r_enclosure resize) (setGeometry (originalData resize)) s)
                        (r_enclosure resize)) = id (deref s (r_enclosure resize))).
    { rewrite deref_assign_same by exact Hl. reflexivity. }
    subst s'. rewrite (click_on_edge C e s resize Hrz Hb), Hid.
    split; [|split; [|split; [|split; [|split; [|split]]]]];
      try reflexivity; try (repeat split; fail).
    + change (deref (set_moveStartPos None (set_resizingEnclosure None
                (showConfirmDialog ?a ?t))) ?l) with (deref t l).
      rewrite deref_assign_same by exact Hl.
      destruct (originalData resize). reflexivity.
    + intros o Ho. rewrite (confirmYes_last C _ _ (dialogs s)) in Ho by reflexivity.
      exact (runAction_deletes C TEnclosure _ _ o Ho).
  - intros m Hrz Hm Hl.
    subst s'. rewrite (click_on_moving_item C e s m Hrz Hm Hb).
    change (deref (set_moveStartPos None (set_movingItem None
              (showConfirmDialog ?a ?t))) ?l) with (deref t l).
    rewrite deref_assign_same by exact Hl.
    split; [|split; [|split; [|split; [|split; [|split; [|split; [|split; [|split]]]]]]]];
      try reflexivity; try (repeat split; fail).
    intros o Ho. rewrite (confirmYes_last C _ _ (dialogs s)) in Ho by reflexivity.
    exact (runAction_deletes C (m_type m) (m_id m) _ o Ho).
Qed.

Lemma click_is_delete_request_witness :
  geometryOf (deref resizeDragged 1%nat)
  = {| g_gridX := Num 0; g_gridY := Num 0; g_width := Num 5; g_height := Num 3 |} /\
  geometryOf (deref clickedEdge 1%nat)
  = {| g_gridX := Num 0; g_gridY := Num 0; g_width := Num 4; g_height := Num 3 |} /\
  dialogs clickedEdge = [DeleteEnclosure "enclosure-1"].
Proof.
  split; [vm_compute; reflexivity|].
  assert (Hpos : moveStartPos resizeDragged = Some (80, 30)) by (vm_compute; reflexivity).
  assert (Hd : distance2 (pointerAt 83 30) 80 30 < 25) by (vm_compute; reflexivity).
  assert (Hrz : resizingEnclosure resizeDragged
                = Some {| r_enclosure := 1%nat;
                          r_edge := {| edge_left := false; edge_right := true;
                                       edge_top := false; edge_bottom := false |};
                          originalData := {| g_gridX := Num 0; g_gridY := Num 0;
                                             g_width := Num 4; g_height := Num 3 |} |})
    by (vm_compute; reflexivity).
  assert (Hl : is_Some (heap resizeDragged !! 1%nat)) by (vm_compute; eauto).
  destruct (proj1 (click_is_delete_request sampleCatalogs (pointerAt 83 30) resizeDragged
                     80 30 Hpos Hd) _ Hrz Hl) as (Hg & Hdlg & _).
  split; [exact Hg|]. unfold clickedEdge. rewrite Hdlg. vm_compute. reflexivity.
Defined.

(** The same click on the body of the enclosure: a dialog is open, the
    enclosure is still stored; accepting removes it, declining keeps it. *)
Example click_then_answer :
  dialogs clickedEnclosure = [DeleteEnclosure "enclosure-1"] /\
  map id (enclosuresOf clickedEnclosure) = ["enclosure-1"] /\
  map id (enclosuresOf (confirmNo 0 clickedEnclosure)) = ["enclosure-1"] /\
  map id (enclosuresOf (confirmYes sampleCatalogs 0 clickedEnclosure)) = [].
Proof. vm_compute. repeat split. Qed.

Lemma checkOverlap_meets_spec_witness :
  queryOverlap sampleZoo {| rx := 6; ry := 6; rw := 2; rh := 2 |} None = true /\
  queryOverlap sampleZoo {| rx := 6; ry := 6; rw := 2; rh := 2 |} (Some "restaurant-1")
  = false.
Proof.
  assert (Hint : Forall integral (stored sampleZoo)).
  { evaluate (stored sampleZoo). repeat constructor. }
  split.
  - apply (proj2 (proj2 (checkOverlap_meets_spec sampleZoo
                           {| rx := 6; ry := 6; rw := 2; rh := 2 |} None Hint))).
    exists {| id := "restaurant-1"; gridX := Num 5; gridY := Num 5;
              width := Num 3; height := Num 2; animal := None |},
           {| rx := 5; ry := 5; rw := 3; rh := 2 |}.
    split; [evaluate (stored sampleZoo); left; reflexivity|].
    split; [discriminate|]. split; [repeat split|]. unfold overlaps_spec. simpl. lia.
  - apply not_true_is_false. intros Hq.
    apply (proj2 (proj2 (checkOverlap_meets_spec sampleZoo
                           {| rx := 6; ry := 6; rw := 2; rh := 2 |}
                           (Some "restaurant-1") Hint))) in Hq.
    destruct Hq as (o & b & Hin & Hex & (Hx & Hy & Hw & Hh) & Hov).
    revert Hin. evaluate (stored sampleZoo). intros [<-|[<-|[<-|[]]]].
    + apply Hex. reflexivity.
    + simpl in Hx, Hy, Hw, Hh. unfold overlaps_spec in Hov. simpl in Hov.
      injection Hx as Hx. injection Hy as Hy. injection Hw as Hw. injection Hh as Hh. lia.
    + simpl in Hx, Hy, Hw, Hh. unfold overlaps_spec in Hov. simpl in Hov.
      injection Hx as Hx. injection Hy as Hy. injection Hw as Hw. injection Hh as Hh. lia.
Defined.

(* --------------------------------------------------------------------- *)
(** ** Loading a URL checks nothing                                       *)
(* --------------------------------------------------------------------- *)

(** C2. The no-overlap invariant does not survive loading: the URL
    [?z=000000] yields two gift shops on the same cells. *)
Theorem load_breaks_noOverlap :
  map (fun o => (id o, geometryOf o)) (stored loadedOverlapping)
  = [ ("giftshop-1", {| g_gridX := Num 0; g_gridY := Num 0;
                        g_width := Num 2; g_height := Num 2 |});
      ("giftshop-2", {| g_gridX := Num 0; g_gridY := Num 0;
                        g_width := Num 2; g_height := Num 2 |}) ] /\
  ~ noOverlap loadedOverlapping.
Proof.
  split; [vm_compute; reflexivity|].
  intros H.
  assert (H0 : stored loadedOverlapping !! 0%nat
               = Some {| id := "giftshop-1"; gridX := Num 0; gridY := Num 0;
                         width := Num 2; height := Num 2; animal := None |})
    by (vm_compute; reflexivity).
  assert (H1 : stored loadedOverlapping !! 1%nat
               = Some {| id := "giftshop-2"; gridX := Num 0; gridY := Num 0;
                         width := Num 2; height := Num 2; animal := None |})
    by (vm_compute; reflexivity).
  specialize (H 0%nat 1%nat _ _ (O_S 0) H0 H1). vm_compute in H. discriminate H.
Qed.

(** C5. Neither does uniqueness: the URL [?z=000055..0aa110kk11] yields
    two gift shops and two enclosures for the lion, none overlapping. *)
Theorem load_breaks_uniqueness :
  map id (buildingsOf loadedTwice) = ["giftshop-1"; "giftshop-2"] /\
  map animal (enclosuresOf loadedTwice) = [Some "lion"; Some "lion"] /\
  ~ uniqueBuildings loadedTwice /\
  ~ uniqueOccupants loadedTwice.
Proof.
  split; [vm_compute; reflexivity|]. split; [vm_compute; reflexivity|]. split.
  - intros H.
    assert (H0 : buildingsOf loadedTwice !! 0%nat
                 = Some {| id := "giftshop-1"; gridX := Num 0; gridY := Num 0;
                           width := Num 2; height := Num 2; animal := None |})
      by (vm_compute; reflexivity).
    assert (H1 : buildingsOf loadedTwice !! 1%nat
                 = Some {| id := "giftshop-2"; gridX := Num 5; gridY := Num 5;
                           width := Num 2; height := Num 2; animal := None |})
      by (vm_compute; reflexivity).
    specialize (H 0%nat 1%nat _ _ (O_S 0) H0 H1 eq_refl). vm_compute in H. discriminate H.
  - intros H.
    assert (H0 : enclosuresOf loadedTwice !! 0%nat
                 = Some {| id := "enclosure-1"; gridX := Num 10; gridY := Num 10;
                           width := Num 1; height := Num 1; animal := Some "lion" |})
      by (vm_compute; reflexivity).
    assert (H1 : enclosuresOf loadedTwice !! 1%nat
                 = Some {| id := "enclosure-2"; gridX := Num 20; gridY := Num 20;
                           width := Num 1; height := Num 1; animal := Some "lion" |})
      by (vm_compute; reflexivity).
    exact (H 0%nat 1%nat _ _ (O_S 0) H0 H1 eq_refl).
Qed.

(* ===================================================================== *)
(** * Part III: further properties of the code                            *)
(* ===================================================================== *)

(* --------------------------------------------------------------------- *)
(** ** What the encoder writes                                            *)
(* --------------------------------------------------------------------- *)

Lemma digitChar_not_dot (n : Z) : digitChar (n mod 36) <> "."%char.
Proof.
  assert (H : 0 <= n mod 36 < 36) by (apply Z.mod_pos_bound; lia).
  generalize dependent (n mod 36). intros d Hd.
  replace d with (Z.of_nat (Z.to_nat d)) by lia.
  assert (Hn : (Z.to_nat d < 36)%nat) by lia.
  generalize dependent (Z.to_nat d). clear. intros k Hk.
  do 36 (destruct k as [|k]; [vm_compute; discriminate|]). lia.
Qed.

Lemma digits36_noDot (fuel : nat) :
  forall (n : Z) (acc : string), noDot acc -> noDot (digits36 fuel n acc).
Proof.
  induction fuel as [|fuel IH]; intros n acc Hacc; [exact Hacc|].
  simpl. assert (H : noDot (String (digitChar (n mod 36)) acc)).
  { split; [apply digitChar_not_dot|exact Hacc]. }
  destruct (n / 36 =? 0); [exact H|apply IH; exact H].
Qed.

(** Whatever the number, [toBase36] writes no dot. *)
Lemma toBase36_noDot (v : jsnum) : noDot (toBase36 v).
Proof.
  destruct v as [z|]; [|repeat split; discriminate].
  unfold toBase36, toString36. destruct (z <? 0).
  - split; [discriminate|]. apply digits36_noDot. exact I.
  - apply digits36_noDot. exact I.
Qed.

Lemma digits36_length (fuel : nat) :
  forall (n : Z) (acc : string),
    (String.length acc + 1 <= String.length (digits36 (S fuel) n acc))%nat.
Proof.
  induction fuel as [|fuel IH]; intros n acc.
  - simpl. destruct (n / 36 =? 0); simpl; lia.
  - change (digits36 (S (S fuel)) n acc)
      with (if n / 36 =? 0 then String (digitChar (n mod 36)) acc
            else digits36 (S fuel) (n / 36) (String (digitChar (n mod 36)) acc)).
    destruct (n / 36 =? 0); [simpl; lia|].
    specialize (IH (n / 36) (String (digitChar (n mod 36)) acc)). simpl in *. lia.
Qed.

Lemma toBase36_nonempty (v : jsnum) : (1 <= String.length (toBase36 v))%nat.
Proof.
  destruct v as [z|]; [|simpl; lia].
  unfold toBase36, toString36. destruct (z <? 0).
  - simpl. lia.
  - pose proof (digits36_length (Z.to_nat (Z.log2 z)) z ""). simpl in *. lia.
Qed.

(** A number is written as exactly one character when, and only
    when, it is an integer from 0 to 35: larger, negative and [NaN] values
    take more room than the record format gives them. *)
Theorem toBase36_one_character (v : jsnum) :
  String.length (toBase36 v) = 1%nat <-> base36Digit v.
Proof.
  split.
  - destruct v as [z|]; [|simpl; discriminate].
    unfold toBase36, toString36, base36Digit.
    destruct (Z.ltb_spec z 0) as [Hneg|Hpos].
    + pose proof (digits36_length (Z.to_nat (Z.log2 (- z))) (- z) "").
      simpl String.length in *. lia.
    + destruct (Z.ltb_spec z 36) as [Hlt|Hge]; [lia|].
      assert (Hlog : 5 <= Z.log2 z) by (apply Z.log2_le_pow2; simpl; lia).
      destruct (Z.to_nat (Z.log2 z)) as [|fuel] eqn:Ef; [lia|].
      change (digits36 (S (S fuel)) z "")
        with (if z / 36 =? 0 then String (digitChar (z mod 36)) ""
              else digits36 (S fuel) (z / 36) (String (digitChar (z mod 36)) "")).
      assert (Hq : z / 36 <> 0).
      { intros Hq. apply Z.div_small_iff in Hq; lia. }
      apply Z.eqb_neq in Hq. rewrite Hq.
      pose proof (digits36_length fuel (z / 36) (String (digitChar (z mod 36)) "")).
      simpl String.length in *. lia.
  - intros H. destruct (digit_roundtrip v H) as (c & -> & _). reflexivity.
Qed.

Lemma encodeItem_shape (catalog : list itemDef) (b : entity) :
  noDot (encodeItem catalog b) /\ (1 <= String.length (encodeItem catalog b))%nat.
Proof.
  unfold encodeItem. split.
  - repeat apply noDot_app; apply toBase36_noDot.
  - rewrite length_app_str. pose proof (toBase36_nonempty (typeIndexOf catalog b)). lia.
Qed.

Lemma encodeEnclosure_shape (animals : list animalDef) (e : entity) :
  noDot (encodeEnclosure animals e) /\ (1 <= String.length (encodeEnclosure animals e))%nat.
Proof.
  unfold encodeEnclosure. split.
  - repeat apply noDot_app; apply toBase36_noDot.
  - rewrite length_app_str. pose proof (toBase36_nonempty (animalIndexOf animals e)). lia.
Qed.

Lemma join_shape {A : Type} (f : A -> string) (l : list A) :
  (forall a, noDot (f a) /\ (1 <= String.length (f a))%nat) ->
  noDot (join (map f l)) /\ (join (map f l) = "" <-> l = []).
Proof.
  intros Hf. induction l as [|a l [IHdot IHempty]].
  - split; [exact I|]. split; reflexivity.
  - cbn [map]. rewrite join_cons. destruct (Hf a) as [Hdot Hlen]. split.
    + apply noDot_app; assumption.
    + split; [|discriminate]. intros H.
      assert (Hl : String.length (f a +:+ join (map f l)) = 0%nat) by (rewrite H; reflexivity).
      rewrite length_app_str in Hl. lia.
Qed.

Lemma sections_shape (C : catalogs) (s : state) :
  (noDot (buildingStr C s) /\ (buildingStr C s = "" <-> placedBuildings s = [])) /\
  (noDot (decorationStr C s) /\ (decorationStr C s = "" <-> placedDecorations s = [])) /\
  (noDot (enclosureStr C s) /\ (enclosureStr C s = "" <-> enclosures s = [])).
Proof.
  unfold buildingStr, decorationStr, enclosureStr, buildingsOf, decorationsOf, enclosuresOf.
  assert (Hmap : forall l : list nat, map (deref s) l = [] <-> l = []).
  { intros [|? ?]; split; (reflexivity || discriminate). }
  split; [|split].
  - destruct (join_shape (encodeItem (BUILDINGS C)) (map (deref s) (placedBuildings s))
                (encodeItem_shape _)) as [H1 H2].
    split; [exact H1|]. rewrite H2. apply Hmap.
  - destruct (join_shape (encodeItem (DECORATIONS C)) (map (deref s) (placedDecorations s))
                (encodeItem_shape _)) as [H1 H2].
    split; [exact H1|]. rewrite H2. apply Hmap.
  - destruct (join_shape (encodeEnclosure (ANIMALS C)) (map (deref s) (enclosures s))
                (encodeEnclosure_shape _)) as [H1 H2].
    split; [exact H1|]. rewrite H2. apply Hmap.
Qed.

Lemma strip_never_ends_with_dot (str : string) : endsWithDot (stripTrailingDots str) = false.
Proof.
  induction str as [|c rest IH]; [reflexivity|].
  simpl. destruct (Ascii.eqb_spec c "."%char) as [->|Hc];
    destruct (stripTrailingDots rest) as [|c' rest'] eqn:E; simpl.
  - reflexivity.
  - exact IH.
  - apply Ascii.eqb_neq. exact Hc.
  - exact IH.
Qed.

(** The encoded state of an arbitrary store: the sections the decoder
    finds are the three strings of the encoder. *)
Lemma sections_of_encodeZooState (C : catalogs) (s : state) :
  let parts := split "." (encodeZooState C s) in
  part parts 0 = buildingStr C s /\ part parts 1 = decorationStr C s /\
  part parts 2 = enclosureStr C s.
Proof.
  destruct (sections_shape C s) as ((Hb & _) & (Hd & _) & (He & _)).
  exact (sections_of_encoding _ _ _ Hb Hd He).
Qed.

Lemma encodeZooState_empty (C : catalogs) (s : state) :
  encodeZooState C s = "" <->
  placedBuildings s = [] /\ placedDecorations s = [] /\ enclosures s = [].
Proof.
  destruct (sections_shape C s) as ((Hb & Eb) & (Hd & Ed) & (He & Ee)).
  rewrite <- Eb, <- Ed, <- Ee. split.
  - intros H. pose proof (sections_of_encodeZooState C s) as Hs. cbv zeta in Hs.
    rewrite H in Hs. destruct Hs as (H0 & H1 & H2).
    split; [|split]; symmetry; assumption.
  - intros (H0 & H1 & H2). unfold encodeZooState. rewrite H0, H1, H2. reflexivity.
Qed.

(** The encoded state never ends with a dot, and it is empty exactly
    when nothing is placed. *)
Theorem encodeZooState_shape (C : catalogs) (s : state) :
  endsWithDot (encodeZooState C s) = false /\
  (encodeZooState C s = "" <->
   placedBuildings s = [] /\ placedDecorations s = [] /\ enclosures s = []).
Proof.
  split; [apply strip_never_ends_with_dot|apply encodeZooState_empty].
Qed.

(** [updateURL] leaves the [z] parameter out exactly when nothing is
    placed, and otherwise sets it to the encoded state; the tests against
    ["."] and [".."] never decide. *)
Theorem updateURL_parameter (C : catalogs) (s : state) :
  (urlZ (updateURL C s) = None <->
   placedBuildings s = [] /\ placedDecorations s = [] /\ enclosures s = []) /\
  (urlZ (updateURL C s) <> None -> urlZ (updateURL C s) = Some (encodeZooState C s)) /\
  sameStore s (updateURL C s).
Proof.
  destruct (encodeZooState_shape C s) as [Hend Hempty].
  assert (Hurl : urlZ (updateURL C s)
                 = if truthy (encodeZooState C s) then Some (encodeZooState C s) else None).
  { unfold updateURL.
    destruct (String.eqb_spec (encodeZooState C s) ".") as [E|_];
      [rewrite E in Hend; discriminate Hend|].
    destruct (String.eqb_spec (encodeZooState C s) "..") as [E|_];
      [rewrite E in Hend; discriminate Hend|].
    destruct (truthy (encodeZooState C s)); reflexivity. }
  rewrite Hurl, <- Hempty. unfold truthy.
  destruct (String.eqb_spec (encodeZooState C s) "") as [E|N]; simpl.
  - split; [tauto|]. split; [congruence|apply sameStore_updateURL].
  - split; [split; [discriminate|contradiction]|].
    split; [reflexivity|apply sameStore_updateURL].
Qed.

(* --------------------------------------------------------------------- *)
(** ** What the decoder reads                                             *)
(* --------------------------------------------------------------------- *)

Lemma chunks3_length (n : nat) :
  forall str, (String.length str <= n)%nat ->
              length (chunks3 str) = (String.length str / 3)%nat.
Proof.
  induction n as [|n IH]; intros str Hn.
  - destruct str; [reflexivity|simpl in Hn; lia].
  - destruct str as [|a [|b [|c rest]]]; try reflexivity.
    cbn [chunks3 length String.length] in *.
    rewrite IH by lia.
    change (S (S (S (String.length rest)))) with (1 * 3 + String.length rest)%nat.
    rewrite Nat.div_add_l by lia. reflexivity.
Qed.

Lemma chunks5_length (n : nat) :
  forall str, (String.length str <= n)%nat ->
              length (chunks5 str) = (String.length str / 5)%nat.
Proof.
  induction n as [|n IH]; intros str Hn.
  - destruct str; [reflexivity|simpl in Hn; lia].
  - destruct str as [|a [|b [|c [|d [|e rest]]]]]; try reflexivity.
    cbn [chunks5 length String.length] in *.
    rewrite IH by lia.
    change (S (S (S (S (S (String.length rest)))))) with (1 * 5 + String.length rest)%nat.
    rewrite Nat.div_add_l by lia. reflexivity.
Qed.

Lemma chunks3_app (p r : string) (n : nat) :
  String.length p = (3 * n)%nat -> chunks3 (p +:+ r) = chunks3 p ++ chunks3 r.
Proof.
  revert p. induction n as [|n IH]; intros p Hp.
  - destruct p; [reflexivity|simpl in Hp; lia].
  - destruct p as [|a [|b [|c p]]]; simpl in Hp; try lia.
    rewrite !app_cons. cbn [chunks3]. rewrite IH by lia. reflexivity.
Qed.

Lemma chunks5_app (p r : string) (n : nat) :
  String.length p = (5 * n)%nat -> chunks5 (p +:+ r) = chunks5 p ++ chunks5 r.
Proof.
  revert p. induction n as [|n IH]; intros p Hp.
  - destruct p; [reflexivity|simpl in Hp; lia].
  - destruct p as [|a [|b [|c [|d [|e p]]]]]; simpl in Hp; try lia.
    rewrite !app_cons. cbn [chunks5]. rewrite IH by lia. reflexivity.
Qed.

Lemma chunks3_short (t : string) : (String.length t < 3)%nat -> chunks3 t = [].
Proof. destruct t as [|a [|b [|c t]]]; simpl; intros; (reflexivity || lia). Qed.

Lemma chunks5_short (t : string) : (String.length t < 5)%nat -> chunks5 t = [].
Proof. destruct t as [|a [|b [|c [|d [|e t]]]]]; simpl; intros; (reflexivity || lia). Qed.

(** Sections of a string of three dot-free sections, with or without
    further sections behind. *)
Lemma split_three (b d e : string) :
  noDot b -> noDot d -> noDot e ->
  split "." (b +:+ "." +:+ d +:+ "." +:+ e) = [b; d; e].
Proof.
  intros Hb Hd He.
  change (b +:+ "." +:+ d +:+ "." +:+ e) with (b +:+ String "." (d +:+ String "." e)).
  rewrite (split_app_dot b _ Hb), (split_app_dot d _ Hd), (split_noDot e He). reflexivity.
Qed.

Lemma split_more (b d e rest : string) :
  noDot b -> noDot d -> noDot e ->
  split "." (b +:+ "." +:+ d +:+ "." +:+ e +:+ "." +:+ rest) = b :: d :: e :: split "." rest.
Proof.
  intros Hb Hd He.
  change (b +:+ "." +:+ d +:+ "." +:+ e +:+ "." +:+ rest)
    with (b +:+ String "." (d +:+ String "." (e +:+ String "." rest))).
  rewrite (split_app_dot b _ Hb), (split_app_dot d _ Hd), (split_app_dot e _ He).
  reflexivity.
Qed.

(** The decoder drops a trailing partial record without failing: a
    section of [n] characters gives [n / 3] building or decoration records
    and [n / 5] enclosure records, and up to two (four) characters added
    behind complete records of a section change nothing. *)
Theorem decode_partial_records (b d e : string) :
  noDot b -> noDot d -> noDot e ->
  decodeZooState (Some (b +:+ "." +:+ d +:+ "." +:+ e))
  = Some {| d_buildings := chunks3 b; d_decorations := chunks3 d;
            d_enclosures := chunks5 e |} /\
  length (chunks3 b) = (String.length b / 3)%nat /\
  length (chunks3 d) = (String.length d / 3)%nat /\
  length (chunks5 e) = (String.length e / 5)%nat /\
  (forall (tb td te : string) (nb nd ne : nat),
      noDot tb -> noDot td -> noDot te ->
      String.length b = (3 * nb)%nat -> (String.length tb < 3)%nat ->
      String.length d = (3 * nd)%nat -> (String.length td < 3)%nat ->
      String.length e = (5 * ne)%nat -> (String.length te < 5)%nat ->
      decodeZooState (Some ((b +:+ tb) +:+ "." +:+ (d +:+ td) +:+ "." +:+ (e +:+ te)))
      = decodeZooState (Some (b +:+ "." +:+ d +:+ "." +:+ e))).
Proof.
  intros Hb Hd He.
  assert (Hdec : forall b' d' e', noDot b' -> noDot d' -> noDot e' ->
            decodeZooState (Some (b' +:+ "." +:+ d' +:+ "." +:+ e'))
            = Some {| d_buildings := chunks3 b'; d_decorations := chunks3 d';
                      d_enclosures := chunks5 e' |}).
  { intros b' d' e' Hb' Hd' He'.
    rewrite decodeZooState_sections, (split_three b' d' e' Hb' Hd' He'). reflexivity. }
  split; [apply Hdec; assumption|].
  split; [apply (chunks3_length (String.length b)); lia|].
  split; [apply (chunks3_length (String.length d)); lia|].
  split; [apply (chunks5_length (String.length e)); lia|].
  intros tb td te nb nd ne Htb Htd Hte Lb Ltb Ld Ltd Le Lte.
  rewrite (Hdec b d e Hb Hd He).
  rewrite (Hdec (b +:+ tb) (d +:+ td) (e +:+ te)) by (apply noDot_app; assumption).
  rewrite (chunks3_app b tb nb Lb), (chunks3_app d td nd Ld), (chunks5_app e te ne Le).
  rewrite (chunks3_short tb Ltb), (chunks3_short td Ltd), (chunks5_short te Lte).
  rewrite !app_nil_r. reflexivity.
Qed.

Lemma decode_partial_records_witness :
  decodeZooState (Some "1aa2b.2bbc.0003b01") = decodeZooState (Some "1aa.2bb.0003b").
Proof.
  assert (Hb : noDot "1aa") by (repeat split; discriminate).
  assert (Hd : noDot "2bb") by (repeat split; discriminate).
  assert (He : noDot "0003b") by (repeat split; discriminate).
  refine (proj2 (proj2 (proj2 (proj2 (decode_partial_records "1aa" "2bb" "0003b" Hb Hd He))))
            "2b" "c" "01" 1%nat 1%nat 1%nat _ _ _ eq_refl _ eq_refl _ eq_refl _);
    first [repeat split; discriminate | simpl; lia].
Defined.

(** The decoder accepts one, two or three sections, a missing section
    being empty, and ignores whatever follows a third dot. *)
Theorem decode_section_count (b d e rest : string) :
  noDot b -> noDot d -> noDot e ->
  decodeZooState (Some b)
  = Some {| d_buildings := chunks3 b; d_decorations := []; d_enclosures := [] |} /\
  decodeZooState (Some (b +:+ "." +:+ d))
  = Some {| d_buildings := chunks3 b; d_decorations := chunks3 d; d_enclosures := [] |} /\
  decodeZooState (Some (b +:+ "." +:+ d +:+ "." +:+ e +:+ "." +:+ rest))
  = decodeZooState (Some (b +:+ "." +:+ d +:+ "." +:+ e)).
Proof.
  intros Hb Hd He. rewrite !decodeZooState_sections. split; [|split].
  - rewrite (split_noDot b Hb). reflexivity.
  - change (b +:+ "." +:+ d) with (b +:+ String "." d).
    rewrite (split_app_dot b _ Hb), (split_noDot d Hd). reflexivity.
  - rewrite (split_more b d e rest Hb Hd He), (split_three b d e Hb Hd He). reflexivity.
Qed.

Lemma decode_section_count_witness :
  decodeZooState (Some "1aa.2bb.0003b.zzz") = decodeZooState (Some "1aa.2bb.0003b").
Proof.
  apply (decode_section_count "1aa" "2bb" "0003b" "zzz"); repeat split; discriminate.
Defined.

(** For every store, decoding the encoded state succeeds and reads back
    the three strings of the encoder, whatever values they hold. *)
Theorem decode_encode_sections (C : catalogs) (s : state) :
  decodeZooState (Some (encodeZooState C s))
  = Some {| d_buildings := chunks3 (buildingStr C s);
            d_decorations := chunks3 (decorationStr C s);
            d_enclosures := chunks5 (enclosureStr C s) |}.
Proof.
  rewrite decodeZooState_sections.
  destruct (sections_of_encodeZooState C s) as (-> & -> & ->). reflexivity.
Qed.

(* --------------------------------------------------------------------- *)
(** ** More on the overlap query                                          *)
(* --------------------------------------------------------------------- *)

Lemma hit_sym (a b : entity) : hit a b = hit b a.
Proof.
  unfold hit, rectHits, jge.
  generalize (jle (jadd (gridX a) (width a)) (gridX b)).
  generalize (jle (jadd (gridX b) (width b)) (gridX a)).
  generalize (jle (jadd (gridY a) (height a)) (gridY b)).
  generalize (jle (jadd (gridY b) (height b)) (gridY a)).
  intros [] [] [] []; reflexivity.
Qed.

(** The test of [checkOverlap] is symmetric in the two rectangles,
    [NaN] included. *)
Theorem rectHits_symmetric (a b : entity) :
  rectHits (gridX a) (gridY a) (width a) (height a) b
  = rectHits (gridX b) (gridY b) (width b) (height b) a.
Proof. exact (hit_sym a b). Qed.

Lemma rectHits_nan (gX gY w h : jsnum) (o : entity) :
  gridX o = NaN -> gridY o = NaN -> rectHits gX gY w h o = true.
Proof.
  intros Hx Hy. unfold rectHits, jge. rewrite Hx, Hy.
  destruct gX, gY, w, h; reflexivity.
Qed.

(** A stored object whose coordinates are [NaN] (as a corrupt URL
    produces) is reported as overlapping every rectangle, so that no drop
    and no drawn enclosure is accepted any more. *)
Theorem nan_object_blocks_insertion (C : catalogs) (s : state) (o : entity) :
  In o (stored s) -> gridX o = NaN -> gridY o = NaN ->
  (forall gX gY w h, checkOverlap s gX gY w h None = true) /\
  (forall itemId e, handleGridDrop C itemId e s = s) /\
  (forall e d, resizingEnclosure s = None -> movingItem s = None ->
               drawing s = Some d ->
               handleGridMouseUp C e s = set_drawing None s).
Proof.
  intros Hin Hx Hy.
  assert (Hall : forall gX gY w h, checkOverlap s gX gY w h None = true).
  { intros. apply checkOverlap_true_iff. exists o.
    split; [exact Hin|]. split; [reflexivity|]. apply rectHits_nan; assumption. }
  split; [exact Hall|]. split.
  - intros itemId e. unfold handleGridDrop.
    destruct (negb (truthy itemId)); [reflexivity|].
    destruct (find _ (BUILDINGS C)) as [item|].
    + cbv zeta. destruct (negb false && _); [reflexivity|].
      rewrite Hall, andb_false_r. reflexivity.
    + destruct (find _ (DECORATIONS C)) as [item|]; [|reflexivity].
      cbv zeta. destruct (negb true && _); [reflexivity|].
      rewrite Hall, andb_false_r. reflexivity.
  - intros e d Hrz Hm Hd. unfold handleGridMouseUp. rewrite Hrz, Hm, Hd.
    cbv zeta. rewrite Hall, andb_false_r. reflexivity.
Qed.

Lemma nan_object_blocks_insertion_witness :
  map (fun o => (id o, gridX o, gridY o)) (stored loadedCorrupt) = [("giftshop-1", NaN, NaN)] /\
  handleGridDrop sampleCatalogs "restaurant" (pointerAt 405 405) loadedCorrupt
  = loadedCorrupt.
Proof.
  split; [vm_compute; reflexivity|].
  refine (proj1 (proj2 (nan_object_blocks_insertion sampleCatalogs loadedCorrupt
            {| id := "giftshop-1"; gridX := NaN; gridY := NaN;
               width := Num 2; height := Num 2; animal := None |} _ eq_refl eq_refl)) _ _).
  evaluate (stored loadedCorrupt). left. reflexivity.
Defined.

(* --------------------------------------------------------------------- *)
(** ** Geometry of the gestures                                           *)
(* --------------------------------------------------------------------- *)

Lemma getGridPoint_range (e : mouseEvent) :
  0 <= fst (getGridPoint e) <= 29 /\ 0 <= snd (getGridPoint e) <= 29.
Proof. unfold getGridPoint, clampZ, GRID_SIZE. simpl. lia. Qed.

Lemma resizeCandidate_fits (edge : edgeT) (enc : entity) (point : Z * Z) :
  integral enc ->
  exists x y w h,
    resizeCandidate edge enc point
    = {| g_gridX := Num x; g_gridY := Num y; g_width := Num w; g_height := Num h |} /\
    0 <= x /\ 0 <= y /\ 1 <= w /\ 1 <= h /\ x + w <= GRID_SIZE /\ y + h <= GRID_SIZE /\
    fitsInGrid (Num x) (Num y) (Num w) (Num h) = true.
Proof.
  destruct enc as [i [x|] [y|] [w|] [h|] an]; unfold integral; simpl; try tauto. intros _.
  assert (H : exists a b c d,
             resizeCandidate edge
               {| id := i; gridX := Num x; gridY := Num y; width := Num w;
                  height := Num h; animal := an |} point
             = {| g_gridX := Num (Z.max 0 (Z.min a 29));
                  g_gridY := Num (Z.max 0 (Z.min b 29));
                  g_width := Num (Z.max 1 (Z.min c (30 - Z.max 0 (Z.min a 29))));
                  g_height := Num (Z.max 1 (Z.min d (30 - Z.max 0 (Z.min b 29)))) |}).
  { destruct edge as [[] [] [] []]; unfold resizeCandidate, GRID_SIZE; simpl;
      do 4 eexists; reflexivity. }
  destruct H as (a & b & c & d & ->).
  do 4 eexists. split; [reflexivity|].
  unfold fitsInGrid, jge, GRID_SIZE. simpl.
  rewrite !andb_true_iff, !Z.leb_le. lia.
Qed.

(** The candidate of a resize step always lies inside the grid and is at
    least one cell wide and high, wherever the pointer is and whichever
    edges are dragged. *)
Theorem resizeCandidate_in_grid (edge : edgeT) (enc : entity) (point : Z * Z) :
  integral enc ->
  exists x y w h,
    resizeCandidate edge enc point
    = {| g_gridX := Num x; g_gridY := Num y; g_width := Num w; g_height := Num h |} /\
    0 <= x /\ 0 <= y /\ 1 <= w /\ 1 <= h /\ x + w <= GRID_SIZE /\ y + h <= GRID_SIZE /\
    fitsInGrid (Num x) (Num y) (Num w) (Num h) = true.
Proof. apply resizeCandidate_fits. Qed.

Lemma resizeCandidate_in_grid_witness :
  exists x y w h,
    resizeCandidate {| edge_left := false; edge_right := true;
                       edge_top := false; edge_bottom := false |}
      (deref resizeStarted 1%nat) (29, 1)
    = {| g_gridX := Num x; g_gridY := Num y; g_width := Num w; g_height := Num h |} /\
    0 <= x /\ 0 <= y /\ 1 <= w /\ 1 <= h /\ x + w <= GRID_SIZE /\ y + h <= GRID_SIZE /\
    fitsInGrid (Num x) (Num y) (Num w) (Num h) = true.
Proof.
  apply resizeCandidate_in_grid. evaluate (deref resizeStarted 1%nat). repeat split.
Defined.

(** Dragging the left (top) edge alone keeps the right (bottom) edge where
    it is: for an enclosure inside the grid, the candidate starts at the
    pointer column, at most one cell before the right edge, and ends at
    the old right edge; the other axis is untouched. *)
Theorem resize_left_keeps_right (enc : entity) (point : Z * Z) (x y w h : Z) :
  occupies enc {| rx := x; ry := y; rw := w; rh := h |} ->
  0 <= x -> 0 <= y -> 1 <= w -> 1 <= h -> x + w <= GRID_SIZE -> y + h <= GRID_SIZE ->
  0 <= fst point <= 29 -> 0 <= snd point <= 29 ->
  resizeCandidate {| edge_left := true; edge_right := false;
                     edge_top := false; edge_bottom := false |} enc point
  = {| g_gridX := Num (Z.min (fst point) (x + w - 1)); g_gridY := Num y;
       g_width := Num (x + w - Z.min (fst point) (x + w - 1)); g_height := Num h |} /\
  resizeCandidate {| edge_left := false; edge_right := false;
                     edge_top := true; edge_bottom := false |} enc point
  = {| g_gridX := Num x; g_gridY := Num (Z.min (snd point) (y + h - 1));
       g_width := Num w; g_height := Num (y + h - Z.min (snd point) (y + h - 1)) |}.
Proof.
  intros (Hx & Hy & Hw & Hh). simpl in Hx, Hy, Hw, Hh. unfold GRID_SIZE.
  intros. unfold resizeCandidate, GRID_SIZE. rewrite Hx, Hy, Hw, Hh. simpl.
  split; f_equal; f_equal; lia.
Qed.

Lemma resize_left_keeps_right_witness :
  resizeCandidate {| edge_left := true; edge_right := false;
                     edge_top := false; edge_bottom := false |}
    {| id := "enclosure-1"; gridX := Num 2; gridY := Num 3; width := Num 4;
       height := Num 5; animal := Some "zebra" |} (0, 0)
  = {| g_gridX := Num 0; g_gridY := Num 3; g_width := Num 6; g_height := Num 5 |}.
Proof.
  refine (proj1 (resize_left_keeps_right _ (0, 0) 2 3 4 5 _ _ _ _ _ _ _ _ _));
    first [repeat split; fail | unfold GRID_SIZE; simpl; lia].
Defined.

(** Dragging the right (bottom) edge alone keeps the origin: the width
    becomes the distance from the left edge to the pointer column, both
    included, and never less than one cell. *)
Theorem resize_right_keeps_left (enc : entity) (point : Z * Z) (x y w h : Z) :
  occupies enc {| rx := x; ry := y; rw := w; rh := h |} ->
  0 <= x -> 0 <= y -> 1 <= w -> 1 <= h -> x + w <= GRID_SIZE -> y + h <= GRID_SIZE ->
  0 <= fst point <= 29 -> 0 <= snd point <= 29 ->
  resizeCandidate {| edge_left := false; edge_right := true;
                     edge_top := false; edge_bottom := false |} enc point
  = {| g_gridX := Num x; g_gridY := Num y;
       g_width := Num (Z.max 1 (fst point - x + 1)); g_height := Num h |} /\
  resizeCandidate {| edge_left := false; edge_right := false;
                     edge_top := false; edge_bottom := true |} enc point
  = {| g_gridX := Num x; g_gridY := Num y;
       g_width := Num w; g_height := Num (Z.max 1 (snd point - y + 1)) |}.
Proof.
  intros (Hx & Hy & Hw & Hh). simpl in Hx, Hy, Hw, Hh. unfold GRID_SIZE.
  intros. unfold resizeCandidate, GRID_SIZE. rewrite Hx, Hy, Hw, Hh. simpl.
  split; f_equal; f_equal; lia.
Qed.

Lemma resize_right_keeps_left_witness :
  resizeCandidate {| edge_left := false; edge_right := true;
                     edge_top := false; edge_bottom := false |}
    {| id := "enclosure-1"; gridX := Num 2; gridY := Num 3; width := Num 4;
       height := Num 5; animal := Some "zebra" |} (0, 0)
  = {| g_gridX := Num 2; g_gridY := Num 3; g_width := Num 1; g_height := Num 5 |}.
Proof.
  refine (proj1 (resize_right_keeps_left _ (0, 0) 2 3 4 5 _ _ _ _ _ _ _ _ _));
    first [repeat split; fail | unfold GRID_SIZE; simpl; lia].
Defined.

(* --------------------------------------------------------------------- *)
(** ** What the handlers keep                                             *)
(* --------------------------------------------------------------------- *)

Lemma frame_refl (s : state) : frame s s.
Proof. repeat split. Qed.

Lemma frame_trans (s1 s2 s3 : state) : frame s1 s2 -> frame s2 s3 -> frame s1 s3.
Proof.
  intros ((A1 & A2 & A3) & AL & AO & AS) ((B1 & B2 & B3) & BL & BO & BS).
  split; [repeat split; congruence|]. split; [congruence|]. split; [|congruence].
  intros l. destruct (AO l) as [? ?], (BO l) as [? ?]. split; congruence.
Qed.

Lemma frame_sameStore (s s' : state) :
  sameStore s s' -> selectedAnimal s' = selectedAnimal s -> frame s s'.
Proof.
  intros (H1 & H2) Hsel. split; [exact H2|]. split; [rewrite H1; reflexivity|].
  split; [|exact Hsel]. intros l. unfold deref. rewrite H1. split; reflexivity.
Qed.

Lemma frame_updateURL (C : catalogs) (s : state) : frame s (updateURL C s).
Proof.
  apply frame_sameStore; [apply sameStore_updateURL|].
  unfold updateURL. destruct (_ && _); reflexivity.
Qed.

Lemma deref_assign (l l' : nat) (f : entity -> entity) (s : state) :
  deref (assign l f s) l' = deref s l' \/ deref (assign l f s) l' = f (deref s l').
Proof.
  destruct (Nat.eq_dec l l') as [<-|Hne].
  - destruct (heap s !! l) as [o|] eqn:E.
    + right. apply deref_assign_same. eauto.
    + left. unfold deref, assign. change (heap (set_heap ?h s)) with h.
      rewrite list_lookup_alter_eq, E. reflexivity.
  - left. apply deref_assign_other. exact Hne.
Qed.

Lemma frame_assign (l : nat) (f : entity -> entity) (s : state) :
  geometryOnly f -> frame s (assign l f s).
Proof.
  intros Hf. split; [repeat split|]. split.
  - unfold assign. change (heap (set_heap ?h s)) with h. apply length_alter.
  - split; [|reflexivity]. intros l'.
    destruct (deref_assign l l' f s) as [-> | ->]; [split; reflexivity|apply Hf].
Qed.

Lemma geometryOnly_position (x y : jsnum) :
  geometryOnly (fun o => set_gridY y (set_gridX x o)).
Proof. intros o. split; reflexivity. Qed.

Lemma geometryOnly_setGeometry (g : geometry) : geometryOnly (setGeometry g).
Proof. intros o. split; reflexivity. Qed.

Lemma frame_usedAnimals (s s' : state) : frame s s' -> usedAnimals s' = usedAnimals s.
Proof.
  intros ((_ & _ & He) & _ & Ho & _).
  unfold usedAnimals, enclosuresOf. rewrite He, !map_map.
  apply map_ext. intros l. apply Ho.
Qed.

Lemma frame_ids (s s' : state) : frame s s' -> map id (stored s') = map id (stored s).
Proof.
  intros ((Hb & Hd & He) & _ & Ho & _).
  unfold stored, buildingsOf, decorationsOf, enclosuresOf.
  rewrite Hb, Hd, He, <- !map_app, !map_map.
  apply map_ext. intros l. apply Ho.
Qed.

Lemma frame_validRefs (s s' : state) : frame s s' -> validRefs s -> validRefs s'.
Proof.
  intros ((Hb & Hd & He) & Hl & _) Hv l. unfold refsOf.
  rewrite Hb, Hd, He, Hl. apply Hv.
Qed.

Lemma frame_selectionFree (s s' : state) : frame s s' -> selectionFree s -> selectionFree s'.
Proof.
  intros Hf. unfold selectionFree. rewrite (frame_usedAnimals s s' Hf).
  destruct Hf as (_ & _ & _ & ->). tauto.
Qed.

(** The pointer handlers that start or continue a gesture, and the
    release of a move or resize, only touch geometry. *)
Lemma frame_handleGridMouseDown (e : mouseEvent) (s : state) :
  frame s (handleGridMouseDown e s).
Proof.
  unfold handleGridMouseDown, startMove.
  destruct (detectEnclosureEdge _ _ _) as [[enc edge]|]; [repeat split|].
  destruct (overEnclosure e) as [i|].
  - destruct (findById _ _ _); repeat split.
  - destruct (overBuilding e) as [i|].
    + destruct (findById _ (placedBuildings s) _); [repeat split|].
      destruct (findById _ _ _); repeat split.
    + destruct (negb _); repeat split.
Qed.

Lemma frame_handleGridMouseMove (C : catalogs) (e : mouseEvent) (s : state) :
  frame s (handleGridMouseMove C e s).
Proof.
  unfold handleGridMouseMove.
  destruct (resizingEnclosure s) as [resize|].
  - cbv zeta. destruct (negb _); [|apply frame_refl].
    eapply frame_trans; [apply frame_assign, geometryOnly_setGeometry|apply frame_updateURL].
  - destruct (movingItem s) as [m|].
    + destruct (negb _); [apply frame_refl|]. apply frame_assign, geometryOnly_position.
    + destruct (drawing s); repeat split.
Qed.

Lemma frame_setters (s s' : state) (v1 : option (Z * Z)) (v2 : option movingItemT) :
  frame s s' -> frame s (set_moveStartPos v1 (set_movingItem v2 s')).
Proof. intros H. eapply frame_trans; [exact H|]. repeat split. Qed.

Lemma frame_release_gesture (C : catalogs) (e : mouseEvent) (s : state) :
  resizingEnclosure s <> None \/ movingItem s <> None ->
  frame s (handleGridMouseUp C e s).
Proof.
  intros Hg. unfold handleGridMouseUp.
  destruct (resizingEnclosure s) as [resize|].
  - destruct (barelyMoved e s); [|repeat split].
    eapply frame_trans; [apply (frame_assign (r_enclosure resize)),
                           (geometryOnly_setGeometry (originalData resize))|].
    repeat split.
  - destruct (movingItem s) as [m|]; [|destruct Hg; contradiction].
    destruct (barelyMoved e s).
    + eapply frame_trans; [apply (frame_assign (m_data m)),
                             (geometryOnly_position (originalX m) (originalY m))|].
      repeat split.
    + cbv zeta. apply frame_setters.
      destruct (_ || _); [|apply frame_updateURL].
      eapply frame_trans; [apply (frame_assign (m_data m)),
                             (geometryOnly_position (originalX m) (originalY m))|].
      apply frame_updateURL.
Qed.

Lemma lookup_map {A B : Type} (f : A -> B) (l : list A) (i : nat) :
  map f l !! i = option_map f (l !! i).
Proof.
  revert i. induction l as [|a l IH]; intros [|i]; simpl; try reflexivity. apply IH.
Qed.

Lemma uniqueOccupants_NoDup (s : state) : uniqueOccupants s <-> NoDup (usedAnimals s).
Proof.
  rewrite NoDup_alt. unfold uniqueOccupants, usedAnimals. split.
  - intros H i j x Hi Hj. rewrite lookup_map in Hi, Hj.
    destruct (enclosuresOf s !! i) as [e1|] eqn:E1; [|discriminate].
    destruct (enclosuresOf s !! j) as [e2|] eqn:E2; [|discriminate].
    destruct (Nat.eq_dec i j) as [|Hne]; [assumption|].
    exfalso. apply (H i j e1 e2 Hne E1 E2). simpl in Hi, Hj. congruence.
  - intros H i j e1 e2 Hne E1 E2 Heq. apply Hne.
    apply (H i j (animal e1)); rewrite lookup_map; [rewrite E1|rewrite E2];
      simpl; congruence.
Qed.

Lemma setHas_false_iff (used : list (option string)) (a : string) :
  setHas used (Some a) = false <-> ~ In (Some a) used.
Proof.
  simpl. rewrite <- not_true_iff_false, existsb_exists. split.
  - intros H Hin. apply H. exists (Some a). split; [exact Hin|apply String.eqb_refl].
  - intros H ([b|] & Hin & Hb); [|discriminate].
    apply String.eqb_eq in Hb. subst b. contradiction.
Qed.

Lemma deref_grow (s s' : state) (o : entity) (l : nat) :
  heap s' = heap s ++ [o] -> (l < length (heap s))%nat -> deref s' l = deref s l.
Proof. intros H Hl. unfold deref. rewrite H, lookup_app_l by exact Hl. reflexivity. Qed.

Lemma deref_new (s s' : state) (o : entity) :
  heap s' = heap s ++ [o] -> deref s' (length (heap s)) = o.
Proof.
  intros H. unfold deref. rewrite H, list_lookup_middle by reflexivity. reflexivity.
Qed.

Lemma map_deref_grow (s s' : state) (o : entity) (refs : list nat) :
  heap s' = heap s ++ [o] ->
  (forall l, In l refs -> (l < length (heap s))%nat) ->
  map (deref s') refs = map (deref s) refs.
Proof.
  intros H Hv. apply map_ext_in. intros l Hl. apply (deref_grow s s' o l H (Hv l Hl)).
Qed.

Lemma validRefs_parts (s : state) :
  validRefs s <->
  (forall l, In l (placedBuildings s) -> (l < length (heap s))%nat) /\
  (forall l, In l (placedDecorations s) -> (l < length (heap s))%nat) /\
  (forall l, In l (enclosures s) -> (l < length (heap s))%nat).
Proof.
  unfold validRefs, refsOf. split.
  - intros H. repeat split; intros l Hl; apply H; rewrite !in_app_iff; tauto.
  - intros (Hb & Hd & He) l Hl. rewrite !in_app_iff in Hl.
    destruct Hl as [Hl|[Hl|Hl]]; auto.
Qed.

(** What [addBuilding] and [addDecoration] do to the store. *)
Lemma addBuilding_store (C : catalogs) (def : itemDef) (gX gY : jsnum) (skip : bool)
    (s : state) :
  let s' := addBuilding C def gX gY skip s in
  heap s' = heap s ++ [ {| id := def_id def +:+ "-" +:+ decimal (nextBuildingId s);
                           gridX := gX; gridY := gY; width := def_width def;
                           height := def_height def; animal := None |} ] /\
  placedBuildings s' = placedBuildings s ++ [length (heap s)] /\
  placedDecorations s' = placedDecorations s /\
  enclosures s' = enclosures s /\
  selectedAnimal s' = selectedAnimal s.
Proof.
  unfold addBuilding, alloc. cbv zeta. destruct skip; [repeat split|].
  set (s1 := set_placedBuildings _ _).
  destruct (frame_updateURL C s1) as ((Hb & Hd & He) & _ & _ & Hs).
  destruct (sameStore_updateURL C s1) as (Hh & _).
  rewrite Hh, Hb, Hd, He, Hs. repeat split.
Qed.

Lemma addDecoration_store (C : catalogs) (def : itemDef) (gX gY : jsnum) (skip : bool)
    (s : state) :
  let s' := addDecoration C def gX gY skip s in
  heap s' = heap s ++ [ {| id := def_id def +:+ "-" +:+ decimal (nextDecorationId s);
                           gridX := gX; gridY := gY; width := def_width def;
                           height := def_height def; animal := None |} ] /\
  placedBuildings s' = placedBuildings s /\
  placedDecorations s' = placedDecorations s ++ [length (heap s)] /\
  enclosures s' = enclosures s /\
  selectedAnimal s' = selectedAnimal s.
Proof.
  unfold addDecoration, alloc. cbv zeta. destruct skip; [repeat split|].
  set (s1 := set_placedDecorations _ _).
  destruct (frame_updateURL C s1) as ((Hb & Hd & He) & _ & _ & Hs).
  destruct (sameStore_updateURL C s1) as (Hh & _).
  rewrite Hh, Hb, Hd, He, Hs. repeat split.
Qed.

(** A state whose heap grew by one object that joined the buildings or the
    decorations: references stay valid, the enclosures are untouched. *)
Lemma grown_item (s s' : state) (o : entity) :
  heap s' = heap s ++ [o] ->
  (placedBuildings s' = placedBuildings s ++ [length (heap s)] /\
   placedDecorations s' = placedDecorations s \/
   placedBuildings s' = placedBuildings s /\
   placedDecorations s' = placedDecorations s ++ [length (heap s)]) ->
  enclosures s' = enclosures s ->
  selectedAnimal s' = selectedAnimal s ->
  validRefs s ->
  validRefs s' /\ usedAnimals s' = usedAnimals s /\
  enclosuresOf s' = enclosuresOf s /\
  (selectionFree s -> selectionFree s').
Proof.
  intros Hh Hc He Hs Hv. apply validRefs_parts in Hv. destruct Hv as (Vb & Vd & Ve).
  assert (Henc : enclosuresOf s' = enclosuresOf s).
  { unfold enclosuresOf. rewrite He. apply (map_deref_grow s s' o _ Hh Ve). }
  assert (Hu : usedAnimals s' = usedAnimals s) by (unfold usedAnimals; rewrite Henc; reflexivity).
  split; [|split; [exact Hu|split; [exact Henc|]]].
  - apply validRefs_parts. rewrite Hh, length_app, He. simpl.
    destruct Hc as [[-> ->]|[-> ->]]; repeat split; intros l Hl;
      try (apply in_app_iff in Hl; destruct Hl as [Hl|[<-|[]]]; [|lia]);
      first [specialize (Vb l Hl) | specialize (Vd l Hl) | specialize (Ve l Hl)]; lia.
  - unfold selectionFree. rewrite Hu, Hs. tauto.
Qed.

(** [renderAnimalList] always leaves a selection that has no enclosure. *)
Lemma renderAnimalList_selectionFree (C : catalogs) (s : state) :
  selectionFree (renderAnimalList C s).
Proof.
  unfold selectionFree.
  assert (Hu : usedAnimals (renderAnimalList C s) = usedAnimals s).
  { unfold usedAnimals, enclosuresOf, deref.
    destruct (sameStore_renderAnimalList C s) as (-> & _ & _ & ->). reflexivity. }
  rewrite Hu. unfold renderAnimalList.
  set (s1 := match ANIMALS C with
             | [] => s
             | a :: _ => if negb (isSelected (selectedAnimal s))
                         then selectAnimal (animal_id a) s else s
             end).
  destruct (setHas (usedAnimals s) (selectedAnimal s1)) eqn:E1; [|exact E1].
  destruct (find _ (ANIMALS C)) as [fa|] eqn:Ef; [|reflexivity].
  apply find_some in Ef. destruct Ef as [_ Hfa]. apply negb_true_iff in Hfa.
  unfold selectAnimal.
  replace (usedAnimals s1) with (usedAnimals s).
  - rewrite Hfa. exact Hfa.
  - subst s1. destruct (ANIMALS C); [reflexivity|]. destruct (negb _); [|reflexivity].
    unfold usedAnimals, enclosuresOf, deref.
    destruct (sameStore_selectAnimal (animal_id a) s) as (-> & _ & _ & ->). reflexivity.
Qed.

Lemma selectAnimal_selectionFree (a : string) (s : state) :
  selectionFree s -> selectionFree (selectAnimal a s).
Proof.
  unfold selectionFree, selectAnimal. intros H.
  destruct (setHas (usedAnimals s) (Some a)) eqn:E; [exact H|exact E].
Qed.

Lemma sublist_In {A : Type} (l1 l2 : list A) (x : A) :
  sublist l1 l2 -> In x l1 -> In x l2.
Proof.
  induction 1 as [|y l1 l2 _ IH|y l1 l2 _ IH]; simpl; intros Hin; [exact Hin| |].
  - destruct Hin as [->|Hin]; [left; reflexivity|right; apply IH; exact Hin].
  - right. apply IH. exact Hin.
Qed.

Lemma sublist_map_filter {A B : Type} (f : A -> B) (p : A -> bool) (l : list A) :
  sublist (map f (List.filter p l)) (map f l).
Proof.
  induction l as [|a l IH]; simpl; [constructor|].
  destruct (p a); simpl; constructor; exact IH.
Qed.

Lemma sublist_map {A B : Type} (f : A -> B) (l1 l2 : list A) :
  sublist l1 l2 -> sublist (map f l1) (map f l2).
Proof. induction 1; simpl; constructor; assumption. Qed.

Lemma shrunk_validRefs (s s' : state) : shrunk s s' -> validRefs s -> validRefs s'.
Proof.
  intros (Hh & Hb & Hd & He) Hv. apply validRefs_parts in Hv. destruct Hv as (Vb & Vd & Ve).
  apply validRefs_parts. rewrite Hh.
  repeat split; intros l Hl; [apply Vb|apply Vd|apply Ve]; eapply sublist_In; eassumption.
Qed.

Lemma shrunk_usedAnimals (s s' : state) :
  shrunk s s' -> sublist (usedAnimals s') (usedAnimals s).
Proof.
  intros (Hh & _ & _ & He). unfold usedAnimals, enclosuresOf, deref. rewrite Hh.
  apply sublist_map, sublist_map. exact He.
Qed.

Lemma shrunk_stored (s s' : state) : shrunk s s' -> sublist (stored s') (stored s).
Proof.
  intros (Hh & Hb & Hd & He). unfold stored, buildingsOf, decorationsOf, enclosuresOf, deref.
  rewrite Hh. repeat apply sublist_app; apply sublist_map; assumption.
Qed.

Lemma setHas_sublist (l1 l2 : list (option string)) (v : option string) :
  sublist l1 l2 -> setHas l2 v = false -> setHas l1 v = false.
Proof.
  intros Hsub. destruct v as [a|]; [|reflexivity].
  rewrite !setHas_false_iff. intros H Hin. apply H. eapply sublist_In; eassumption.
Qed.

Lemma shrunk_keeps (s s' : state) :
  shrunk s s' -> selectedAnimal s' = selectedAnimal s ->
  validRefs s ->
  validRefs s' /\ (selectionFree s -> selectionFree s') /\
  (NoDup (usedAnimals s) -> NoDup (usedAnimals s')).
Proof.
  intros Hs Hsel Hv. split; [exact (shrunk_validRefs s s' Hs Hv)|].
  pose proof (shrunk_usedAnimals s s' Hs) as Hu. split.
  - unfold selectionFree. rewrite Hsel. apply setHas_sublist. exact Hu.
  - intros Hn. exact (sublist_NoDup _ _ Hn Hu).
Qed.

Lemma shrunk_trans_sameStore (s s1 s2 : state) :
  shrunk s s1 -> sameStore s1 s2 -> shrunk s s2.
Proof.
  intros (Hh & Hb & Hd & He) (H1 & H2 & H3 & H4).
  unfold shrunk. rewrite H1, H2, H3, H4. repeat split; assumption.
Qed.

Lemma shrunk_refl (s : state) : shrunk s s.
Proof. repeat split; reflexivity. Qed.

Lemma filterRefs_sublist (s : state) (keep : entity -> bool) (l : list nat) :
  sublist (filterRefs s keep l) l.
Proof.
  unfold filterRefs. induction l as [|a l IH]; simpl; [constructor|].
  destruct (keep (deref s a)); constructor; exact IH.
Qed.

Lemma selected_updateURL (C : catalogs) (s : state) :
  selectedAnimal (updateURL C s) = selectedAnimal s.
Proof. unfold updateURL. destruct (_ && _); reflexivity. Qed.

(** The deletions only remove references. *)
Lemma shrunk_deleteBuilding (C : catalogs) (i : string) (s : state) :
  shrunk s (deleteBuilding C i s) /\ selectedAnimal (deleteBuilding C i s) = selectedAnimal s.
Proof.
  unfold deleteBuilding. split; [|rewrite selected_updateURL; reflexivity].
  eapply shrunk_trans_sameStore; [|apply sameStore_updateURL].
  repeat split; try reflexivity. apply filterRefs_sublist.
Qed.

Lemma shrunk_deleteDecoration (C : catalogs) (i : string) (s : state) :
  shrunk s (deleteDecoration C i s) /\
  selectedAnimal (deleteDecoration C i s) = selectedAnimal s.
Proof.
  unfold deleteDecoration. split; [|rewrite selected_updateURL; reflexivity].
  eapply shrunk_trans_sameStore; [|apply sameStore_updateURL].
  repeat split; try reflexivity. apply filterRefs_sublist.
Qed.

Lemma shrunk_deleteEnclosure (C : catalogs) (i : string) (s : state) :
  shrunk s (deleteEnclosure C i s) /\ selectionFree (deleteEnclosure C i s).
Proof.
  unfold deleteEnclosure. split.
  - eapply shrunk_trans_sameStore; [|apply sameStore_updateURL].
    eapply shrunk_trans_sameStore; [|apply sameStore_renderAnimalList].
    repeat split; try reflexivity. apply filterRefs_sublist.
  - apply (frame_selectionFree _ _ (frame_updateURL C _)), renderAnimalList_selectionFree.
Qed.

Lemma shrunk_runAction (C : catalogs) (a : action) (s : state) :
  shrunk s (runAction C a s) /\
  (selectionFree s -> selectionFree (runAction C a s)).
Proof.
  destruct a as [i|i|i|]; cbn [runAction].
  - destruct (shrunk_deleteEnclosure C i s). tauto.
  - destruct (shrunk_deleteDecoration C i s) as [Hs Hsel]. split; [exact Hs|].
    unfold selectionFree. rewrite Hsel. apply setHas_sublist, shrunk_usedAnimals, Hs.
  - destruct (shrunk_deleteBuilding C i s) as [Hs Hsel]. split; [exact Hs|].
    unfold selectionFree. rewrite Hsel. apply setHas_sublist, shrunk_usedAnimals, Hs.
  - split.
    + eapply shrunk_trans_sameStore with (s2 := set_urlZ None _); [|repeat split].
      eapply shrunk_trans_sameStore; [|apply sameStore_renderAnimalList].
      repeat split; try reflexivity; apply sublist_nil_l.
    + intros _. eapply frame_selectionFree; [|apply renderAnimalList_selectionFree].
      repeat split.
Qed.

Lemma keeps_refl (s : state) : keeps s s.
Proof. intros Hv. tauto. Qed.

Lemma keeps_frame (s s' : state) : frame s s' -> keeps s s'.
Proof.
  intros Hf Hv. split; [exact (frame_validRefs s s' Hf Hv)|].
  split; [apply frame_selectionFree; exact Hf|].
  rewrite (frame_usedAnimals s s' Hf). tauto.
Qed.

Lemma keeps_shrunk (s s' : state) :
  shrunk s s' -> selectedAnimal s' = selectedAnimal s -> keeps s s'.
Proof. intros Hs Hsel Hv. exact (shrunk_keeps s s' Hs Hsel Hv). Qed.

Lemma keeps_addBuilding (C : catalogs) (def : itemDef) (gX gY : jsnum) (skip : bool)
    (s : state) :
  keeps s (addBuilding C def gX gY skip s).
Proof.
  intros Hv. destruct (addBuilding_store C def gX gY skip s) as (Hh & Hb & Hd & He & Hs).
  destruct (grown_item s _ _ Hh (or_introl (conj Hb Hd)) He Hs Hv) as (V & U & _ & F).
  split; [exact V|]. split; [exact F|]. rewrite U. tauto.
Qed.

Lemma keeps_addDecoration (C : catalogs) (def : itemDef) (gX gY : jsnum) (skip : bool)
    (s : state) :
  keeps s (addDecoration C def gX gY skip s).
Proof.
  intros Hv. destruct (addDecoration_store C def gX gY skip s) as (Hh & Hb & Hd & He & Hs).
  destruct (grown_item s _ _ Hh (or_intror (conj Hb Hd)) He Hs Hv) as (V & U & _ & F).
  split; [exact V|]. split; [exact F|]. rewrite U. tauto.
Qed.

(** A state whose heap grew by one object that joined the enclosures. *)
Lemma grown_enclosure (s s' : state) (o : entity) :
  heap s' = heap s ++ [o] ->
  placedBuildings s' = placedBuildings s ->
  placedDecorations s' = placedDecorations s ->
  enclosures s' = enclosures s ++ [length (heap s)] ->
  validRefs s ->
  validRefs s' /\ usedAnimals s' = usedAnimals s ++ [animal o] /\
  stored s' = stored s ++ [o].
Proof.
  intros Hh Hb Hd He Hv. apply validRefs_parts in Hv. destruct Hv as (Vb & Vd & Ve).
  assert (Henc : enclosuresOf s' = enclosuresOf s ++ [o]).
  { unfold enclosuresOf. rewrite He, map_app. cbn [map].
    rewrite (map_deref_grow s s' o _ Hh Ve), (deref_new s s' o Hh). reflexivity. }
  split; [|split].
  - apply validRefs_parts. rewrite Hh, length_app, Hb, Hd, He. simpl.
    repeat split; intros l Hl;
      try (apply in_app_iff in Hl; destruct Hl as [Hl|[<-|[]]]; [|lia]);
      first [specialize (Vb l Hl) | specialize (Vd l Hl) | specialize (Ve l Hl)]; lia.
  - unfold usedAnimals. rewrite Henc, map_app. reflexivity.
  - unfold stored. rewrite Henc. unfold buildingsOf, decorationsOf.
    rewrite Hb, Hd, (map_deref_grow s s' o _ Hh Vb), (map_deref_grow s s' o _ Hh Vd).
    rewrite <- !app_assoc. reflexivity.
Qed.

Lemma NoDup_snoc_fresh (used : list (option string)) (a : string) :
  setHas used (Some a) = false -> NoDup used -> NoDup (used ++ [Some a]).
Proof.
  intros Hfresh Hn. apply NoDup_app. split; [exact Hn|]. split.
  - intros x Hx Hin. apply list_elem_of_In in Hx, Hin.
    destruct Hin as [<-|[]]. apply setHas_false_iff in Hfresh. contradiction.
  - apply NoDup_singleton.
Qed.

(** [addEnclosure] either does nothing, or stores one enclosure for the
    selected animal, which had none. *)
Lemma addEnclosure_cases (C : catalogs) (gX gY w h : jsnum) (s : state) :
  addEnclosure C gX gY w h s = s \/
  exists a s1,
    selectedAnimal s = Some a /\ setHas (usedAnimals s) (Some a) = false /\
    heap s1 = heap s ++ [ {| id := "enclosure-" +:+ decimal (nextEnclosureId s);
                             gridX := gX; gridY := gY; width := w; height := h;
                             animal := Some a |} ] /\
    placedBuildings s1 = placedBuildings s /\
    placedDecorations s1 = placedDecorations s /\
    enclosures s1 = enclosures s ++ [length (heap s)] /\
    addEnclosure C gX gY w h s = updateURL C (renderAnimalList C s1).
Proof.
  unfold addEnclosure.
  destruct (negb (isSelected (selectedAnimal s))) eqn:Esel; [left; reflexivity|].
  destruct (setHas (usedAnimals s) (selectedAnimal s)) eqn:Eused; [left; reflexivity|].
  right. destruct (selectedAnimal s) as [a|] eqn:Ea; [|discriminate Esel].
  exists a. eexists. split; [reflexivity|]. split; [exact Eused|].
  unfold alloc. cbv zeta.
  split; [|split; [|split; [|split; [|reflexivity]]]]; simpl; try rewrite Ea; reflexivity.
Qed.

Lemma keeps_addEnclosure (C : catalogs) (gX gY w h : jsnum) (s : state) :
  keeps s (addEnclosure C gX gY w h s).
Proof.
  destruct (addEnclosure_cases C gX gY w h s)
    as [->|(a & s1 & Ea & Efresh & Hh & Hb & Hd & He & ->)]; [apply keeps_refl|].
  intros Hv.
  destruct (grown_enclosure s s1 _ Hh Hb Hd He Hv) as (V1 & U1 & _).
  assert (Hss : sameStore s1 (updateURL C (renderAnimalList C s1))).
  { eapply sameStore_trans; [apply sameStore_renderAnimalList|apply sameStore_updateURL]. }
  assert (Hu : usedAnimals (updateURL C (renderAnimalList C s1)) = usedAnimals s ++ [Some a]).
  { transitivity (usedAnimals s1); [|exact U1]. unfold usedAnimals, enclosuresOf, deref.
    destruct Hss as (-> & _ & _ & ->). reflexivity. }
  split; [|split].
  - destruct Hss as (H1 & H2 & H3 & H4). intros l. unfold refsOf.
    rewrite H1, H2, H3, H4. apply V1.
  - intros _. apply (frame_selectionFree _ _ (frame_updateURL C _)),
      renderAnimalList_selectionFree.
  - rewrite Hu. apply NoDup_snoc_fresh. exact Efresh.
Qed.

Lemma sameStore_validRefs (s s' : state) : sameStore s s' -> validRefs s -> validRefs s'.
Proof.
  intros (H1 & H2 & H3 & H4) Hv l. unfold refsOf. rewrite H1, H2, H3, H4. apply Hv.
Qed.

Lemma keeps_trans_frame (s s1 s2 : state) : keeps s s1 -> frame s1 s2 -> keeps s s2.
Proof.
  intros Hk Hf Hv. destruct (Hk Hv) as (V & F & N).
  destruct (keeps_frame s1 s2 Hf V) as (V' & F' & N'). tauto.
Qed.

Lemma keeps_handleGridDrop (C : catalogs) (itemId : string) (e : mouseEvent) (s : state) :
  keeps s (handleGridDrop C itemId e s).
Proof.
  unfold handleGridDrop. destruct (negb (truthy itemId)); [apply keeps_refl|].
  destruct (find _ (BUILDINGS C)) as [item|].
  - cbv zeta. destruct (negb false && _); [apply keeps_refl|].
    destruct (_ && _); [apply keeps_addBuilding|apply keeps_refl].
  - destruct (find _ (DECORATIONS C)) as [item|]; [|apply keeps_refl].
    cbv zeta. destruct (negb true && _); [apply keeps_refl|].
    destruct (_ && _); [apply keeps_addDecoration|apply keeps_refl].
Qed.

Lemma keeps_handleGridMouseUp (C : catalogs) (e : mouseEvent) (s : state) :
  keeps s (handleGridMouseUp C e s).
Proof.
  destruct (resizingEnclosure s) as [resize|] eqn:Er.
  { apply keeps_frame, frame_release_gesture. left. rewrite Er. discriminate. }
  destruct (movingItem s) as [m|] eqn:Em.
  { apply keeps_frame, frame_release_gesture. right. rewrite Em. discriminate. }
  unfold handleGridMouseUp. rewrite Er, Em.
  destruct (drawing s) as [d|]; [|apply keeps_refl]. cbv zeta.
  destruct (_ && _).
  - eapply keeps_trans_frame; [apply keeps_addEnclosure|repeat split].
  - apply keeps_frame. repeat split.
Qed.

Lemma keeps_handle (C : catalogs) (ev : event) (s : state) : keeps s (handle C ev s).
Proof.
  destruct ev as [itemId e|e|e|e|a|a|t| |t| |k|k]; cbn [handle].
  - apply keeps_handleGridDrop.
  - apply keeps_frame, frame_handleGridMouseDown.
  - apply keeps_frame, frame_handleGridMouseMove.
  - apply keeps_handleGridMouseUp.
  - intros Hv. split; [|split].
    + exact (sameStore_validRefs _ _ (sameStore_selectAnimal a s) Hv).
    + apply selectAnimal_selectionFree.
    + unfold usedAnimals, enclosuresOf, deref.
      destruct (sameStore_selectAnimal a s) as (-> & _ & _ & ->). tauto.
  - unfold deleteEnclosureByAnimal. destruct (find _ _) as [enc|]; [|apply keeps_refl].
    destruct (shrunk_deleteEnclosure C (id enc) s) as [Hs Hf]. intros Hv.
    split; [exact (shrunk_validRefs _ _ Hs Hv)|]. split; [intros _; exact Hf|].
    intros Hn. exact (sublist_NoDup _ _ Hn (shrunk_usedAnimals _ _ Hs)).
  - unfold deleteBuildingByType. destruct (find _ _) as [b|]; [|apply keeps_refl].
    destruct (shrunk_deleteBuilding C (id b) s). apply keeps_shrunk; assumption.
  - unfold deleteAllRestrooms. apply keeps_shrunk; [|rewrite selected_updateURL; reflexivity].
    eapply shrunk_trans_sameStore; [|apply sameStore_updateURL].
    repeat split; try reflexivity. apply filterRefs_sublist.
  - unfold deleteAllDecorationType.
    apply keeps_shrunk; [|rewrite selected_updateURL; reflexivity].
    eapply shrunk_trans_sameStore; [|apply sameStore_updateURL].
    repeat split; try reflexivity. apply filterRefs_sublist.
  - apply keeps_frame. repeat split.
  - unfold confirmYes. destruct (dialogs s !! k) as [a|]; [|apply keeps_refl].
    set (s1 := set_dialogs _ s).
    destruct (shrunk_runAction C a s1) as [Hs Hf]. intros Hv.
    split; [exact (shrunk_validRefs s1 _ Hs Hv)|]. split; [exact Hf|].
    intros Hn. exact (sublist_NoDup _ _ Hn (shrunk_usedAnimals s1 _ Hs)).
  - apply keeps_frame. repeat split.
Qed.

Lemma keeps_trans (s1 s2 s3 : state) : keeps s1 s2 -> keeps s2 s3 -> keeps s1 s3.
Proof.
  intros H1 H2 Hv. destruct (H1 Hv) as (V & F & N). destruct (H2 V) as (V' & F' & N'). tauto.
Qed.

Lemma keeps_fold {A : Type} (f : state -> A -> state) (l : list A) :
  (forall s a, keeps s (f s a)) -> forall s, keeps s (fold_left f l s).
Proof.
  intros Hf. induction l as [|a l IH]; intros s; [apply keeps_refl|].
  simpl. eapply keeps_trans; [apply Hf|apply IH].
Qed.

Lemma keeps_run (C : catalogs) (evs : list event) (s : state) : keeps s (run C evs s).
Proof. unfold run. apply keeps_fold. intros s' ev. apply keeps_handle. Qed.

Lemma keeps_loadBuilding (C : catalogs) (s : state) (d : itemData) :
  keeps s (loadBuilding C s d).
Proof.
  unfold loadBuilding. destruct (atIndex _ _); [apply keeps_addBuilding|apply keeps_refl].
Qed.

Lemma keeps_loadDecoration (C : catalogs) (s : state) (d : itemData) :
  keeps s (loadDecoration C s d).
Proof.
  unfold loadDecoration. destruct (atIndex _ _); [apply keeps_addDecoration|apply keeps_refl].
Qed.

Lemma validRefs_loadEnclosure (C : catalogs) (s : state) (d : enclosureData) :
  validRefs s -> validRefs (loadEnclosure C s d).
Proof.
  intros Hv. unfold loadEnclosure. cbv zeta.
  destruct (atIndex _ _) as [a|]; [|exact Hv].
  unfold alloc. cbv zeta.
  set (o := {| id := _; gridX := e_x d |}).
  refine (proj1 (grown_enclosure s _ o _ _ _ _ Hv)); reflexivity.
Qed.

Lemma validRefs_fold_loadEnclosure (C : catalogs) (l : list enclosureData) :
  forall s, validRefs s -> validRefs (fold_left (loadEnclosure C) l s).
Proof.
  induction l as [|d l IH]; intros s Hv; [exact Hv|].
  simpl. apply IH, validRefs_loadEnclosure, Hv.
Qed.

(** Loading keeps the references valid and the selection without
    enclosure. *)
Lemma loadFromURL_wellformed (C : catalogs) (encoded : option string) (s : state) :
  validRefs s -> selectionFree s ->
  validRefs (snd (loadFromURL C encoded s)) /\ selectionFree (snd (loadFromURL C encoded s)).
Proof.
  intros Hv Hf. unfold loadFromURL.
  destruct encoded as [str|]; [|split; assumption].
  destruct (negb (truthy str)); [split; assumption|].
  destruct (decodeZooState (Some str)) as [data|]; [|split; assumption].
  cbv zeta. cbn [snd].
  destruct (keeps_fold (loadBuilding C) (d_buildings data) (keeps_loadBuilding C) s Hv)
    as (V1 & F1 & _).
  set (s1 := fold_left (loadBuilding C) (d_buildings data) s) in *.
  destruct (keeps_fold (loadDecoration C) (d_decorations data) (keeps_loadDecoration C) s1 V1)
    as (V2 & F2 & _).
  set (s2 := fold_left (loadDecoration C) (d_decorations data) s1) in *.
  set (s3 := match d_enclosures data with
             | [] => s2
             | _ :: _ => renderAnimalList C (fold_left (loadEnclosure C) (d_enclosures data) s2)
             end).
  assert (H3 : validRefs s3 /\ selectionFree s3).
  { subst s3. destruct (d_enclosures data) as [|d l] eqn:Ed; [split; auto|].
    split; [|apply renderAnimalList_selectionFree].
    apply (sameStore_validRefs _ _ (sameStore_renderAnimalList C _)).
    apply validRefs_fold_loadEnclosure. exact V2. }
  destruct H3 as [V3 F3].
  split.
  - exact (frame_validRefs _ _ (frame_updateURL C s3) V3).
  - exact (frame_selectionFree _ _ (frame_updateURL C s3) F3).
Qed.

Lemma init_wellformed (C : catalogs) (encoded : option string) :
  validRefs (init C encoded) /\ selectionFree (init C encoded).
Proof.
  unfold init. apply loadFromURL_wellformed.
  - apply (sameStore_validRefs _ _ (sameStore_renderAnimalList C initialState)).
    intros l [].
  - apply renderAnimalList_selectionFree.
Qed.

(** Whatever URL the page is opened with and whatever events follow, every
    reference of the three collections points to an object, and the
    selected animal is one that has no enclosure. *)
Theorem reachable_wellformed (C : catalogs) (encoded : option string) (evs : list event) :
  validRefs (run C evs (init C encoded)) /\ selectionFree (run C evs (init C encoded)).
Proof.
  destruct (init_wellformed C encoded) as [V F].
  destruct (keeps_run C evs _ V) as (V' & F' & _). tauto.
Qed.

(** No handler gives an animal a second enclosure: when the page is opened
    without saved state, every sequence of events leads to a state with at
    most one enclosure per animal. *)
Theorem interactive_unique_occupants (C : catalogs) (evs : list event) :
  uniqueOccupants (run C evs (init C None)).
Proof.
  destruct (init_wellformed C None) as [V F].
  destruct (keeps_run C evs _ V) as (_ & _ & N).
  apply uniqueOccupants_NoDup, N.
  unfold init, loadFromURL. cbn [snd].
  unfold usedAnimals, enclosuresOf.
  destruct (sameStore_renderAnimalList C initialState) as (_ & _ & _ & ->).
  constructor.
Qed.

(** The same from any state: an event keeps the references valid and adds
    no second enclosure for an animal. *)
Theorem handle_keeps_unique_occupants (C : catalogs) (ev : event) (s : state) :
  validRefs s -> uniqueOccupants s ->
  validRefs (handle C ev s) /\ uniqueOccupants (handle C ev s).
Proof.
  intros Hv Hu. destruct (keeps_handle C ev s Hv) as (V & _ & N).
  split; [exact V|]. apply uniqueOccupants_NoDup, N, uniqueOccupants_NoDup, Hu.
Qed.

(* --------------------------------------------------------------------- *)
(** ** Insertion keeps the rectangles apart                               *)
(* --------------------------------------------------------------------- *)

(** What a drop does: nothing, or one new object for a catalog entry,
    placed where it fits below the right and bottom borders and where the
    overlap query found nothing; a building other than the restroom only
    when no placed building has an id that includes its type. *)
Lemma handleGridDrop_cases (C : catalogs) (itemId : string) (e : mouseEvent) (s : state) :
  handleGridDrop C itemId e s = s \/
  exists (item : itemDef) (isDecoration : bool) (n : N),
    let gX := (clientX e - rect_left (svgRect e)) / CELL_SIZE in
    let gY := (clientY e - rect_top (svgRect e)) / CELL_SIZE in
    let o := {| id := def_id item +:+ "-" +:+ decimal n; gridX := Num gX; gridY := Num gY;
                width := def_width item; height := def_height item; animal := None |} in
    def_id item = itemId /\
    (if isDecoration then In item (DECORATIONS C) /\ n = nextDecorationId s
     else In item (BUILDINGS C) /\ n = nextBuildingId s /\
          (def_id item = "restroom" \/
           forall b, In b (buildingsOf s) -> includes (id b) (def_id item) = false)) /\
    jle (jadd (Num gX) (def_width item)) (Num GRID_SIZE) = true /\
    jle (jadd (Num gY) (def_height item)) (Num GRID_SIZE) = true /\
    checkOverlap s (Num gX) (Num gY) (def_width item) (def_height item) None = false /\
    addedItem s (handleGridDrop C itemId e s) o (negb isDecoration).
Proof.
  unfold handleGridDrop. destruct (negb (truthy itemId)); [left; reflexivity|].
  destruct (find _ (BUILDINGS C)) as [item|] eqn:Eb.
  - cbv zeta. apply find_some in Eb. destruct Eb as [Hin Hid]. apply String.eqb_eq in Hid.
    cbn [negb andb].
    destruct (negb (String.eqb (def_id item) "restroom") &&
              existsb (fun b => includes (id b) (def_id item)) (buildingsOf s)) eqn:Eguard;
      [left; reflexivity|].
    destruct (_ && _ && negb (checkOverlap _ _ _ _ _ _)) eqn:Eok; [|left; reflexivity].
    right. exists item, false, (nextBuildingId s). cbv zeta.
    apply andb_true_iff in Eok. destruct Eok as [Efit Eno].
    apply andb_true_iff in Efit. destruct Efit as [Ef1 Ef2]. apply negb_true_iff in Eno.
    split; [exact Hid|]. split.
    { split; [exact Hin|]. split; [reflexivity|].
      apply andb_false_iff in Eguard. destruct Eguard as [Er|Ep].
      - left. apply negb_false_iff, String.eqb_eq in Er. exact Er.
      - right. intros b Hb. destruct (includes (id b) (def_id item)) eqn:E; [|reflexivity].
        assert (Hex : existsb (fun b => includes (id b) (def_id item)) (buildingsOf s) = true)
          by (apply existsb_exists; eauto).
        rewrite Hex in Ep. discriminate Ep. }
    split; [exact Ef1|]. split; [exact Ef2|]. split; [exact Eno|].
    destruct (addBuilding_store C item
                (Num ((clientX e - rect_left (svgRect e)) / CELL_SIZE))
                (Num ((clientY e - rect_top (svgRect e)) / CELL_SIZE)) false s)
      as (Hh & Hb & Hd & He & Hs).
    split; [exact Hh|]. split; [split; assumption|]. split; assumption.
  - destruct (find _ (DECORATIONS C)) as [item|] eqn:Ed; [|left; reflexivity].
    cbv zeta. apply find_some in Ed. destruct Ed as [Hin Hid]. apply String.eqb_eq in Hid.
    cbn [negb andb].
    destruct (_ && _ && negb (checkOverlap _ _ _ _ _ _)) eqn:Eok; [|left; reflexivity].
    right. exists item, true, (nextDecorationId s). cbv zeta.
    apply andb_true_iff in Eok. destruct Eok as [Efit Eno].
    apply andb_true_iff in Efit. destruct Efit as [Ef1 Ef2]. apply negb_true_iff in Eno.
    split; [exact Hid|]. split; [split; [exact Hin|reflexivity]|].
    split; [exact Ef1|]. split; [exact Ef2|]. split; [exact Eno|].
    destruct (addDecoration_store C item
                (Num ((clientX e - rect_left (svgRect e)) / CELL_SIZE))
                (Num ((clientY e - rect_top (svgRect e)) / CELL_SIZE)) false s)
      as (Hh & Hb & Hd & He & Hs).
    split; [exact Hh|]. split; [split; assumption|]. split; assumption.
Qed.




Lemma pairwiseFree_lookup (l : list entity) :
  pairwiseFree l <->
  forall (i j : nat) (o1 o2 : entity),
    i <> j -> l !! i = Some o1 -> l !! j = Some o2 -> hit o1 o2 = false.
Proof.
  induction l as [|o l IH].
  - split; [intros _ i j o1 o2 _ H; destruct i; discriminate H|intros _; exact I].
  - simpl. rewrite IH. split.
    + intros [Ho Hl] i j o1 o2 Hne Hi Hj.
      destruct i as [|i], j as [|j]; simpl in Hi, Hj.
      * contradiction.
      * injection Hi as <-. apply Ho. apply list_elem_of_In, list_elem_of_lookup. eauto.
      * injection Hj as <-. rewrite hit_sym. apply Ho.
        apply list_elem_of_In, list_elem_of_lookup. eauto.
      * apply (Hl i j); [congruence|assumption|assumption].
    + intros H. split.
      * intros o' Ho'. apply list_elem_of_In, list_elem_of_lookup in Ho'.
        destruct Ho' as [j Hj]. apply (H 0%nat (S j)); [discriminate|reflexivity|exact Hj].
      * intros i j o1 o2 Hne Hi Hj. apply (H (S i) (S j)); [congruence|exact Hi|exact Hj].
Qed.

(** The invariant of the claims, without indices. *)
Lemma noOverlap_pairwiseFree (s : state) : noOverlap s <-> pairwiseFree (stored s).
Proof. unfold noOverlap. rewrite pairwiseFree_lookup. reflexivity. Qed.

Lemma stored_refs (s : state) : stored s = map (deref s) (refsOf s).
Proof. unfold stored, refsOf, buildingsOf, decorationsOf, enclosuresOf. rewrite !map_app. reflexivity. Qed.

Lemma addedItem_stored (s s' : state) (o : entity) (toBuildings : bool) :
  addedItem s s' o toBuildings -> validRefs s ->
  validRefs s' /\
  exists l1 l2, stored s = l1 ++ l2 /\ stored s' = l1 ++ o :: l2.
Proof.
  intros (Hh & Hc & He & Hs) Hv.
  assert (Hg : validRefs s').
  { refine (proj1 (grown_item s s' o Hh _ He Hs Hv)).
    destruct toBuildings; [left|right]; exact Hc. }
  split; [exact Hg|].
  apply validRefs_parts in Hv. destruct Hv as (Vb & Vd & Ve).
  unfold stored, buildingsOf, decorationsOf, enclosuresOf. rewrite He.
  rewrite (map_deref_grow s s' o _ Hh Ve).
  destruct toBuildings; destruct Hc as [-> ->].
  - exists (map (deref s) (placedBuildings s)),
           (map (deref s) (placedDecorations s) ++ map (deref s) (enclosures s)).
    split; [reflexivity|]. rewrite map_app. cbn [map].
    rewrite (map_deref_grow s s' o _ Hh Vb), (map_deref_grow s s' o _ Hh Vd),
      (deref_new s s' o Hh), <- app_assoc. reflexivity.
  - exists (map (deref s) (placedBuildings s) ++ map (deref s) (placedDecorations s)),
           (map (deref s) (enclosures s)).
    split; [rewrite <- app_assoc; reflexivity|]. rewrite map_app. cbn [map].
    rewrite (map_deref_grow s s' o _ Hh Vb), (map_deref_grow s s' o _ Hh Vd),
      (deref_new s s' o Hh), <- !app_assoc. reflexivity.
Qed.



(** The release that ends a drawing: nothing, or one new enclosure where
    the overlap query found nothing. *)
Lemma draw_release_cases (C : catalogs) (e : mouseEvent) (s : state) (d : drawingT) :
  resizingEnclosure s = None -> movingItem s = None -> drawing s = Some d ->
  handleGridMouseUp C e s = set_drawing None s \/
  exists o s1,
    addedEnclosure s s1 o /\
    gridX o = Num (Z.min (startX d) (currentX d)) /\
    gridY o = Num (Z.min (startY d) (currentY d)) /\
    width o = Num (Z.abs (currentX d - startX d) + 1) /\
    height o = Num (Z.abs (currentY d - startY d) + 1) /\
    animal o = selectedAnimal s /\
    setHas (usedAnimals s) (selectedAnimal s) = false /\
    checkOverlap s (gridX o) (gridY o) (width o) (height o) None = false /\
    sameStore s1 (handleGridMouseUp C e s).
Proof.
  intros Hr Hm Hd. unfold handleGridMouseUp. rewrite Hr, Hm, Hd. cbv zeta.
  destruct (_ && _ && negb (checkOverlap _ _ _ _ _ _)) eqn:Eok; [|left; reflexivity].
  apply andb_true_iff in Eok. destruct Eok as [_ Eno]. apply negb_true_iff in Eno.
  destruct (addEnclosure_cases C (Num (Z.min (startX d) (currentX d)))
              (Num (Z.min (startY d) (currentY d)))
              (Num (Z.abs (currentX d - startX d) + 1))
              (Num (Z.abs (currentY d - startY d) + 1)) s)
    as [->|(a & s1 & Ea & Efresh & Hh & Hb & Hdec & He & ->)]; [left; reflexivity|].
  right. eexists. exists s1. split; [repeat split; eassumption|].
  simpl. rewrite Ea. repeat split; try assumption; try reflexivity.
  - destruct (sameStore_renderAnimalList C s1) as (H1 & _).
    destruct (sameStore_updateURL C (renderAnimalList C s1)) as (H2 & _).
    simpl. congruence.
  - destruct (sameStore_renderAnimalList C s1) as (_ & H1 & _).
    destruct (sameStore_updateURL C (renderAnimalList C s1)) as (_ & H2 & _).
    simpl. congruence.
  - destruct (sameStore_renderAnimalList C s1) as (_ & _ & H1 & _).
    destruct (sameStore_updateURL C (renderAnimalList C s1)) as (_ & _ & H2 & _).
    simpl. congruence.
  - destruct (sameStore_renderAnimalList C s1) as (_ & _ & _ & H1).
    destruct (sameStore_updateURL C (renderAnimalList C s1)) as (_ & _ & _ & H2).
    simpl. congruence.
Qed.






(* --------------------------------------------------------------------- *)
(** ** Gestures keep the rectangles apart                                 *)
(* --------------------------------------------------------------------- *)





Lemma uniqueIds_frame (s s' : state) : frame s s' -> uniqueIds s -> uniqueIds s'.
Proof. intros Hf. unfold uniqueIds. rewrite (frame_ids s s' Hf). tauto. Qed.



Lemma detectLoop_In (s : state) (l : list nat) (mx my : float) (r : nat) (edge : edgeT) :
  detectLoop s l mx my = Some (r, edge) -> In r l.
Proof.
  induction l as [|a l IH]; simpl; [discriminate|].
  destruct (edgeOf (deref s a) mx my).
  - intros H. injection H as <- _. left. reflexivity.
  - intros H. right. apply IH. exact H.
Qed.

Lemma findById_Some (s : state) (l : list nat) (i : string) (r : nat) :
  findById s l i = Some r -> In r l /\ id (deref s r) = i.
Proof.
  unfold findById. intros H. apply find_some in H. destruct H as [Hin Hid].
  split; [exact Hin|]. apply String.eqb_eq. exact Hid.
Qed.

(** What a press starts: a resize of an enclosure of the store, a move of
    an object of the store whose id is the one the pointer is over, a
    drawing, or nothing. *)
Lemma handleGridMouseDown_cases (e : mouseEvent) (s : state) :
  (exists r edge,
      In r (enclosures s) /\
      handleGridMouseDown e s
      = set_moveStartPos (Some (clientX e, clientY e))
          (set_resizingEnclosure
             (Some {| r_enclosure := r; r_edge := edge;
                      originalData := geometryOf (deref s r) |}) s)) \/
  (exists t i r,
      In r (refsOf s) /\ id (deref s r) = i /\
      handleGridMouseDown e s = startMove t i r (getGridPoint e) e s) \/
  (exists d, handleGridMouseDown e s = set_drawing (Some d) s) \/
  handleGridMouseDown e s = s.
Proof.
  unfold handleGridMouseDown. cbv zeta.
  destruct (detectEnclosureEdge s _ _) as [[r edge]|] eqn:Ed.
  { left. exists r, edge. split; [exact (detectLoop_In _ _ _ _ _ _ Ed)|reflexivity]. }
  right. destruct (overEnclosure e) as [i|].
  { destruct (findById s (enclosures s) i) as [r|] eqn:Ef; [|right; right; reflexivity].
    left. exists TEnclosure, i, r. apply findById_Some in Ef. destruct Ef as [Hin Hid].
    split; [|split; [exact Hid|reflexivity]]. unfold refsOf. rewrite !in_app_iff. tauto. }
  destruct (overBuilding e) as [i|].
  { destruct (findById s (placedBuildings s) i) as [r|] eqn:Ef.
    - left. exists TBuilding, i, r. apply findById_Some in Ef. destruct Ef as [Hin Hid].
      split; [|split; [exact Hid|reflexivity]]. unfold refsOf. rewrite !in_app_iff. tauto.
    - destruct (findById s (placedDecorations s) i) as [r|] eqn:Ef2;
        [|right; right; reflexivity].
      left. exists TDecoration, i, r. apply findById_Some in Ef2. destruct Ef2 as [Hin Hid].
      split; [|split; [exact Hid|reflexivity]]. unfold refsOf. rewrite !in_app_iff. tauto. }
  right. destruct (negb _); [right; reflexivity|left; eexists; reflexivity].
Qed.

Lemma is_Some_frame (s s' : state) (l : nat) :
  frame s s' -> is_Some (heap s !! l) -> is_Some (heap s' !! l).
Proof. intros (_ & Hl & _). rewrite !lookup_lt_is_Some, Hl. tauto. Qed.


Lemma movingSince_move (C : catalogs) (e : mouseEvent) (s0 s : state) (m : movingItemT) :
  movingSince s0 m s -> movingSince s0 m (handleGridMouseMove C e s).
Proof.
  intros (Hr & Hm & Hc & Ho & Hl & x & y & Hd).
  unfold handleGridMouseMove. rewrite Hr, Hm.
  destruct (negb (isNearSVG e)).
  { exact (conj Hr (conj Hm (conj Hc (conj Ho (conj Hl
             (ex_intro _ x (ex_intro _ y Hd))))))). }
  cbv zeta.
  match goal with |- movingSince _ _ (assign _ ?f s) => set (f' := f) end.
  split; [exact Hr|]. split; [exact Hm|]. split; [exact Hc|]. split; [|split].
  - intros l Hne. rewrite <- (Ho l Hne). apply deref_assign_other. congruence.
  - apply (is_Some_frame s); [|exact Hl]. apply frame_assign. intros o. split; reflexivity.
  - rewrite deref_assign_same by exact Hl. rewrite Hd.
    subst f'. eexists. eexists. reflexivity.
Qed.

Lemma idleSince_move (C : catalogs) (e : mouseEvent) (s0 s : state) :
  idleSince s0 s -> idleSince s0 (handleGridMouseMove C e s).
Proof.
  intros (Hr & Hm & Hs). unfold handleGridMouseMove. rewrite Hr, Hm.
  destruct (drawing s) as [d|]; [|exact (conj Hr (conj Hm Hs))].
  split; [exact Hr|]. split; [exact Hm|].
  eapply sameStore_trans; [exact Hs|repeat split].
Qed.

Lemma fold_moves {P : state -> Prop} (C : catalogs) (moves : list mouseEvent) :
  (forall e s, P s -> P (handleGridMouseMove C e s)) ->
  forall s, P s -> P (run C (map MouseMove moves) s).
Proof.
  intros Hstep. induction moves as [|e moves IH]; intros s Hs; [exact Hs|].
  simpl. apply IH, Hstep, Hs.
Qed.

Lemma run_gesture (C : catalogs) (e0 : mouseEvent) (moves : list mouseEvent)
    (e1 : mouseEvent) (s : state) :
  run C (gesture e0 moves e1) s
  = handleGridMouseUp C e1 (run C (map MouseMove moves) (handleGridMouseDown e0 s)).
Proof. unfold run, gesture. simpl. rewrite fold_left_app. reflexivity. Qed.








(* --------------------------------------------------------------------- *)
(** ** The invariants on a sample zoo                                     *)
(* --------------------------------------------------------------------- *)

Lemma twoNeighbours_invariants :
  validRefs twoNeighbours /\ uniqueIds twoNeighbours /\ noOverlap twoNeighbours /\
  uniqueOccupants twoNeighbours.
Proof.
  split; [|split; [|split]].
  - unfold validRefs. evaluate (refsOf twoNeighbours). evaluate (length (heap twoNeighbours)).
    intros l [<-|[<-|[]]]; lia.
  - unfold uniqueIds. evaluate (map id (stored twoNeighbours)).
    apply (bool_decide_unpack _). vm_compute. reflexivity.
  - apply noOverlap_pairwiseFree. evaluate (stored twoNeighbours).
    simpl. repeat split; intros o' H; decompose [or] H; subst; try reflexivity; contradiction.
  - apply uniqueOccupants_NoDup. evaluate (usedAnimals twoNeighbours).
    apply (bool_decide_unpack _). vm_compute. reflexivity.
Qed.

Lemma handle_keeps_unique_occupants_witness :
  uniqueOccupants (handle sampleCatalogs (ClickDeleteAnimal "zebra") twoNeighbours).
Proof.
  destruct twoNeighbours_invariants as (Hv & _ & _ & Ho).
  exact (proj2 (handle_keeps_unique_occupants sampleCatalogs (ClickDeleteAnimal "zebra")
                  twoNeighbours Hv Ho)).
Defined.





(* --------------------------------------------------------------------- *)
(** ** Opening the URL of a state                                         *)
(* --------------------------------------------------------------------- *)

Lemma findIndexFrom_range {A : Type} (p : A -> bool) (l : list A) :
  forall i, exists k, findIndexFrom p l i = Num k /\ (k = -1 \/ i <= k).
Proof.
  induction l as [|a l IH]; intros i; simpl.
  - exists (-1). split; [reflexivity|left; reflexivity].
  - destruct (p a).
    + exists i. split; [reflexivity|right; lia].
    + destruct (IH (i + 1)) as (k & -> & Hk). exists k. split; [reflexivity|lia].
Qed.

Lemma findIndexFrom_found {A : Type} (p : A -> bool) (l : list A) :
  forall i k, 0 <= i -> i <= k -> findIndexFrom p l i = Num k ->
              exists a, l !! Z.to_nat (k - i) = Some a /\ p a = true.
Proof.
  induction l as [|a l IH]; intros i k Hi Hk; simpl.
  - intros H. injection H as H. lia.
  - destruct (p a) eqn:Ea.
    + intros H. injection H as <-. exists a. rewrite Z.sub_diag. split; [reflexivity|exact Ea].
    + intros H. destruct (findIndexFrom_range p l (i + 1)) as (k' & Hk' & Hr).
      rewrite H in Hk'. injection Hk' as <-.
      destruct (IH (i + 1) k) as (b & Hb & Hp); [lia|lia|exact H|].
      exists b. split; [|exact Hp].
      replace (Z.to_nat (k - i)) with (S (Z.to_nat (k - (i + 1)))) by lia. exact Hb.
Qed.

Lemma findIndex_found {A : Type} (p : A -> bool) (l : list A) :
  base36Digit (findIndex p l) -> exists a, atIndex l (findIndex p l) = Some a /\ p a = true.
Proof.
  unfold findIndex. destruct (findIndexFrom p l 0) as [k|] eqn:E; simpl; [|tauto].
  intros Hk. destruct (findIndexFrom_found p l 0 k) as (a & Ha & Hp); [lia|lia|exact E|].
  exists a. destruct (Z.ltb_spec k 0); [lia|]. rewrite Z.sub_0_r in Ha. split; assumption.
Qed.

Lemma split_nonempty (sep : ascii) (str : string) : split sep str <> [].
Proof.
  destruct str as [|c str]; simpl; [discriminate|].
  destruct (Ascii.eqb c sep); [discriminate|]. destruct (split sep str); discriminate.
Qed.

Lemma typeIdOf_cons (c : ascii) (str : string) :
  typeIdOf (String c str) = if Ascii.eqb c "-" then "" else String c (typeIdOf str).
Proof.
  unfold typeIdOf. simpl. destruct (Ascii.eqb c "-"); [reflexivity|].
  pose proof (split_nonempty "-" str) as Hne.
  destruct (split "-" str); [contradiction|reflexivity].
Qed.

Lemma grown_collections (s s' : state) (o : entity) :
  heap s' = heap s ++ [o] -> validRefs s ->
  map (deref s') (placedBuildings s) = buildingsOf s /\
  map (deref s') (placedDecorations s) = decorationsOf s /\
  map (deref s') (enclosures s) = enclosuresOf s /\
  deref s' (length (heap s)) = o.
Proof.
  intros Hh Hv. apply validRefs_parts in Hv. destruct Hv as (Vb & Vd & Ve).
  repeat split; try (apply (map_deref_grow s s' o); assumption).
  apply deref_new. exact Hh.
Qed.

(** One record of the buildings (decorations) section is loaded as an
    object of the same type at the same place, with the size of the
    catalog. *)
Lemma loadBuilding_record (C : catalogs) (s : state) (b : entity) :
  validRefs s -> encodableItem (BUILDINGS C) b ->
  let s' := loadBuilding C s (itemTuple (BUILDINGS C) b) in
  validRefs s' /\
  (exists o, buildingsOf s' = buildingsOf s ++ [o] /\ loadedFrom (BUILDINGS C) b o) /\
  decorationsOf s' = decorationsOf s /\ enclosuresOf s' = enclosuresOf s.
Proof.
  intros Hv Hb. destruct (findIndex_found _ _ (proj1 Hb)) as (def & Hdef & _).
  fold (typeIndexOf (BUILDINGS C) b) in Hdef.
  unfold loadBuilding. cbn [typeIndex i_x i_y itemTuple]. rewrite Hdef.
  destruct (addBuilding_store C def (gridX b) (gridY b) true s) as (Hh & Hpb & Hpd & He & Hsel).
  set (s' := addBuilding C def (gridX b) (gridY b) true s) in *.
  set (o := {| id := _; gridX := gridX b |}) in Hh.
  destruct (grown_collections s s' o Hh Hv) as (Gb & Gd & Ge & Gn).
  destruct (grown_item s s' o Hh (or_introl (conj Hpb Hpd)) He Hsel Hv) as (Hv' & _).
  split; [exact Hv'|]. split; [|split].
  - exists o. split.
    + unfold buildingsOf. rewrite Hpb, map_app, Gb. cbn [map]. rewrite Gn. reflexivity.
    + exists def, (nextBuildingId s). split; [exact Hdef|]. repeat split.
  - unfold decorationsOf. rewrite Hpd. exact Gd.
  - unfold enclosuresOf. rewrite He. exact Ge.
Qed.

Lemma loadDecoration_record (C : catalogs) (s : state) (b : entity) :
  validRefs s -> encodableItem (DECORATIONS C) b ->
  let s' := loadDecoration C s (itemTuple (DECORATIONS C) b) in
  validRefs s' /\
  buildingsOf s' = buildingsOf s /\
  (exists o, decorationsOf s' = decorationsOf s ++ [o] /\ loadedFrom (DECORATIONS C) b o) /\
  enclosuresOf s' = enclosuresOf s.
Proof.
  intros Hv Hb. destruct (findIndex_found _ _ (proj1 Hb)) as (def & Hdef & _).
  fold (typeIndexOf (DECORATIONS C) b) in Hdef.
  unfold loadDecoration. cbn [typeIndex i_x i_y itemTuple]. rewrite Hdef.
  destruct (addDecoration_store C def (gridX b) (gridY b) true s)
    as (Hh & Hpb & Hpd & He & Hsel).
  set (s' := addDecoration C def (gridX b) (gridY b) true s) in *.
  set (o := {| id := _; gridX := gridX b |}) in Hh.
  destruct (grown_collections s s' o Hh Hv) as (Gb & Gd & Ge & Gn).
  destruct (grown_item s s' o Hh (or_intror (conj Hpb Hpd)) He Hsel Hv) as (Hv' & _).
  split; [exact Hv'|]. split; [|split].
  - unfold buildingsOf. rewrite Hpb. exact Gb.
  - exists o. split.
    + unfold decorationsOf. rewrite Hpd, map_app, Gd. cbn [map]. rewrite Gn. reflexivity.
    + exists def, (nextDecorationId s). split; [exact Hdef|]. repeat split.
  - unfold enclosuresOf. rewrite He. exact Ge.
Qed.

(** One record of the enclosures section is loaded as an enclosure of the
    same animal with the same rectangle. *)
Lemma loadEnclosure_record (C : catalogs) (s : state) (e : entity) :
  validRefs s -> encodableEnclosure (ANIMALS C) e ->
  let s' := loadEnclosure C s (enclosureTuple (ANIMALS C) e) in
  validRefs s' /\
  buildingsOf s' = buildingsOf s /\ decorationsOf s' = decorationsOf s /\
  exists o, enclosuresOf s' = enclosuresOf s ++ [o] /\
            geometryOf o = geometryOf e /\ animal o = animal e.
Proof.
  intros Hv He. destruct (findIndex_found _ _ (proj1 He)) as (a & Ha & Hp).
  fold (animalIndexOf (ANIMALS C) e) in Ha.
  unfold loadEnclosure. cbv zeta. cbn [animalIndex e_x e_y e_w e_h enclosureTuple].
  rewrite Ha. unfold alloc. cbv zeta.
  set (o := {| id := _; gridX := gridX e |}).
  match goal with |- validRefs ?t /\ _ => set (s' := t) end.
  assert (Hh : heap s' = heap s ++ [o]) by reflexivity.
  destruct (grown_collections s s' o Hh Hv) as (Gb & Gd & Ge & Gn).
  destruct (grown_enclosure s s' o Hh eq_refl eq_refl eq_refl Hv) as (Hv' & _).
  split; [exact Hv'|]. split; [exact Gb|]. split; [exact Gd|].
  exists o. split; [|split].
  - unfold enclosuresOf at 1. change (enclosures s') with (enclosures s ++ [length (heap s)]).
    rewrite map_app, Ge. cbn [map]. rewrite Gn. reflexivity.
  - reflexivity.
  - destruct (animal e) as [x|]; [|discriminate Hp].
    apply String.eqb_eq in Hp. subst o. cbn [animal]. rewrite Hp. reflexivity.
Qed.

Lemma fold_loadBuilding (C : catalogs) (l : list entity) :
  forall s, validRefs s -> Forall (encodableItem (BUILDINGS C)) l ->
    let s' := fold_left (loadBuilding C) (map (itemTuple (BUILDINGS C)) l) s in
    validRefs s' /\
    (exists new, buildingsOf s' = buildingsOf s ++ new /\ Forall2 (loadedFrom (BUILDINGS C)) l new) /\
    decorationsOf s' = decorationsOf s /\ enclosuresOf s' = enclosuresOf s.
Proof.
  induction l as [|b l IH]; intros s Hv Hl.
  - split; [exact Hv|]. split; [|split; reflexivity].
    exists []. rewrite app_nil_r. split; [reflexivity|constructor].
  - apply Forall_cons in Hl. destruct Hl as [Hb Hl].
    destruct (loadBuilding_record C s b Hv Hb) as (V1 & (o & B1 & L1) & D1 & E1).
    cbn [map fold_left].
    destruct (IH _ V1 Hl) as (V2 & (new & B2 & L2) & D2 & E2).
    split; [exact V2|]. split; [|split; congruence].
    exists (o :: new). rewrite B2, B1, <- app_assoc. split; [reflexivity|].
    constructor; assumption.
Qed.

Lemma fold_loadDecoration (C : catalogs) (l : list entity) :
  forall s, validRefs s -> Forall (encodableItem (DECORATIONS C)) l ->
    let s' := fold_left (loadDecoration C) (map (itemTuple (DECORATIONS C)) l) s in
    validRefs s' /\
    buildingsOf s' = buildingsOf s /\
    (exists new, decorationsOf s' = decorationsOf s ++ new /\ Forall2 (loadedFrom (DECORATIONS C)) l new) /\
    enclosuresOf s' = enclosuresOf s.
Proof.
  induction l as [|b l IH]; intros s Hv Hl.
  - split; [exact Hv|]. split; [reflexivity|]. split; [|reflexivity].
    exists []. rewrite app_nil_r. split; [reflexivity|constructor].
  - apply Forall_cons in Hl. destruct Hl as [Hb Hl].
    destruct (loadDecoration_record C s b Hv Hb) as (V1 & B1 & (o & D1 & L1) & E1).
    cbn [map fold_left].
    destruct (IH _ V1 Hl) as (V2 & B2 & (new & D2 & L2) & E2).
    split; [exact V2|]. split; [congruence|]. split; [|congruence].
    exists (o :: new). rewrite D2, D1, <- app_assoc. split; [reflexivity|].
    constructor; assumption.
Qed.

Lemma fold_loadEnclosure (C : catalogs) (l : list entity) :
  forall s, validRefs s -> Forall (encodableEnclosure (ANIMALS C)) l ->
    let s' := fold_left (loadEnclosure C) (map (enclosureTuple (ANIMALS C)) l) s in
    validRefs s' /\
    buildingsOf s' = buildingsOf s /\ decorationsOf s' = decorationsOf s /\
    exists new, enclosuresOf s' = enclosuresOf s ++ new /\
                map geometryOf new = map geometryOf l /\ map animal new = map animal l.
Proof.
  induction l as [|e l IH]; intros s Hv Hl.
  - split; [exact Hv|]. split; [reflexivity|]. split; [reflexivity|].
    exists []. rewrite app_nil_r. repeat split.
  - apply Forall_cons in Hl. destruct Hl as [He Hl].
    destruct (loadEnclosure_record C s e Hv He) as (V1 & B1 & D1 & o & E1 & G1 & A1).
    cbn [map fold_left].
    destruct (IH _ V1 Hl) as (V2 & B2 & D2 & new & E2 & G2 & A2).
    split; [exact V2|]. split; [congruence|]. split; [congruence|].
    exists (o :: new). rewrite E2, E1, <- app_assoc. split; [reflexivity|].
    cbn [map]. rewrite G1, G2, A1, A2. split; reflexivity.
Qed.

Lemma sameStore_objects (s s' : state) :
  sameStore s s' ->
  buildingsOf s' = buildingsOf s /\ decorationsOf s' = decorationsOf s /\
  enclosuresOf s' = enclosuresOf s.
Proof.
  intros (Hh & Hb & Hd & He). unfold buildingsOf, decorationsOf, enclosuresOf, deref.
  rewrite Hh, Hb, Hd, He. repeat split.
Qed.

Lemma decode_of_encoding (C : catalogs) (s : state) :
  Forall (encodableItem (BUILDINGS C)) (buildingsOf s) ->
  Forall (encodableItem (DECORATIONS C)) (decorationsOf s) ->
  Forall (encodableEnclosure (ANIMALS C)) (enclosuresOf s) ->
  decodeZooState (Some (encodeZooState C s))
  = Some {| d_buildings := map (itemTuple (BUILDINGS C)) (buildingsOf s);
            d_decorations := map (itemTuple (DECORATIONS C)) (decorationsOf s);
            d_enclosures := map (enclosureTuple (ANIMALS C)) (enclosuresOf s) |}.
Proof.
  intros Hb Hd He.
  rewrite decodeZooState_sections.
  destruct (sections_of_encodeZooState C s) as (-> & -> & ->).
  unfold buildingStr, decorationStr, enclosureStr.
  rewrite (proj2 (items_section _ _ Hb)), (proj2 (items_section _ _ Hd)),
    (proj2 (enclosures_section _ _ He)).
  reflexivity.
Qed.

Lemma map_empty {A B : Type} (f : A -> B) (l : list A) : map f l = [] -> l = [].
Proof. destruct l; [reflexivity|discriminate]. Qed.

(** What [init] builds from the URL of a state whose records fit the
    format. *)
Lemma reloaded_collections (C : catalogs) (s s' : state) :
  Forall (encodableItem (BUILDINGS C)) (buildingsOf s) ->
  Forall (encodableItem (DECORATIONS C)) (decorationsOf s) ->
  Forall (encodableEnclosure (ANIMALS C)) (enclosuresOf s) ->
  s' = init C (Some (encodeZooState C s)) ->
  Forall2 (loadedFrom (BUILDINGS C)) (buildingsOf s) (buildingsOf s') /\
  Forall2 (loadedFrom (DECORATIONS C)) (decorationsOf s) (decorationsOf s') /\
  map geometryOf (enclosuresOf s') = map geometryOf (enclosuresOf s) /\
  map animal (enclosuresOf s') = map animal (enclosuresOf s).
Proof.
  intros Hb Hd He Hs'. unfold init in Hs'.
  set (s0 := renderAnimalList C initialState) in Hs'.
  assert (H0 : sameStore initialState s0) by apply sameStore_renderAnimalList.
  assert (V0 : validRefs s0).
  { apply (sameStore_validRefs _ _ H0). intros l []. }
  destruct (sameStore_objects _ _ H0) as (B0 & D0 & E0).
  change (buildingsOf initialState) with (@nil entity) in B0.
  change (decorationsOf initialState) with (@nil entity) in D0.
  change (enclosuresOf initialState) with (@nil entity) in E0.
  unfold loadFromURL in Hs'. destruct (truthy (encodeZooState C s)) eqn:Et; cbn [negb] in Hs'.
  - rewrite (decode_of_encoding C s Hb Hd He) in Hs'.
    cbv zeta in Hs'. cbn [snd d_buildings d_decorations d_enclosures] in Hs'.
    destruct (fold_loadBuilding C (buildingsOf s) s0 V0 Hb)
      as (V1 & (nb & B1 & LB) & D1 & E1).
    set (s1 := fold_left (loadBuilding C) _ s0) in *.
    destruct (fold_loadDecoration C (decorationsOf s) s1 V1 Hd)
      as (V2 & B2 & (nd & D2 & LD) & E2).
    set (s2 := fold_left (loadDecoration C) _ s1) in *.
    destruct (fold_loadEnclosure C (enclosuresOf s) s2 V2 He)
      as (V3 & B3 & D3 & ne & E3 & GE & AE).
    set (s3 := fold_left (loadEnclosure C) _ s2) in *.
    rewrite B0 in B1. rewrite D0 in D1. rewrite E0 in E1.
    cbn [app] in B1. rewrite D1 in D2. rewrite E1 in E2. rewrite E2 in E3.
    cbn [app] in D2, E3.
    match type of Hs' with _ = updateURL C ?t => set (s4 := t) in Hs' end.
    assert (H4 : buildingsOf s4 = nb /\ decorationsOf s4 = nd /\
                 map geometryOf (enclosuresOf s4) = map geometryOf (enclosuresOf s) /\
                 map animal (enclosuresOf s4) = map animal (enclosuresOf s)).
    { subst s4. destruct (map (enclosureTuple (ANIMALS C)) (enclosuresOf s)) eqn:El.
      - apply map_empty in El. rewrite El. rewrite E2, D2, B2, B1. repeat split.
      - destruct (sameStore_objects _ _ (sameStore_renderAnimalList C s3))
          as (-> & -> & ->).
        rewrite B3, B2, B1, D3, D2, E3. repeat split; assumption. }
    destruct H4 as (B4 & D4 & G4 & A4).
    destruct (sameStore_objects _ _ (sameStore_updateURL C s4)) as (B5 & D5 & E5).
    rewrite Hs', B5, D5, E5, B4, D4.
    split; [assumption|]. split; [assumption|]. split; assumption.
  - apply negb_false_iff, String.eqb_eq, encodeZooState_empty in Et.
    destruct Et as (Pb & Pd & Pe). cbn [snd] in Hs'.
    rewrite Hs', B0, D0, E0. unfold buildingsOf, decorationsOf, enclosuresOf.
    rewrite Pb, Pd, Pe. repeat split; constructor.
Qed.

Lemma encodeItem_tuple (catalog : list itemDef) (l l' : list entity) :
  map (itemTuple catalog) l' = map (itemTuple catalog) l ->
  map (encodeItem catalog) l' = map (encodeItem catalog) l.
Proof.
  intros H.
  set (g := fun t => toBase36 (typeIndex t) +:+ toBase36 (i_x t) +:+ toBase36 (i_y t)).
  assert (E : forall k, map (encodeItem catalog) k = map g (map (itemTuple catalog) k))
    by (intros k; rewrite map_map; reflexivity).
  rewrite !E, H. reflexivity.
Qed.

Lemma encodeEnclosure_tuple (animals : list animalDef) (l l' : list entity) :
  map geometryOf l' = map geometryOf l -> map animal l' = map animal l ->
  map (encodeEnclosure animals) l' = map (encodeEnclosure animals) l.
Proof.
  revert l'. induction l as [|e l IH]; intros [|e' l'] Hg Ha; try discriminate; [reflexivity|].
  cbn [map] in *. injection Hg as Hx Hy Hw Hh Hg. injection Ha as Ha1 Ha.
  rewrite (IH l' Hg Ha). f_equal.
  unfold encodeEnclosure, animalIndexOf. rewrite Ha1, Hx, Hy, Hw, Hh. reflexivity.
Qed.

(* --------------------------------------------------------------------- *)
(** ** Instance ids                                                       *)
(* --------------------------------------------------------------------- *)

Lemma pretty_N_go_noDash (x : N) : forall s, noDash s -> noDash (pretty_N_go x s).
Proof.
  induction (N.lt_wf_0 x) as [x _ IH]; intros s Hs.
  destruct (N.eq_dec x 0%N) as [->|Hx]; [rewrite pretty_N_go_0; exact Hs|].
  rewrite pretty_N_go_step by lia. apply IH.
  - apply N.div_lt; [lia|reflexivity].
  - split; [|exact Hs]. unfold pretty_N_char. repeat case_match; discriminate.
Qed.

Lemma decimal_noDash (n : N) : noDash (decimal n).
Proof.
  unfold decimal, pretty, pretty_N. destruct (decide (n = 0%N)).
  - split; [discriminate|exact I].
  - apply pretty_N_go_noDash. exact I.
Qed.

Lemma decimal_inj (n m : N) : decimal n = decimal m -> n = m.
Proof. apply pretty_N_inj. Qed.

Lemma dash_inside (a d : string) : ~ noDash (a +:+ "-" +:+ d).
Proof.
  induction a as [|x a IH]; rewrite ?app_cons, ?app_empty_l; simpl; tauto.
Qed.

(** An instance id is read in one way only: the counter follows the last
    dash. *)
Lemma instanceId_inj (a a' d d' : string) :
  noDash d -> noDash d' -> a +:+ "-" +:+ d = a' +:+ "-" +:+ d' -> a = a' /\ d = d'.
Proof.
  intros Hd Hd'. revert a'. induction a as [|c a IH]; intros [|c' a'] H;
    repeat (rewrite app_cons in H || rewrite app_empty_l in H).
  - injection H as H. split; [reflexivity|exact H].
  - exfalso. injection H as Hc H. rewrite H in Hd. exact (dash_inside _ _ Hd).
  - exfalso. injection H as Hc H. rewrite <- H in Hd'. exact (dash_inside _ _ Hd').
  - injection H as -> H. destruct (IH a' H) as [-> ->]. split; reflexivity.
Qed.

Lemma instance_ids_differ (t t' : string) (n n' : N) :
  t +:+ "-" +:+ decimal n = t' +:+ "-" +:+ decimal n' -> t = t' /\ n = n'.
Proof.
  intros H. destruct (instanceId_inj _ _ _ _ (decimal_noDash n) (decimal_noDash n') H)
    as [Ht Hn].
  split; [exact Ht|apply decimal_inj, Hn].
Qed.

(* --------------------------------------------------------------------- *)
(** ** What the handlers leave alone                                      *)
(* --------------------------------------------------------------------- *)

Lemma fields_updateURL (C : catalogs) (s : state) :
  sameCounters s (updateURL C s) /\ sameGesture s (updateURL C s).
Proof. unfold updateURL. destruct (_ && _); repeat split. Qed.

Lemma fields_selectAnimal (a : string) (s : state) :
  sameCounters s (selectAnimal a s) /\ sameGesture s (selectAnimal a s).
Proof. unfold selectAnimal. destruct (setHas _ _); repeat split. Qed.

Lemma fields_renderAnimalList (C : catalogs) (s : state) :
  sameCounters s (renderAnimalList C s) /\ sameGesture s (renderAnimalList C s).
Proof.
  unfold renderAnimalList. cbv zeta.
  set (s1 := match ANIMALS C with [] => s | _ => _ end).
  assert (H1 : sameCounters s s1 /\ sameGesture s s1).
  { subst s1. destruct (ANIMALS C); [repeat split|].
    destruct (negb _); [apply fields_selectAnimal|repeat split]. }
  destruct H1 as ((E1 & E2 & E3) & G1 & G2).
  destruct (setHas _ (selectedAnimal s1)); [|repeat split; assumption].
  destruct (find _ _) as [a|].
  - destruct (fields_selectAnimal (animal_id a) s1) as ((F1 & F2 & F3) & H1 & H2).
    repeat split; congruence.
  - repeat split; assumption.
Qed.

Lemma sameCounters_refl (s : state) : sameCounters s s.
Proof. repeat split. Qed.

Lemma sameCounters_trans (s1 s2 s3 : state) :
  sameCounters s1 s2 -> sameCounters s2 s3 -> sameCounters s1 s3.
Proof. intros (A & B & D) (A' & B' & D'). repeat split; congruence. Qed.

Lemma sameGesture_refl (s : state) : sameGesture s s.
Proof. repeat split. Qed.

Lemma sameGesture_trans (s1 s2 s3 : state) :
  sameGesture s1 s2 -> sameGesture s2 s3 -> sameGesture s1 s3.
Proof. intros (A & B) (A' & B'). split; congruence. Qed.

Lemma fields_deleteBuilding (C : catalogs) (i : string) (s : state) :
  sameCounters s (deleteBuilding C i s) /\ sameGesture s (deleteBuilding C i s).
Proof.
  unfold deleteBuilding. cbv zeta.
  match goal with
  | |- context [updateURL C ?t] => destruct (fields_updateURL C t) as ((A & B & D) & G1 & G2)
  end.
  repeat split; assumption.
Qed.

Lemma fields_deleteDecoration (C : catalogs) (i : string) (s : state) :
  sameCounters s (deleteDecoration C i s) /\ sameGesture s (deleteDecoration C i s).
Proof.
  unfold deleteDecoration. cbv zeta.
  match goal with
  | |- context [updateURL C ?t] => destruct (fields_updateURL C t) as ((A & B & D) & G1 & G2)
  end.
  repeat split; assumption.
Qed.

Lemma fields_deleteEnclosure (C : catalogs) (i : string) (s : state) :
  sameCounters s (deleteEnclosure C i s) /\ sameGesture s (deleteEnclosure C i s).
Proof.
  unfold deleteEnclosure. cbv zeta.
  match goal with |- context [renderAnimalList C ?t] => set (s1 := t) end.
  destruct (fields_renderAnimalList C s1) as (A & B).
  destruct (fields_updateURL C (renderAnimalList C s1)) as (A' & B').
  split.
  - exact (sameCounters_trans s _ _ A A').
  - exact (sameGesture_trans s _ _ B B').
Qed.

Lemma fields_handleGridMouseMove (C : catalogs) (e : mouseEvent) (s : state) :
  sameCounters s (handleGridMouseMove C e s) /\ sameGesture s (handleGridMouseMove C e s).
Proof.
  unfold handleGridMouseMove.
  destruct (resizingEnclosure s) as [rz|] eqn:Er.
  - cbv zeta. destruct (negb _); [|repeat split; symmetry; assumption].
    match goal with |- context [updateURL C ?t] => set (s1 := t) end.
    destruct (fields_updateURL C s1) as ((A & B & D) & G1 & G2).
    repeat split; first [assumption | rewrite G1; assumption | rewrite G2; reflexivity].
  - destruct (movingItem s) as [m|] eqn:Em.
    + destruct (negb _); repeat split; symmetry; assumption.
    + destruct (drawing s); repeat split; symmetry; assumption.
Qed.

Lemma sameCounters_handleGridMouseDown (e : mouseEvent) (s : state) :
  sameCounters s (handleGridMouseDown e s).
Proof.
  unfold handleGridMouseDown, startMove. cbv zeta.
  destruct (detectEnclosureEdge _ _ _) as [[enc edge]|]; [repeat split|].
  destruct (overEnclosure e) as [i|].
  - destruct (findById _ _ _); repeat split.
  - destruct (overBuilding e) as [i|].
    + destruct (findById _ (placedBuildings s) _); [repeat split|].
      destruct (findById _ _ _); repeat split.
    + destruct (negb _); repeat split.
Qed.

(* --------------------------------------------------------------------- *)
(** ** Distinct ids                                                       *)
(* --------------------------------------------------------------------- *)

Lemma collectionOf_refs (t : itemType) (s : state) :
  collectionOf t s = map (deref s) (refsIn t s).
Proof. destruct t; reflexivity. Qed.

Lemma numberedIds_all (C : catalogs) (s : state) :
  numberedIds C s <->
  forall t, Forall (numbered (typesOf C t) (counterOf t s)) (collectionOf t s).
Proof.
  split.
  - intros (B & D & E) []; assumption.
  - intros H. exact (conj (H TBuilding) (conj (H TDecoration) (H TEnclosure))).
Qed.

Lemma stored_In (s : state) (o : entity) :
  In o (stored s) <-> exists t, In o (collectionOf t s).
Proof.
  unfold stored. rewrite !in_app_iff. split.
  - intros [H|[H|H]]; [exists TBuilding|exists TDecoration|exists TEnclosure]; exact H.
  - intros ([] & H); simpl in H; tauto.
Qed.

Lemma validRefs_all (s : state) :
  validRefs s <-> forall t l, In l (refsIn t s) -> (l < length (heap s))%nat.
Proof.
  rewrite validRefs_parts. split.
  - intros (B & D & E) []; assumption.
  - intros H. exact (conj (H TBuilding) (conj (H TDecoration) (H TEnclosure))).
Qed.

Lemma separate_types (C : catalogs) (t t' : itemType) (x : string) :
  separateCatalogs C -> In x (typesOf C t) -> In x (typesOf C t') -> t = t'.
Proof.
  intros (Hbd & Hne) Ht Ht'.
  assert (Hb : forall x, In x (map def_id (BUILDINGS C)) -> x <> "enclosure").
  { intros y Hy. apply in_map_iff in Hy. destruct Hy as (b & <- & Hb).
    apply Hne. apply in_app_iff. left. exact Hb. }
  assert (Hd : forall x, In x (map def_id (DECORATIONS C)) -> x <> "enclosure").
  { intros y Hy. apply in_map_iff in Hy. destruct Hy as (b & <- & Hin).
    apply Hne. apply in_app_iff. right. exact Hin. }
  assert (Hx : In x (map def_id (BUILDINGS C)) -> In x (map def_id (DECORATIONS C)) -> False).
  { intros H1 H2. apply in_map_iff in H1, H2.
    destruct H1 as (b & <- & H1). destruct H2 as (d & E & H2).
    exact (Hbd b d H1 H2 (eq_sym E)). }
  destruct t, t'; simpl in Ht, Ht'; try reflexivity; exfalso;
    try (exact (Hx Ht Ht')); try (exact (Hx Ht' Ht));
    try (destruct Ht' as [<-|[]]; first [exact (Hb _ Ht eq_refl) | exact (Hd _ Ht eq_refl)]);
    try (destruct Ht as [<-|[]]; first [exact (Hb _ Ht' eq_refl) | exact (Hd _ Ht' eq_refl)]).
Qed.

Lemma numbered_id (types : list string) (next : N) (o o' : entity) :
  id o' = id o -> numbered types next o -> numbered types next o'.
Proof. intros E (t & n & Ht & Hn & Hid). exists t, n. rewrite E. tauto. Qed.

Lemma numbered_mono (types : list string) (n n' : N) (o : entity) :
  (n <= n')%N -> numbered types n o -> numbered types n' o.
Proof. intros Hle (t & k & Ht & Hk & Hid). exists t, k. repeat split; [exact Ht|lia|exact Hid]. Qed.

Lemma sameCounters_counterOf (s s' : state) (t : itemType) :
  sameCounters s s' -> counterOf t s' = counterOf t s.
Proof. intros (E & B & D). destruct t; assumption. Qed.

Lemma numberedIds_frame (C : catalogs) (s s' : state) :
  frame s s' -> sameCounters s s' -> numberedIds C s -> numberedIds C s'.
Proof.
  intros ((Cb & Cd & Ce) & _ & Hid & _) Hc. rewrite !numberedIds_all. intros H t.
  rewrite (sameCounters_counterOf s s' t Hc), collectionOf_refs.
  specialize (H t). rewrite collectionOf_refs in H.
  assert (Hr : refsIn t s' = refsIn t s) by (destruct t; assumption).
  rewrite Hr. apply List.Forall_forall. intros o Ho. apply in_map_iff in Ho.
  destruct Ho as (l & <- & Hl). rewrite List.Forall_forall in H.
  apply (numbered_id _ _ (deref s l)); [apply Hid|]. apply H, in_map, Hl.
Qed.

Lemma wellNumbered_frame (C : catalogs) (s s' : state) :
  frame s s' -> sameCounters s s' -> wellNumbered C s -> wellNumbered C s'.
Proof.
  intros Hf Hc (V & U & N). split; [exact (frame_validRefs _ _ Hf V)|].
  split; [exact (uniqueIds_frame _ _ Hf U)|exact (numberedIds_frame C _ _ Hf Hc N)].
Qed.

Lemma uniqueIds_shrunk (s s' : state) : shrunk s s' -> uniqueIds s -> uniqueIds s'.
Proof.
  intros Hs Hu. unfold uniqueIds in *.
  exact (sublist_NoDup _ _ Hu (sublist_map id _ _ (shrunk_stored s s' Hs))).
Qed.

Lemma numberedIds_shrunk (C : catalogs) (s s' : state) :
  shrunk s s' -> sameCounters s s' -> numberedIds C s -> numberedIds C s'.
Proof.
  intros (Hh & Sb & Sd & Se) Hc. rewrite !numberedIds_all. intros H t.
  rewrite (sameCounters_counterOf s s' t Hc), collectionOf_refs.
  specialize (H t). rewrite collectionOf_refs in H.
  assert (Hr : sublist (refsIn t s') (refsIn t s)) by (destruct t; assumption).
  apply List.Forall_forall. intros o Ho. apply in_map_iff in Ho.
  destruct Ho as (l & <- & Hl).
  rewrite List.Forall_forall in H.
  replace (deref s' l) with (deref s l) by (unfold deref; rewrite Hh; reflexivity).
  apply H, in_map. exact (sublist_In _ _ l Hr Hl).
Qed.

Lemma wellNumbered_shrunk (C : catalogs) (s s' : state) :
  shrunk s s' -> sameCounters s s' -> wellNumbered C s -> wellNumbered C s'.
Proof.
  intros Hs Hc (V & U & N). split; [exact (shrunk_validRefs _ _ Hs V)|].
  split; [exact (uniqueIds_shrunk _ _ Hs U)|exact (numberedIds_shrunk C _ _ Hs Hc N)].
Qed.

Lemma itemTypeEq_true (t t' : itemType) : itemTypeEq t t' = true <-> t = t'.
Proof. destruct t, t'; simpl; split; intros H; try reflexivity; discriminate H. Qed.

(** A new object numbered by the counter of its kind has a fresh id. *)
Lemma wellNumbered_grown (C : catalogs) (t : itemType) (s s' : state) (o : entity) :
  separateCatalogs C -> grownBy C t s s' o -> wellNumbered C s -> wellNumbered C s'.
Proof.
  intros Hsep (Hh & Hrefs & Hcount & x & Hx & Hid) (V & U & N).
  destruct (grown_collections s s' o Hh V) as (Gb & Gd & Ge & Gn).
  assert (Hcol : forall t', collectionOf t' s'
                            = if itemTypeEq t t' then collectionOf t' s ++ [o]
                              else collectionOf t' s).
  { intros t'. rewrite !collectionOf_refs, Hrefs.
    destruct (itemTypeEq t t'); [rewrite map_app; cbn [map]; rewrite Gn; f_equal|];
      destruct t'; assumption. }
  assert (Hfresh : forall o', In o' (stored s) -> id o' <> id o).
  { intros o' Ho' E. apply stored_In in Ho'. destruct Ho' as (t' & Ho').
    rewrite numberedIds_all in N. specialize (N t'). rewrite List.Forall_forall in N.
    destruct (N o' Ho') as (x' & n' & Hx' & Hn' & Hid').
    rewrite Hid, Hid' in E. apply instance_ids_differ in E. destruct E as [-> ->].
    rewrite (separate_types C t t' x Hsep Hx Hx') in Hn'. lia. }
  split; [|split].
  - apply validRefs_all. intros t' l. rewrite Hrefs, Hh, length_app. cbn [length].
    rewrite validRefs_all in V. specialize (V t' l).
    destruct (itemTypeEq t t'); [rewrite in_app_iff; intros [Hl|[<-|[]]]|intros Hl];
      try apply V in Hl; lia.
  - unfold uniqueIds in *.
    assert (Hperm : stored s' ≡ₚ o :: stored s).
    { unfold stored. change (buildingsOf s') with (collectionOf TBuilding s').
      change (decorationsOf s') with (collectionOf TDecoration s').
      change (enclosuresOf s') with (collectionOf TEnclosure s').
      rewrite !Hcol. destruct t; cbn [itemTypeEq collectionOf].
      - rewrite <- app_assoc. cbn [app]. rewrite <- Permutation_middle. reflexivity.
      - rewrite <- app_assoc. cbn [app]. rewrite app_assoc, <- Permutation_middle.
        rewrite <- app_assoc. reflexivity.
      - rewrite !app_assoc, <- Permutation_middle, app_nil_r. reflexivity. }
    rewrite (Permutation_map id Hperm). cbn [map]. apply NoDup_cons. split; [|exact U].
    rewrite list_elem_of_In. intros Hin. apply in_map_iff in Hin.
    destruct Hin as (o' & E & Ho'). exact (Hfresh o' Ho' E).
  - rewrite numberedIds_all in *. intros t'. rewrite Hcol, Hcount.
    specialize (N t').
    destruct (itemTypeEq t t') eqn:Et.
    + apply itemTypeEq_true in Et. subst t'. apply Forall_app. split.
      * revert N. apply List.Forall_impl. intros o'. apply numbered_mono. lia.
      * apply Forall_singleton. exists x, (counterOf t s).
        split; [exact Hx|]. split; [lia|exact Hid].
    + exact N.
Qed.

Lemma sameStore_shrunk (s s' : state) : sameStore s s' -> shrunk s s'.
Proof. intros H. exact (shrunk_trans_sameStore s s s' (shrunk_refl s) H). Qed.

Lemma wellNumbered_sameStore (C : catalogs) (s s' : state) :
  sameStore s s' -> sameCounters s s' -> wellNumbered C s -> wellNumbered C s'.
Proof. intros H. apply wellNumbered_shrunk, sameStore_shrunk, H. Qed.

Lemma wellNumbered_empty (C : catalogs) (s : state) :
  placedBuildings s = [] -> placedDecorations s = [] -> enclosures s = [] ->
  wellNumbered C s.
Proof.
  intros Hb Hd He. split; [|split].
  - unfold validRefs, refsOf. rewrite Hb, Hd, He. intros l [].
  - unfold uniqueIds, stored, buildingsOf, decorationsOf, enclosuresOf.
    rewrite Hb, Hd, He. constructor.
  - unfold numberedIds, buildingsOf, decorationsOf, enclosuresOf.
    rewrite Hb, Hd, He. repeat split; constructor.
Qed.

Lemma grownBy_sameStore (C : catalogs) (t : itemType) (s s1 s2 : state) (o : entity) :
  grownBy C t s s1 o -> sameStore s1 s2 -> sameCounters s1 s2 -> grownBy C t s s2 o.
Proof.
  intros (Hh & Hr & Hc & Hx) (Sh & Sb & Sd & Se) Hs.
  split; [congruence|]. split; [|split; [|exact Hx]].
  - intros t'. rewrite <- Hr. destruct t'; assumption.
  - intros t'. rewrite <- Hc. apply sameCounters_counterOf, Hs.
Qed.

Lemma grownBy_addBuilding (C : catalogs) (def : itemDef) (gX gY : jsnum) (skip : bool)
    (s : state) :
  In def (BUILDINGS C) ->
  exists o, grownBy C TBuilding s (addBuilding C def gX gY skip s) o.
Proof.
  intros Hin. unfold addBuilding, alloc. cbv zeta.
  set (o := {| id := _; gridX := gX |}). exists o.
  set (s1 := set_placedBuildings _ _).
  assert (H1 : grownBy C TBuilding s s1 o).
  { split; [reflexivity|]. split; [intros []; reflexivity|].
    split; [intros []; reflexivity|].
    exists (def_id def). split; [apply in_map, Hin|reflexivity]. }
  destruct skip; [exact H1|].
  exact (grownBy_sameStore C _ s s1 _ o H1 (sameStore_updateURL C s1)
           (proj1 (fields_updateURL C s1))).
Qed.

Lemma grownBy_addDecoration (C : catalogs) (def : itemDef) (gX gY : jsnum) (skip : bool)
    (s : state) :
  In def (DECORATIONS C) ->
  exists o, grownBy C TDecoration s (addDecoration C def gX gY skip s) o.
Proof.
  intros Hin. unfold addDecoration, alloc. cbv zeta.
  set (o := {| id := _; gridX := gX |}). exists o.
  set (s1 := set_placedDecorations _ _).
  assert (H1 : grownBy C TDecoration s s1 o).
  { split; [reflexivity|]. split; [intros []; reflexivity|].
    split; [intros []; reflexivity|].
    exists (def_id def). split; [apply in_map, Hin|reflexivity]. }
  destruct skip; [exact H1|].
  exact (grownBy_sameStore C _ s s1 _ o H1 (sameStore_updateURL C s1)
           (proj1 (fields_updateURL C s1))).
Qed.

Lemma grownBy_addEnclosure (C : catalogs) (gX gY w h : jsnum) (s : state) :
  addEnclosure C gX gY w h s = s \/
  exists o, grownBy C TEnclosure s (addEnclosure C gX gY w h s) o.
Proof.
  unfold addEnclosure.
  destruct (negb (isSelected (selectedAnimal s))); [left; reflexivity|].
  destruct (setHas (usedAnimals s) (selectedAnimal s)); [left; reflexivity|].
  right. unfold alloc. cbv zeta.
  set (o := {| id := _; gridX := gX |}). exists o.
  set (s1 := set_enclosures _ _).
  assert (H1 : grownBy C TEnclosure s s1 o).
  { split; [reflexivity|]. split; [intros []; reflexivity|].
    split; [intros []; reflexivity|].
    exists "enclosure". split; [left; reflexivity|reflexivity]. }
  apply (grownBy_sameStore C _ s (renderAnimalList C s1)).
  - exact (grownBy_sameStore C _ s s1 _ o H1 (sameStore_renderAnimalList C s1)
             (proj1 (fields_renderAnimalList C s1))).
  - apply sameStore_updateURL.
  - apply fields_updateURL.
Qed.

Lemma handleGridDrop_result (C : catalogs) (itemId : string) (e : mouseEvent) (s : state) :
  handleGridDrop C itemId e s = s \/
  (exists item gX gY, In item (BUILDINGS C) /\
                      handleGridDrop C itemId e s = addBuilding C item gX gY false s) \/
  (exists item gX gY, In item (DECORATIONS C) /\
                      handleGridDrop C itemId e s = addDecoration C item gX gY false s).
Proof.
  unfold handleGridDrop. destruct (negb (truthy itemId)); [left; reflexivity|].
  destruct (find _ (BUILDINGS C)) as [item|] eqn:Eb.
  - cbv zeta. apply find_some in Eb. destruct Eb as [Hin _]. cbn [negb andb].
    destruct (negb _ && existsb _ _); [left; reflexivity|].
    destruct (_ && _ && negb (checkOverlap _ _ _ _ _ _)); [|left; reflexivity].
    right. left. eexists. eexists. eexists. split; [exact Hin|reflexivity].
  - destruct (find _ (DECORATIONS C)) as [item|] eqn:Ed; [|left; reflexivity].
    cbv zeta. apply find_some in Ed. destruct Ed as [Hin _]. cbn [negb andb].
    destruct (_ && _ && negb (checkOverlap _ _ _ _ _ _)); [|left; reflexivity].
    right. right. eexists. eexists. eexists. split; [exact Hin|reflexivity].
Qed.

Lemma sameCounters_release (C : catalogs) (e : mouseEvent) (s : state) :
  resizingEnclosure s <> None \/ movingItem s <> None ->
  sameCounters s (handleGridMouseUp C e s).
Proof.
  intros Hg. unfold handleGridMouseUp.
  destruct (resizingEnclosure s) as [resize|].
  - destruct (barelyMoved e s); repeat split.
  - destruct (movingItem s) as [m|]; [|destruct Hg; contradiction].
    destruct (barelyMoved e s); [repeat split|]. cbv zeta.
    match goal with
    | |- context [updateURL C ?t] => destruct (fields_updateURL C t) as ((A & B & D) & _)
    end.
    destruct (negb _ || _); repeat split; assumption.
Qed.

Lemma wellNumbered_handleGridMouseUp (C : catalogs) (e : mouseEvent) (s : state) :
  separateCatalogs C -> wellNumbered C s -> wellNumbered C (handleGridMouseUp C e s).
Proof.
  intros Hsep Hw.
  destruct (resizingEnclosure s) as [resize|] eqn:Er.
  { apply (wellNumbered_frame C s); [| |exact Hw].
    - apply frame_release_gesture. left. congruence.
    - apply sameCounters_release. left. congruence. }
  destruct (movingItem s) as [m|] eqn:Em.
  { apply (wellNumbered_frame C s); [| |exact Hw].
    - apply frame_release_gesture. right. congruence.
    - apply sameCounters_release. right. congruence. }
  unfold handleGridMouseUp. rewrite Er, Em.
  destruct (drawing s) as [d|]; [|exact Hw]. cbv zeta.
  destruct (_ && _ && negb (checkOverlap _ _ _ _ _ _)).
  - match goal with |- wellNumbered C (set_drawing None ?t) => set (s1 := t) end.
    apply (wellNumbered_sameStore C s1); [repeat split|repeat split|].
    subst s1.
    destruct (grownBy_addEnclosure C (Num (Z.min (startX d) (currentX d)))
                (Num (Z.min (startY d) (currentY d)))
                (Num (Z.abs (currentX d - startX d) + 1))
                (Num (Z.abs (currentY d - startY d) + 1)) s) as [->|(o & Hg)]; [exact Hw|].
    exact (wellNumbered_grown C _ s _ o Hsep Hg Hw).
  - apply (wellNumbered_sameStore C s); [repeat split|repeat split|exact Hw].
Qed.

Lemma wellNumbered_runAction (C : catalogs) (a : action) (s : state) :
  wellNumbered C s -> wellNumbered C (runAction C a s).
Proof.
  intros Hw. destruct a as [i|i|i|]; cbn [runAction].
  - exact (wellNumbered_shrunk C s _ (proj1 (shrunk_deleteEnclosure C i s))
             (proj1 (fields_deleteEnclosure C i s)) Hw).
  - exact (wellNumbered_shrunk C s _ (proj1 (shrunk_deleteDecoration C i s))
             (proj1 (fields_deleteDecoration C i s)) Hw).
  - exact (wellNumbered_shrunk C s _ (proj1 (shrunk_deleteBuilding C i s))
             (proj1 (fields_deleteBuilding C i s)) Hw).
  - match goal with
    | |- wellNumbered C (set_urlZ None (renderAnimalList C ?t)) =>
        destruct (sameStore_renderAnimalList C t) as (_ & Hb & Hd & He)
    end.
    apply wellNumbered_empty; assumption.
Qed.

(** Every handler keeps the ids distinct and numbered. *)
Lemma wellNumbered_handle (C : catalogs) (ev : event) (s : state) :
  separateCatalogs C -> wellNumbered C s -> wellNumbered C (handle C ev s).
Proof.
  intros Hsep Hw.
  destruct ev as [itemId e|e|e|e|a|a|t| |t| |k|k]; cbn [handle].
  - destruct (handleGridDrop_result C itemId e s)
      as [->|[(item & gX & gY & Hin & ->)|(item & gX & gY & Hin & ->)]]; [exact Hw| |].
    + destruct (grownBy_addBuilding C item gX gY false s Hin) as (o & Hg).
      exact (wellNumbered_grown C _ s _ o Hsep Hg Hw).
    + destruct (grownBy_addDecoration C item gX gY false s Hin) as (o & Hg).
      exact (wellNumbered_grown C _ s _ o Hsep Hg Hw).
  - exact (wellNumbered_frame C s _ (frame_handleGridMouseDown e s)
             (sameCounters_handleGridMouseDown e s) Hw).
  - exact (wellNumbered_frame C s _ (frame_handleGridMouseMove C e s)
             (proj1 (fields_handleGridMouseMove C e s)) Hw).
  - exact (wellNumbered_handleGridMouseUp C e s Hsep Hw).
  - exact (wellNumbered_sameStore C s _ (sameStore_selectAnimal a s)
             (proj1 (fields_selectAnimal a s)) Hw).
  - unfold deleteEnclosureByAnimal. destruct (find _ _) as [enc|]; [|exact Hw].
    exact (wellNumbered_shrunk C s _ (proj1 (shrunk_deleteEnclosure C (id enc) s))
             (proj1 (fields_deleteEnclosure C (id enc) s)) Hw).
  - unfold deleteBuildingByType. destruct (find _ _) as [b|]; [|exact Hw].
    exact (wellNumbered_shrunk C s _ (proj1 (shrunk_deleteBuilding C (id b) s))
             (proj1 (fields_deleteBuilding C (id b) s)) Hw).
  - unfold deleteAllRestrooms. cbv zeta.
    match goal with |- wellNumbered C (updateURL C ?t) => set (s1 := t) end.
    apply (wellNumbered_sameStore C s1);
      [apply sameStore_updateURL|apply fields_updateURL|].
    apply (wellNumbered_shrunk C s); [|repeat split|exact Hw].
    repeat split; try reflexivity. apply filterRefs_sublist.
  - unfold deleteAllDecorationType. cbv zeta.
    match goal with |- wellNumbered C (updateURL C ?t) => set (s1 := t) end.
    apply (wellNumbered_sameStore C s1);
      [apply sameStore_updateURL|apply fields_updateURL|].
    apply (wellNumbered_shrunk C s); [|repeat split|exact Hw].
    repeat split; try reflexivity. apply filterRefs_sublist.
  - apply (wellNumbered_sameStore C s); [repeat split|repeat split|exact Hw].
  - unfold confirmYes. destruct (dialogs s !! k) as [a|]; [|exact Hw].
    apply wellNumbered_runAction.
    apply (wellNumbered_sameStore C s); [repeat split|repeat split|exact Hw].
  - apply (wellNumbered_sameStore C s); [repeat split|repeat split|exact Hw].
Qed.

Lemma fold_left_invariant {A : Type} (P : state -> Prop) (f : state -> A -> state)
    (l : list A) :
  (forall s a, P s -> P (f s a)) -> forall s, P s -> P (fold_left f l s).
Proof.
  intros Hstep. induction l as [|a l IH]; intros s Hs; [exact Hs|].
  simpl. apply IH, Hstep, Hs.
Qed.

Lemma wellNumbered_run (C : catalogs) (evs : list event) (s : state) :
  separateCatalogs C -> wellNumbered C s -> wellNumbered C (run C evs s).
Proof.
  intros Hsep. unfold run. apply fold_left_invariant.
  intros s' ev. apply wellNumbered_handle, Hsep.
Qed.

Lemma atIndex_In {A : Type} (l : list A) (i : jsnum) (a : A) : atIndex l i = Some a -> In a l.
Proof.
  destruct i as [z|]; simpl; [|discriminate]. destruct (z <? 0); [discriminate|].
  intros H. apply list_elem_of_In. exact (list_elem_of_lookup_2 _ _ _ H).
Qed.

Lemma wellNumbered_loadEnclosure (C : catalogs) (s : state) (d : enclosureData) :
  separateCatalogs C -> wellNumbered C s -> wellNumbered C (loadEnclosure C s d).
Proof.
  intros Hsep Hw. unfold loadEnclosure. cbv zeta.
  destruct (atIndex _ _) as [a|].
  - unfold alloc. cbv zeta. set (o := {| id := _; gridX := e_x d |}).
    apply (wellNumbered_grown C TEnclosure s _ o Hsep); [|exact Hw].
    split; [reflexivity|]. split; [intros []; reflexivity|].
    split; [intros []; reflexivity|].
    exists "enclosure". split; [left; reflexivity|reflexivity].
  - destruct Hw as (V & U & N). split; [exact V|]. split; [exact U|].
    destruct N as (Nb & Nd & Ne). split; [exact Nb|]. split; [exact Nd|].
    revert Ne. apply List.Forall_impl. intros o. apply numbered_mono.
    change (nextEnclosureId (set_nextEnclosureId ?n s)) with n. lia.
Qed.

(** Loading numbers the objects like the handlers do. *)
Lemma wellNumbered_init (C : catalogs) (encoded : option string) :
  separateCatalogs C -> wellNumbered C (init C encoded).
Proof.
  intros Hsep. unfold init.
  set (s0 := renderAnimalList C initialState).
  assert (H0 : wellNumbered C s0).
  { destruct (sameStore_renderAnimalList C initialState) as (_ & Hb & Hd & He).
    apply wellNumbered_empty; assumption. }
  unfold loadFromURL. destruct encoded as [str|]; [|exact H0].
  destruct (negb (truthy str)); [exact H0|].
  destruct (decodeZooState (Some str)) as [data|]; [|exact H0].
  cbv zeta. cbn [snd].
  match goal with |- wellNumbered C (updateURL C ?t) => set (s3 := t) end.
  apply (wellNumbered_sameStore C s3); [apply sameStore_updateURL|apply fields_updateURL|].
  assert (H1 : wellNumbered C (fold_left (loadBuilding C) (d_buildings data) s0)).
  { revert H0. apply fold_left_invariant. intros s d Hw. unfold loadBuilding.
    destruct (atIndex _ _) as [def|] eqn:E; [|exact Hw].
    destruct (grownBy_addBuilding C def (i_x d) (i_y d) true s (atIndex_In _ _ _ E))
      as (o & Hg).
    exact (wellNumbered_grown C _ s _ o Hsep Hg Hw). }
  set (s1 := fold_left (loadBuilding C) _ s0) in *.
  assert (H2 : wellNumbered C (fold_left (loadDecoration C) (d_decorations data) s1)).
  { revert H1. apply fold_left_invariant. intros s d Hw. unfold loadDecoration.
    destruct (atIndex _ _) as [def|] eqn:E; [|exact Hw].
    destruct (grownBy_addDecoration C def (i_x d) (i_y d) true s (atIndex_In _ _ _ E))
      as (o & Hg).
    exact (wellNumbered_grown C _ s _ o Hsep Hg Hw). }
  set (s2 := fold_left (loadDecoration C) _ s1) in *.
  subst s3. destruct (d_enclosures data) as [|d l]; [exact H2|].
  match goal with |- wellNumbered C (renderAnimalList C ?t) => set (s3 := t) end.
  apply (wellNumbered_sameStore C s3);
    [apply sameStore_renderAnimalList|apply fields_renderAnimalList|].
  subst s3. revert H2. apply fold_left_invariant.
  intros s d' Hw. apply wellNumbered_loadEnclosure; assumption.
Qed.

(** Whatever URL the page is opened with and whatever events follow, no
    two stored objects have the same id, provided no type name is shared
    by the two catalogs or is ["enclosure"]: every id is made of a type
    name and of a counter that only grows while its collection is not
    empty. *)
Theorem reachable_unique_ids (C : catalogs) (encoded : option string) (evs : list event) :
  separateCatalogs C -> uniqueIds (run C evs (init C encoded)).
Proof.
  intros Hsep.
  exact (proj1 (proj2 (wellNumbered_run C evs _ Hsep (wellNumbered_init C encoded Hsep)))).
Qed.

(* --------------------------------------------------------------------- *)
(** ** Sessions                                                           *)
(* --------------------------------------------------------------------- *)

Lemma sameGesture_addBuilding (C : catalogs) (def : itemDef) (gX gY : jsnum) (skip : bool)
    (s : state) :
  sameGesture s (addBuilding C def gX gY skip s).
Proof.
  unfold addBuilding, alloc. cbv zeta. destruct skip; [repeat split|].
  match goal with
  | |- context [updateURL C ?t] => destruct (fields_updateURL C t) as (_ & G1 & G2)
  end.
  split; assumption.
Qed.

Lemma sameGesture_addDecoration (C : catalogs) (def : itemDef) (gX gY : jsnum) (skip : bool)
    (s : state) :
  sameGesture s (addDecoration C def gX gY skip s).
Proof.
  unfold addDecoration, alloc. cbv zeta. destruct skip; [repeat split|].
  match goal with
  | |- context [updateURL C ?t] => destruct (fields_updateURL C t) as (_ & G1 & G2)
  end.
  split; assumption.
Qed.

Lemma sameGesture_addEnclosure (C : catalogs) (gX gY w h : jsnum) (s : state) :
  sameGesture s (addEnclosure C gX gY w h s).
Proof.
  unfold addEnclosure.
  destruct (negb _); [repeat split|]. destruct (setHas _ _); [repeat split|].
  unfold alloc. cbv zeta.
  match goal with |- context [renderAnimalList C ?t] => set (s1 := t) end.
  destruct (fields_renderAnimalList C s1) as (_ & G1 & G2).
  destruct (fields_updateURL C (renderAnimalList C s1)) as (_ & G1' & G2').
  split; [rewrite G1', G1|rewrite G2', G2]; reflexivity.
Qed.

Lemma sameGesture_runAction (C : catalogs) (a : action) (s : state) :
  sameGesture s (runAction C a s).
Proof.
  destruct a as [i|i|i|]; cbn [runAction].
  - apply fields_deleteEnclosure.
  - apply fields_deleteDecoration.
  - apply fields_deleteBuilding.
  - match goal with
    | |- context [renderAnimalList C ?t] =>
        destruct (fields_renderAnimalList C t) as (_ & G1 & G2)
    end.
    split; assumption.
Qed.

(** The events that are not pointer events on the grid leave a gesture
    alone. *)
Lemma sameGesture_single (C : catalogs) (ev : event) (s : state) :
  pointerEvent ev = false -> sameGesture s (handle C ev s).
Proof.
  destruct ev as [itemId e|e|e|e|a|a|t| |t| |k|k]; cbn [handle pointerEvent];
    try discriminate; intros _.
  - destruct (handleGridDrop_result C itemId e s)
      as [->|[(item & gX & gY & _ & ->)|(item & gX & gY & _ & ->)]].
    + apply sameGesture_refl.
    + apply sameGesture_addBuilding.
    + apply sameGesture_addDecoration.
  - apply fields_selectAnimal.
  - unfold deleteEnclosureByAnimal. destruct (find _ _); [|apply sameGesture_refl].
    apply fields_deleteEnclosure.
  - unfold deleteBuildingByType. destruct (find _ _); [|apply sameGesture_refl].
    apply fields_deleteBuilding.
  - unfold deleteAllRestrooms. cbv zeta.
    match goal with
    | |- context [updateURL C ?t] => destruct (fields_updateURL C t) as (_ & G1 & G2)
    end.
    split; assumption.
  - unfold deleteAllDecorationType. cbv zeta.
    match goal with
    | |- context [updateURL C ?t] => destruct (fields_updateURL C t) as (_ & G1 & G2)
    end.
    split; assumption.
  - repeat split.
  - unfold confirmYes. destruct (dialogs s !! k) as [a|]; [|apply sameGesture_refl].
    match goal with
    | |- sameGesture s (runAction C a ?t) => destruct (sameGesture_runAction C a t) as (G1 & G2)
    end.
    split; assumption.
  - repeat split.
Qed.

(** A release ends whatever gesture is going on. *)
Lemma release_idle (C : catalogs) (e : mouseEvent) (s : state) :
  resizingEnclosure s = None \/ movingItem s = None -> idle (handleGridMouseUp C e s).
Proof.
  intros Hg. unfold handleGridMouseUp.
  destruct (resizingEnclosure s) as [resize|] eqn:Er.
  - destruct Hg as [Hg|Hm]; [discriminate Hg|].
    destruct (barelyMoved e s); split; try reflexivity; exact Hm.
  - destruct (movingItem s) as [m|] eqn:Em.
    + destruct (barelyMoved e s); [split; [exact Er|reflexivity]|]. cbv zeta.
      match goal with
      | |- context [updateURL C ?t] => destruct (fields_updateURL C t) as (_ & G1 & _)
      end.
      split; [|reflexivity].
      change (resizingEnclosure (set_moveStartPos None (set_movingItem None ?t)))
        with (resizingEnclosure t).
      rewrite G1. destruct (negb _ || _); exact Er.
    + destruct (drawing s) as [d|]; [|split; assumption]. cbv zeta.
      destruct (_ && _ && negb (checkOverlap _ _ _ _ _ _)); [|split; assumption].
      match goal with
      | |- idle (set_drawing None (addEnclosure C ?x ?y ?w ?h s)) =>
          destruct (sameGesture_addEnclosure C x y w h s) as (G1 & G2)
      end.
      split; [rewrite <- Er|rewrite <- Em]; assumption.
Qed.

Lemma press_starts_one (e : mouseEvent) (s : state) :
  idle s ->
  resizingEnclosure (handleGridMouseDown e s) = None \/
  movingItem (handleGridMouseDown e s) = None.
Proof.
  intros (Hr & Hm).
  destruct (handleGridMouseDown_cases e s)
    as [(r & edge & _ & ->)|[(t & i & r & _ & _ & ->)|[(d & ->)| ->]]].
  - right. exact Hm.
  - left. exact Hr.
  - left. exact Hr.
  - left. exact Hr.
Qed.

(** After a complete gesture no move and no resize is going on. *)
Lemma gesture_ends_idle (C : catalogs) (e0 : mouseEvent) (moves : list mouseEvent)
    (e1 : mouseEvent) (s : state) :
  idle s -> idle (run C (gesture e0 moves e1) s).
Proof.
  intros Hi. rewrite run_gesture. apply release_idle.
  pose proof (press_starts_one e0 s Hi) as H1.
  set (s1 := handleGridMouseDown e0 s) in *.
  assert (H2 : sameGesture s1 (run C (map MouseMove moves) s1)).
  { apply (fold_moves (P := sameGesture s1) C moves); [|apply sameGesture_refl].
    intros e t Ht. exact (sameGesture_trans s1 t _ Ht (proj2 (fields_handleGridMouseMove C e t))). }
  destruct H2 as (G1 & G2). rewrite G1, G2. exact H1.
Qed.


Lemma run_app (C : catalogs) (evs1 evs2 : list event) (s : state) :
  run C (evs1 ++ evs2) s = run C evs2 (run C evs1 s).
Proof. unfold run. apply fold_left_app. Qed.



Lemma sampleCatalogs_separate : separateCatalogs sampleCatalogs.
Proof.
  split.
  - intros b d Hb Hd. simpl in Hb, Hd.
    decompose [or] Hb; decompose [or] Hd; subst; try contradiction; discriminate.
  - intros b Hb. simpl in Hb. decompose [or] Hb; subst; try contradiction; discriminate.
Qed.

Lemma reachable_unique_ids_witness :
  uniqueIds (run sampleCatalogs [Drop "restaurant" (pointerAt 305 405)]
               (init sampleCatalogs (Some "000055..0aa110kk11"))).
Proof. exact (reachable_unique_ids sampleCatalogs _ _ sampleCatalogs_separate). Defined.


(* --------------------------------------------------------------------- *)
(** ** One building per type                                              *)
(* --------------------------------------------------------------------- *)

Lemma loneTypes_sublist (l1 l2 : list string) :
  sublist l1 l2 -> loneTypes l2 -> loneTypes l1.
Proof.
  induction 1 as [|x l1 l2 Hs IH|x l1 l2 Hs IH]; simpl; [tauto| |].
  - intros [Hx H2]. split; [|apply IH; exact H2].
    intros b Hb. apply Hx. eapply sublist_In; eassumption.
  - intros [_ H2]. apply IH. exact H2.
Qed.

Lemma loneTypes_snoc (l : list string) (a : string) :
  loneTypes l ->
  (forall b, In b l -> typeIdOf b = typeIdOf a -> typeIdOf a = "restroom") ->
  loneTypes (l ++ [a]).
Proof.
  induction l as [|x l IH]; simpl; intros Hl Ha.
  - split; [intros b []|exact I].
  - destruct Hl as [Hx Hl]. split.
    + intros b Hb E. apply in_app_iff in Hb. destruct Hb as [Hb|[<-|[]]].
      * exact (Hx b Hb E).
      * rewrite E. apply (Ha x); [left; reflexivity|exact E].
    + apply IH; [exact Hl|]. intros b Hb. apply Ha. right. exact Hb.
Qed.

Lemma loneTypes_lookup (l : list string) :
  loneTypes l <->
  forall (i j : nat) (a b : string),
    i <> j -> l !! i = Some a -> l !! j = Some b ->
    typeIdOf a = typeIdOf b -> typeIdOf a = "restroom".
Proof.
  induction l as [|x l IH].
  - split; [intros _ i j a b _ H; destruct i; discriminate H|intros _; exact I].
  - simpl. rewrite IH. split.
    + intros [Hx Hl] i j a b Hne Hi Hj E.
      destruct i as [|i], j as [|j]; simpl in Hi, Hj.
      * contradiction.
      * injection Hi as <-. apply (Hx b); [|exact E].
        apply list_elem_of_In, list_elem_of_lookup. eauto.
      * injection Hj as <-. rewrite E. apply (Hx a); [|symmetry; exact E].
        apply list_elem_of_In, list_elem_of_lookup. eauto.
      * apply (Hl i j a b); [congruence|assumption|assumption|exact E].
    + intros H. split.
      * intros b Hb. apply list_elem_of_In, list_elem_of_lookup in Hb.
        destruct Hb as [j Hj]. apply (H 0%nat (S j)); [discriminate|reflexivity|exact Hj].
      * intros i j a b Hne Hi Hj. apply (H (S i) (S j)); [congruence|exact Hi|exact Hj].
Qed.

Lemma uniqueBuildings_loneTypes (s : state) :
  uniqueBuildings s <-> loneTypes (map id (buildingsOf s)).
Proof.
  rewrite loneTypes_lookup. unfold uniqueBuildings. split.
  - intros H i j a b Hne Hi Hj. rewrite lookup_map in Hi, Hj.
    destruct (buildingsOf s !! i) as [b1|] eqn:E1; [|discriminate].
    destruct (buildingsOf s !! j) as [b2|] eqn:E2; [|discriminate].
    injection Hi as <-. injection Hj as <-. exact (H i j b1 b2 Hne E1 E2).
  - intros H i j b1 b2 Hne E1 E2.
    apply (H i j); [exact Hne|rewrite lookup_map, E1|rewrite lookup_map, E2]; reflexivity.
Qed.

Lemma typeIdOf_noDash (t rest : string) : noDash t -> typeIdOf (t +:+ "-" +:+ rest) = t.
Proof.
  induction t as [|c t IH]; [reflexivity|]. intros [Hc Ht].
  rewrite app_cons, typeIdOf_cons.
  destruct (Ascii.eqb_spec c "-"%char) as [E|_]; [contradiction|].
  rewrite (IH Ht). reflexivity.
Qed.

Lemma prefix_app (x r : string) : String.prefix x (x +:+ r) = true.
Proof.
  induction x as [|c x IH]; [destruct r; reflexivity|].
  rewrite app_cons. simpl. destruct (ascii_dec c c) as [_|Hne]; [exact IH|contradiction].
Qed.

Lemma includes_app (x r : string) : includes (x +:+ r) x = true.
Proof.
  pose proof (prefix_app x r) as H. destruct (x +:+ r) as [|a t].
  - change (includes "" x) with (String.prefix x "" || false). rewrite H. reflexivity.
  - change (includes (String a t) x) with (String.prefix x (String a t) || includes t x).
    rewrite H. reflexivity.
Qed.

(** What an event that is not a drop does to the store. *)
Lemma nondrop_kinds (C : catalogs) (ev : event) (s : state) :
  (forall itemId e, ev <> Drop itemId e) ->
  frame s (handle C ev s) \/ shrunk s (handle C ev s) \/
  exists o, grownBy C TEnclosure s (handle C ev s) o.
Proof.
  intros Hd. destruct ev as [itemId e|e|e|e|a|a|t| |t| |k|k]; cbn [handle].
  - exfalso. exact (Hd itemId e eq_refl).
  - left. apply frame_handleGridMouseDown.
  - left. apply frame_handleGridMouseMove.
  - destruct (resizingEnclosure s) as [resize|] eqn:Er.
    { left. apply frame_release_gesture. left. congruence. }
    destruct (movingItem s) as [m|] eqn:Em.
    { left. apply frame_release_gesture. right. congruence. }
    unfold handleGridMouseUp. rewrite Er, Em.
    destruct (drawing s) as [d|]; [|left; apply frame_refl]. cbv zeta.
    destruct (_ && _ && negb (checkOverlap _ _ _ _ _ _)); [|left; repeat split].
    destruct (grownBy_addEnclosure C (Num (Z.min (startX d) (currentX d)))
                (Num (Z.min (startY d) (currentY d)))
                (Num (Z.abs (currentX d - startX d) + 1))
                (Num (Z.abs (currentY d - startY d) + 1)) s) as [->|(o & Hg)];
      [left; repeat split|].
    right. right. exists o.
    refine (grownBy_sameStore C _ s _ _ o Hg _ _); repeat split.
  - right. left. apply sameStore_shrunk, sameStore_selectAnimal.
  - right. left. unfold deleteEnclosureByAnimal.
    destruct (find _ _) as [enc|]; [|apply shrunk_refl]. apply shrunk_deleteEnclosure.
  - right. left. unfold deleteBuildingByType.
    destruct (find _ _) as [b|]; [|apply shrunk_refl]. apply shrunk_deleteBuilding.
  - right. left. unfold deleteAllRestrooms.
    eapply shrunk_trans_sameStore; [|apply sameStore_updateURL].
    repeat split; try reflexivity. apply filterRefs_sublist.
  - right. left. unfold deleteAllDecorationType.
    eapply shrunk_trans_sameStore; [|apply sameStore_updateURL].
    repeat split; try reflexivity. apply filterRefs_sublist.
  - left. repeat split.
  - right. left. unfold confirmYes. destruct (dialogs s !! k) as [a|]; [|apply shrunk_refl].
    match goal with
    | |- shrunk s (runAction C a ?t) => destruct (shrunk_runAction C a t) as ((Hh & Hb & Hd' & He) & _)
    end.
    repeat split; assumption.
  - left. repeat split.
Qed.

Lemma buildingIds_kept (C : catalogs) (s s' : state) :
  validRefs s ->
  frame s s' \/ shrunk s s' \/ (exists o, grownBy C TEnclosure s s' o) ->
  sublist (map id (buildingsOf s')) (map id (buildingsOf s)).
Proof.
  intros Hv [Hf|[Hs|(o & Hh & Hr & _)]].
  - destruct Hf as ((Hb & _) & _ & Ho & _). unfold buildingsOf.
    rewrite Hb, !map_map.
    replace (map (fun x => id (deref s' x)) (placedBuildings s))
      with (map (fun x => id (deref s x)) (placedBuildings s)); [reflexivity|].
    apply map_ext. intros l. symmetry. apply Ho.
  - destruct Hs as (Hh & Hb & _). unfold buildingsOf, deref. rewrite Hh.
    apply sublist_map, sublist_map, Hb.
  - destruct (grown_collections s s' o Hh Hv) as (Gb & _).
    pose proof (Hr TBuilding) as Hb. cbn [itemTypeEq refsIn] in Hb.
    unfold buildingsOf at 1. rewrite Hb, Gb. reflexivity.
Qed.

(** Every handler keeps at most one building per type, restrooms apart,
    when the buildings were placed by the handlers. *)
Lemma handle_keeps_buildings (C : catalogs) (ev : event) (s : state) :
  dashFree C -> validRefs s ->
  loneTypes (map id (buildingsOf s)) /\ Forall (buildingId C) (map id (buildingsOf s)) ->
  loneTypes (map id (buildingsOf (handle C ev s))) /\
  Forall (buildingId C) (map id (buildingsOf (handle C ev s))).
Proof.
  intros Hdash Hv (Hl & Ht).
  assert (Hsub : forall s', sublist (map id (buildingsOf s')) (map id (buildingsOf s)) ->
            loneTypes (map id (buildingsOf s')) /\ Forall (buildingId C) (map id (buildingsOf s'))).
  { intros s' Hs. split; [exact (loneTypes_sublist _ _ Hs Hl)|].
    apply List.Forall_forall. intros i Hi. rewrite List.Forall_forall in Ht.
    apply Ht. eapply sublist_In; eassumption. }
  destruct ev as [itemId e| | | | | | | | | | | ];
    try (apply Hsub, (buildingIds_kept C _ _ Hv), nondrop_kinds; discriminate).
  cbn [handle].
  destruct (handleGridDrop_cases C itemId e s)
    as [->|(item & isDecoration & n & Hcase)]; [split; assumption|].
  cbv zeta in Hcase. destruct Hcase as (_ & Hkind & _ & _ & _ & Hadd).
  destruct Hadd as (Hh & Hc & _ & _).
  set (s' := handleGridDrop C itemId e s) in *.
  match type of Hh with heap s' = heap s ++ [?x] => set (o := x) in * end.
  destruct (grown_collections s s' o Hh Hv) as (Gb & _ & _ & Gn).
  destruct isDecoration; cbn [negb] in Hc.
  - destruct Hc as [Hb _]. apply Hsub. unfold buildingsOf at 1. rewrite Hb, Gb. reflexivity.
  - destruct Hc as [Hb _]. destruct Hkind as (Hin & _ & Hfree).
    assert (Hids : map id (buildingsOf s')
                   = map id (buildingsOf s) ++ [def_id item +:+ "-" +:+ decimal n]).
    { unfold buildingsOf at 1. rewrite Hb, !map_app, Gb. cbn [map]. rewrite Gn. reflexivity. }
    rewrite Hids. split.
    + apply loneTypes_snoc; [exact Hl|]. intros b Hb' E.
      rewrite (typeIdOf_noDash _ _ (Hdash item Hin)) in *.
      destruct Hfree as [Hr|Hfree]; [exact Hr|]. exfalso.
      rewrite List.Forall_forall in Ht. destruct (Ht b Hb') as (t & k & Hin' & ->).
      apply in_map_iff in Hin'. destruct Hin' as (def & <- & Hdef).
      rewrite (typeIdOf_noDash _ _ (Hdash def Hdef)) in E.
      apply in_map_iff in Hb'. destruct Hb' as (b0 & Eb0 & Hb0).
      specialize (Hfree b0 Hb0). rewrite Eb0, E, includes_app in Hfree. discriminate Hfree.
    + apply Forall_app. split; [exact Ht|]. apply Forall_singleton.
      exists (def_id item), (decimal n). split; [apply in_map, Hin|reflexivity].
Qed.

Lemma run_uniqueBuildings (C : catalogs) (evs : list event) :
  dashFree C -> uniqueBuildings (run C evs (init C None)).
Proof.
  intros Hdash. apply uniqueBuildings_loneTypes.
  assert (H : validRefs (run C evs (init C None)) /\
              loneTypes (map id (buildingsOf (run C evs (init C None)))) /\
              Forall (buildingId C) (map id (buildingsOf (run C evs (init C None))))).
  { unfold run.
    apply (fold_left_invariant
             (fun s => validRefs s /\ loneTypes (map id (buildingsOf s)) /\
                       Forall (buildingId C) (map id (buildingsOf s)))).
    - intros s ev (Hv & Hl). split; [exact (proj1 (keeps_handle C ev s Hv))|].
      apply handle_keeps_buildings; assumption.
    - split; [exact (proj1 (init_wellformed C None))|].
      unfold init, loadFromURL. cbn [snd]. unfold buildingsOf.
      destruct (sameStore_renderAnimalList C initialState) as (_ & -> & _).
      split; [exact I|constructor]. }
  tauto.
Qed.

Lemma sampleCatalogs_dashFree : dashFree sampleCatalogs.
Proof.
  intros b Hb. simpl in Hb. decompose [or] Hb; subst; try contradiction;
    simpl; repeat split; discriminate.
Qed.

(** When the page is opened without saved state and no id of the buildings
    catalog contains a dash, no sequence of events places two buildings of
    one catalog entry, restrooms apart: two distinct placed buildings whose
    ids are the id of the same entry followed by a dash and a suffix are
    restrooms. *)
Theorem interactive_unique_buildings (C : catalogs) (evs : list event)
    (i j : nat) (b1 b2 : entity) (def : itemDef) (n1 n2 : string) :
  dashFree C ->
  i <> j ->
  buildingsOf (run C evs (init C None)) !! i = Some b1 ->
  buildingsOf (run C evs (init C None)) !! j = Some b2 ->
  In def (BUILDINGS C) ->
  id b1 = def_id def +:+ "-" +:+ n1 -> id b2 = def_id def +:+ "-" +:+ n2 ->
  def_id def = "restroom".
Proof.
  intros Hdash Hij H1 H2 Hdef E1 E2.
  pose proof (typeIdOf_noDash _ n1 (Hdash def Hdef)) as T1.
  pose proof (typeIdOf_noDash _ n2 (Hdash def Hdef)) as T2.
  rewrite <- E1 in T1. rewrite <- E2 in T2.
  rewrite <- T1.
  apply (run_uniqueBuildings C evs Hdash i j b1 b2 Hij H1 H2). congruence.
Qed.

(** Of two gift shops and two restrooms dropped on free cells, the second
    gift shop is refused. *)
Example second_giftshop_refused :
  map id (buildingsOf (run sampleCatalogs
                         [Drop "giftshop" (pointerAt 5 5); Drop "giftshop" (pointerAt 205 205);
                          Drop "restroom" (pointerAt 305 5); Drop "restroom" (pointerAt 405 5)]
                         (init sampleCatalogs None)))
  = ["giftshop-1"; "restroom-2"; "restroom-3"].
Proof. vm_compute. reflexivity. Qed.

Lemma interactive_unique_buildings_witness :
  def_id {| def_id := "restroom"; def_width := Num 1; def_height := Num 1 |} = "restroom".
Proof.
  apply (interactive_unique_buildings sampleCatalogs
           [Drop "giftshop" (pointerAt 5 5); Drop "giftshop" (pointerAt 205 205);
            Drop "restroom" (pointerAt 305 5); Drop "restroom" (pointerAt 405 5)]
           1%nat 2%nat
           {| id := "restroom-2"; gridX := Num 15; gridY := Num 0;
              width := Num 1; height := Num 1; animal := None |}
           {| id := "restroom-3"; gridX := Num 20; gridY := Num 0;
              width := Num 1; height := Num 1; animal := None |}
           _ "2" "3" sampleCatalogs_dashFree).
  - discriminate.
  - vm_compute. reflexivity.
  - vm_compute. reflexivity.
  - simpl. tauto.
  - reflexivity.
  - reflexivity.
Defined.

(* --------------------------------------------------------------------- *)
(** ** Inside the grid                                                    *)
(* --------------------------------------------------------------------- *)

Lemma inGrid_bounds (o : entity) :
  inGrid o <->
  exists x y w h,
    occupies o {| rx := x; ry := y; rw := w; rh := h |} /\
    0 <= x /\ 0 <= y /\ x + w <= GRID_SIZE /\ y + h <= GRID_SIZE.
Proof.
  unfold inGrid, fitsInGrid, occupies, jge, GRID_SIZE.
  destruct o as [i [x|] [y|] [w|] [h|] an]; simpl; split;
    try discriminate;
    try (intros (x' & y' & w' & h' & (H1 & H2 & H3 & H4) & _); discriminate);
    try (rewrite ?andb_false_r; discriminate).
  - rewrite !andb_true_iff, !Z.leb_le. intros H. exists x, y, w, h. repeat split; lia.
  - intros (x' & y' & w' & h' & (H1 & H2 & H3 & H4) & Hb).
    injection H1 as ->. injection H2 as ->. injection H3 as ->. injection H4 as ->.
    rewrite !andb_true_iff, !Z.leb_le. lia.
Qed.

Lemma inGrid_integral (o : entity) : inGrid o -> integral o.
Proof.
  intros H. apply inGrid_bounds in H.
  destruct H as (x & y & w & h & (H1 & H2 & H3 & H4) & _).
  unfold integral. rewrite H1, H2, H3, H4. repeat split.
Qed.

Lemma allInGrid_sameStore (s s' : state) : sameStore s s' -> allInGrid s -> allInGrid s'.
Proof. intros Hs H o. rewrite (sameStore_stored s s' Hs). apply H. Qed.

Lemma allInGrid_shrunk (s s' : state) : shrunk s s' -> allInGrid s -> allInGrid s'.
Proof. intros Hs H o Ho. apply H. exact (sublist_In _ _ o (shrunk_stored s s' Hs) Ho). Qed.

(** The objects of [s'] are those of [s0], each of them inside the grid. *)
Lemma objects_inGrid (s0 s' : state) :
  sameCollections s0 s' ->
  (forall l, In l (refsOf s0) -> inGrid (deref s' l)) -> allInGrid s'.
Proof.
  intros (Hb & Hd & He) H o Ho. rewrite stored_refs in Ho. apply in_map_iff in Ho.
  destruct Ho as (l & <- & Hl). apply H. unfold refsOf in *. rewrite <- Hb, <- Hd, <- He.
  exact Hl.
Qed.

Lemma allInGrid_assign (s : state) (r : nat) (f : entity -> entity) :
  allInGrid s -> (inGrid (deref s r) -> inGrid (f (deref s r))) -> allInGrid (assign r f s).
Proof.
  intros H Hf. apply (objects_inGrid s); [repeat split|]. intros l Hl.
  assert (Hs : inGrid (deref s l)) by (apply H; rewrite stored_refs; apply in_map, Hl).
  destruct (Nat.eq_dec r l) as [<-|Hne].
  - destruct (deref_assign r r f s) as [-> | ->]; [exact Hs|exact (Hf Hs)].
  - rewrite deref_assign_other by exact Hne. exact Hs.
Qed.

Lemma resize_step_inGrid (C : catalogs) (e : mouseEvent) (s : state) (resize : resizingT) :
  resizingEnclosure s = Some resize -> allInGrid s -> allInGrid (handleGridMouseMove C e s).
Proof.
  intros Hr H. unfold handleGridMouseMove. rewrite Hr. cbv zeta.
  destruct (negb _); [|exact H].
  apply (allInGrid_sameStore _ _ (sameStore_updateURL C _)).
  apply allInGrid_assign; [exact H|]. intros Hin.
  destruct (resizeCandidate_fits (r_edge resize) (deref s (r_enclosure resize))
              (getGridPoint e) (inGrid_integral _ Hin))
    as (x & y & w & h & -> & _ & _ & _ & _ & _ & _ & Hfit).
  exact Hfit.
Qed.

Lemma resize_release_inGrid (C : catalogs) (e : mouseEvent) (s : state) (resize : resizingT) :
  resizingEnclosure s = Some resize -> allInGrid s ->
  fitsInGrid (g_gridX (originalData resize)) (g_gridY (originalData resize))
    (g_width (originalData resize)) (g_height (originalData resize)) = true ->
  allInGrid (handleGridMouseUp C e s).
Proof.
  intros Hr H Horig. unfold handleGridMouseUp. rewrite Hr.
  destruct (barelyMoved e s).
  - match goal with
    | |- allInGrid (set_moveStartPos None (set_resizingEnclosure None
                      (showConfirmDialog ?a ?t))) =>
        apply (allInGrid_sameStore t); [repeat split|]
    end.
    apply allInGrid_assign; [exact H|]. intros _. exact Horig.
  - apply (allInGrid_sameStore s); [repeat split|exact H].
Qed.

Lemma move_release_inGrid (C : catalogs) (e : mouseEvent) (s0 s : state) (m : movingItemT) :
  originalX m = gridX (deref s0 (m_data m)) ->
  originalY m = gridY (deref s0 (m_data m)) ->
  allInGrid s0 -> movingSince s0 m s -> allInGrid (handleGridMouseUp C e s).
Proof.
  intros Hox Hoy H0 (Hr & Hm & Hc & Ho & Hl & x & y & Hd).
  assert (Hold : forall l, In l (refsOf s0) -> inGrid (deref s0 l)).
  { intros l Hin. apply H0. rewrite stored_refs. apply in_map, Hin. }
  assert (Hrevert : forall t,
            (forall l, deref t l
                       = deref (assign (m_data m)
                                  (fun o => set_gridY (originalY m) (set_gridX (originalX m) o))
                                  s) l) ->
            sameCollections s t -> allInGrid t).
  { intros t Ht Hct. apply (objects_inGrid s0).
    - destruct Hc as (? & ? & ?), Hct as (? & ? & ?). repeat split; congruence.
    - intros l Hin. rewrite Ht. destruct (Nat.eq_dec l (m_data m)) as [->|Hne].
      + rewrite deref_assign_same by exact Hl. rewrite Hd, Hox, Hoy.
        replace (set_gridY _ (set_gridX _ _)) with (deref s0 (m_data m))
          by (destruct (deref s0 (m_data m)); reflexivity).
        exact (Hold _ Hin).
      + rewrite deref_assign_other by congruence. rewrite (Ho l Hne). exact (Hold _ Hin). }
  unfold handleGridMouseUp. rewrite Hr, Hm.
  destruct (barelyMoved e s).
  { apply Hrevert; [intros l; reflexivity|repeat split]. }
  cbv zeta.
  set (item := deref s (m_data m)).
  destruct (negb (fitsInGrid (gridX item) (gridY item) (width item) (height item))
            || checkOverlap s (gridX item) (gridY item) (width item) (height item)
                 (Some (m_id m))) eqn:Einv.
  { apply Hrevert.
    - intros l.
      change (deref (set_moveStartPos None (set_movingItem None ?t)) l) with (deref t l).
      apply sameStore_deref, sameStore_updateURL.
    - exact (proj1 (frame_setters _ _ None None
               (frame_trans _ _ _ (frame_assign (m_data m) _ s
                                     (geometryOnly_position (originalX m) (originalY m)))
                  (frame_updateURL C _)))). }
  apply orb_false_iff in Einv. destruct Einv as [Efit _]. apply negb_false_iff in Efit.
  apply (objects_inGrid s0).
  - destruct Hc as (? & ? & ?).
    destruct (proj1 (frame_setters s _ None None (frame_updateURL C s))) as (? & ? & ?).
    repeat split; congruence.
  - intros l Hin.
    change (deref (set_moveStartPos None (set_movingItem None ?t)) l) with (deref t l).
    rewrite (sameStore_deref _ _ _ (sameStore_updateURL C s)).
    destruct (Nat.eq_dec l (m_data m)) as [->|Hne]; [exact Efit|].
    rewrite (Ho l Hne). exact (Hold _ Hin).
Qed.

Lemma draw_release_inGrid (C : catalogs) (e : mouseEvent) (s : state) :
  resizingEnclosure s = None -> movingItem s = None ->
  validRefs s -> allInGrid s -> drawingInGrid s -> allInGrid (handleGridMouseUp C e s).
Proof.
  intros Hr Hm Hv H Hd. destruct (drawing s) as [d|] eqn:Ed.
  - destruct (draw_release_cases C e s d Hr Hm Ed)
      as [->|(o & s1 & Hadd & Hx & Hy & Hw & Hh & _ & _ & _ & Hss)];
      [apply (allInGrid_sameStore s); [repeat split|exact H]|].
    destruct Hadd as (Hheap & Hb & Hdec & He).
    destruct (grown_enclosure s s1 o Hheap Hb Hdec He Hv) as (_ & _ & Est).
    apply (allInGrid_sameStore _ _ Hss). intros o'. rewrite Est, in_app_iff.
    intros [Hin|[<-|[]]]; [exact (H o' Hin)|].
    apply inGrid_bounds. do 4 eexists. split; [repeat split; eassumption|].
    specialize (Hd d Ed). unfold GRID_SIZE in *. lia.
  - unfold handleGridMouseUp. rewrite Hr, Hm, Ed. exact H.
Qed.

Lemma drop_inGrid (C : catalogs) (itemId : string) (e : mouseEvent) (s : state) :
  rect_left (svgRect e) <= clientX e -> rect_top (svgRect e) <= clientY e ->
  validRefs s -> allInGrid s -> allInGrid (handleGridDrop C itemId e s).
Proof.
  intros Hx Hy Hv H.
  destruct (handleGridDrop_cases C itemId e s)
    as [->|(item & isDecoration & n & Hcase)]; [exact H|].
  cbv zeta in Hcase. destruct Hcase as (_ & _ & Hf1 & Hf2 & _ & Hadd).
  destruct (addedItem_stored _ _ _ _ Hadd Hv) as (_ & l1 & l2 & E1 & E2).
  intros o. rewrite E2. intros Ho. apply in_app_iff in Ho.
  destruct Ho as [Ho|[<-|Ho]];
    [apply H; rewrite E1; apply in_app_iff; left; exact Ho| |
     apply H; rewrite E1; apply in_app_iff; right; exact Ho].
  unfold inGrid, fitsInGrid. cbn [gridX gridY width height].
  rewrite Hf1, Hf2, !andb_true_r. unfold jge. simpl.
  assert (0 <= (clientX e - rect_left (svgRect e)) / CELL_SIZE)
    by (apply Z.div_pos; unfold CELL_SIZE; lia).
  assert (0 <= (clientY e - rect_top (svgRect e)) / CELL_SIZE)
    by (apply Z.div_pos; unfold CELL_SIZE; lia).
  apply andb_true_iff. split; apply Z.leb_le; assumption.
Qed.

Lemma sameDrawing_updateURL (C : catalogs) (s : state) : sameDrawing s (updateURL C s).
Proof. unfold sameDrawing, updateURL. destruct (_ && _); reflexivity. Qed.

Lemma sameDrawing_selectAnimal (a : string) (s : state) : sameDrawing s (selectAnimal a s).
Proof. unfold sameDrawing, selectAnimal. destruct (setHas _ _); reflexivity. Qed.

Lemma sameDrawing_renderAnimalList (C : catalogs) (s : state) :
  sameDrawing s (renderAnimalList C s).
Proof.
  unfold sameDrawing, renderAnimalList. cbv zeta.
  set (s1 := match ANIMALS C with [] => s | _ => _ end).
  assert (H1 : drawing s1 = drawing s).
  { subst s1. destruct (ANIMALS C); [reflexivity|].
    destruct (negb _); [apply sameDrawing_selectAnimal|reflexivity]. }
  destruct (setHas _ (selectedAnimal s1)); [|exact H1].
  destruct (find _ _) as [a|]; [|exact H1].
  rewrite <- H1. apply sameDrawing_selectAnimal.
Qed.

Lemma sameDrawing_runAction (C : catalogs) (a : action) (s : state) :
  sameDrawing s (runAction C a s).
Proof.
  unfold sameDrawing.
  destruct a as [i|i|i|]; cbn [runAction];
    unfold deleteEnclosure, deleteDecoration, deleteBuilding; cbv zeta;
    try change (drawing (set_urlZ None ?t)) with (drawing t);
    repeat match goal with
           | |- context [updateURL C ?t] => rewrite (sameDrawing_updateURL C t)
           | |- context [renderAnimalList C ?t] => rewrite (sameDrawing_renderAnimalList C t)
           end; reflexivity.
Qed.

Lemma sameDrawing_single (C : catalogs) (ev : event) (s : state) :
  pointerEvent ev = false -> sameDrawing s (handle C ev s).
Proof.
  unfold sameDrawing.
  destruct ev as [itemId e|e|e|e|a|a|t| |t| |k|k]; cbn [handle pointerEvent];
    try discriminate; intros _.
  - destruct (handleGridDrop_result C itemId e s)
      as [->|[(item & gX & gY & _ & ->)|(item & gX & gY & _ & ->)]]; [reflexivity| |].
    + unfold addBuilding, alloc. cbv zeta.
      match goal with
      | |- context [updateURL C ?t] => rewrite (sameDrawing_updateURL C t)
      end. reflexivity.
    + unfold addDecoration, alloc. cbv zeta.
      match goal with
      | |- context [updateURL C ?t] => rewrite (sameDrawing_updateURL C t)
      end. reflexivity.
  - apply sameDrawing_selectAnimal.
  - unfold deleteEnclosureByAnimal. destruct (find _ _); [|reflexivity].
    apply (sameDrawing_runAction C (DeleteEnclosure _) s).
  - unfold deleteBuildingByType. destruct (find _ _); [|reflexivity].
    apply (sameDrawing_runAction C (DeleteBuilding _) s).
  - unfold deleteAllRestrooms. cbv zeta.
    match goal with
    | |- context [updateURL C ?t] => rewrite (sameDrawing_updateURL C t)
    end. reflexivity.
  - unfold deleteAllDecorationType. cbv zeta.
    match goal with
    | |- context [updateURL C ?t] => rewrite (sameDrawing_updateURL C t)
    end. reflexivity.
  - reflexivity.
  - unfold confirmYes. destruct (dialogs s !! k) as [a|]; [|reflexivity].
    match goal with
    | |- drawing (runAction C a ?t) = _ => rewrite (sameDrawing_runAction C a t)
    end. reflexivity.
  - reflexivity.
Qed.

Lemma drawingInGrid_press (e : mouseEvent) (s : state) :
  drawingInGrid s -> drawingInGrid (handleGridMouseDown e s).
Proof.
  intros H. unfold handleGridMouseDown, startMove. cbv zeta.
  destruct (detectEnclosureEdge _ _ _) as [[enc edge]|]; [exact H|].
  destruct (overEnclosure e) as [i|].
  - destruct (findById _ _ _); exact H.
  - destruct (overBuilding e) as [i|].
    + destruct (findById _ (placedBuildings s) _); [exact H|].
      destruct (findById _ _ _); exact H.
    + destruct (negb _); [exact H|]. intros d Hd. injection Hd as <-.
      cbn [startX startY currentX currentY]. unfold clampZ, GRID_SIZE. lia.
Qed.

Lemma drawingInGrid_move (C : catalogs) (e : mouseEvent) (s : state) :
  drawingInGrid s -> drawingInGrid (handleGridMouseMove C e s).
Proof.
  intros H. unfold handleGridMouseMove.
  destruct (resizingEnclosure s) as [rz|].
  - cbv zeta. destruct (negb _); [|exact H].
    intros d. rewrite sameDrawing_updateURL. apply H.
  - destruct (movingItem s) as [m|].
    + destruct (negb _); exact H.
    + destruct (drawing s) as [d0|] eqn:Ed; [|exact H].
      intros d Hd. injection Hd as <-. cbn [startX startY currentX currentY].
      specialize (H d0 Ed). unfold getGridPoint, clampZ, GRID_SIZE in *.
      cbn [fst snd]. lia.
Qed.

Lemma drawingInGrid_release (C : catalogs) (e : mouseEvent) (s : state) :
  drawingInGrid s -> drawingInGrid (handleGridMouseUp C e s).
Proof.
  intros H. unfold handleGridMouseUp.
  destruct (resizingEnclosure s) as [rz|].
  - destruct (barelyMoved e s); exact H.
  - destruct (movingItem s) as [m|].
    + destruct (barelyMoved e s); [exact H|]. cbv zeta.
      intros d.
      change (drawing (set_moveStartPos None (set_movingItem None ?t))) with (drawing t).
      rewrite sameDrawing_updateURL. destruct (negb _ || _); apply H.
    + destruct (drawing s) as [d0|]; [|exact H]. intros d Hd. discriminate Hd.
Qed.

Lemma click_shrunk (C : catalogs) (ev : event) (s : state) :
  pointerEvent ev = false -> (forall itemId e, ev <> Drop itemId e) ->
  shrunk s (handle C ev s).
Proof.
  intros Hp Hd.
  destruct ev as [itemId e|e|e|e|a|a|t| |t| |k|k]; cbn [handle pointerEvent] in *;
    try discriminate.
  - exfalso. exact (Hd itemId e eq_refl).
  - apply sameStore_shrunk, sameStore_selectAnimal.
  - unfold deleteEnclosureByAnimal.
    destruct (find _ _) as [enc|]; [|apply shrunk_refl]. apply shrunk_deleteEnclosure.
  - unfold deleteBuildingByType.
    destruct (find _ _) as [b|]; [|apply shrunk_refl]. apply shrunk_deleteBuilding.
  - unfold deleteAllRestrooms.
    eapply shrunk_trans_sameStore; [|apply sameStore_updateURL].
    repeat split; try reflexivity. apply filterRefs_sublist.
  - unfold deleteAllDecorationType.
    eapply shrunk_trans_sameStore; [|apply sameStore_updateURL].
    repeat split; try reflexivity. apply filterRefs_sublist.
  - apply sameStore_shrunk. repeat split.
  - unfold confirmYes. destruct (dialogs s !! k) as [a|]; [|apply shrunk_refl].
    match goal with
    | |- shrunk s (runAction C a ?t) =>
        destruct (shrunk_runAction C a t) as ((Hh & Hb & Hd' & He) & _)
    end.
    repeat split; assumption.
  - apply sameStore_shrunk. repeat split.
Qed.

(** A complete gesture leaves every object inside the grid. *)
Lemma gesture_inGrid (C : catalogs) (e0 : mouseEvent) (moves : list mouseEvent)
    (e1 : mouseEvent) (s : state) :
  idle s -> validRefs s -> allInGrid s -> drawingInGrid s ->
  allInGrid (run C (gesture e0 moves e1) s).
Proof.
  intros (Hr & Hm) Hv Hg Hd. rewrite run_gesture.
  assert (Hd2 : drawingInGrid (run C (map MouseMove moves) (handleGridMouseDown e0 s))).
  { apply (fold_moves (P := drawingInGrid) C moves (drawingInGrid_move C)).
    apply drawingInGrid_press, Hd. }
  destruct (handleGridMouseDown_cases e0 s)
    as [(r & edge & Hin & Hs1)|[(t & i & r & Hin & Hid & Hs1)|[(d & Hs1)|Hs1]]];
    rewrite Hs1 in *; clear Hs1.
  - set (resize := {| r_enclosure := r; r_edge := edge;
                      originalData := geometryOf (deref s r) |}) in *.
    set (s1 := set_moveStartPos _ _) in *.
    assert (H2 : resizingEnclosure (run C (map MouseMove moves) s1) = Some resize /\
                 allInGrid (run C (map MouseMove moves) s1)).
    { apply (fold_moves (P := fun t => resizingEnclosure t = Some resize /\ allInGrid t)
               C moves).
      - intros e t (Ht & Hgt). split; [|exact (resize_step_inGrid C e t resize Ht Hgt)].
        rewrite <- Ht. apply fields_handleGridMouseMove.
      - split; [reflexivity|]. apply (allInGrid_sameStore s); [repeat split|exact Hg]. }
    destruct H2 as (Hr2 & Hg2).
    apply (resize_release_inGrid C e1 _ resize Hr2 Hg2).
    apply Hg. unfold stored, enclosuresOf. rewrite !in_app_iff. right. right.
    apply in_map, Hin.
  - set (m := {| m_type := t; m_id := i; m_data := r;
                 originalX := gridX (deref s r); originalY := gridY (deref s r);
                 offsetX := jsub (Num (fst (getGridPoint e0))) (gridX (deref s r));
                 offsetY := jsub (Num (snd (getGridPoint e0))) (gridY (deref s r)) |}) in *.
    apply (move_release_inGrid C e1 s _ m eq_refl eq_refl Hg).
    apply (fold_moves (P := movingSince s m) C moves
             (fun e t => movingSince_move C e s t m)).
    assert (Hl : is_Some (heap s !! r)) by (apply lookup_lt_is_Some, Hv, Hin).
    split; [exact Hr|]. split; [reflexivity|]. split; [repeat split|].
    split; [reflexivity|]. split; [exact Hl|].
    exists (gridX (deref s r)), (gridY (deref s r)).
    change (deref (startMove t i r (getGridPoint e0) e0 s) r) with (deref s r).
    assert (Hsame : forall o, o = set_gridY (gridY o) (set_gridX (gridX o) o))
      by (intros []; reflexivity).
    apply Hsame.
  - assert (Hi : idleSince s (run C (map MouseMove moves) (set_drawing (Some d) s))).
    { apply (fold_moves (P := idleSince s) C moves (fun e t => idleSince_move C e s t)).
      split; [exact Hr|]. split; [exact Hm|]. repeat split. }
    destruct Hi as (Hr2 & Hm2 & Hs2).
    apply draw_release_inGrid; try assumption.
    + exact (sameStore_validRefs _ _ Hs2 Hv).
    + exact (allInGrid_sameStore _ _ Hs2 Hg).
  - assert (Hi : idleSince s (run C (map MouseMove moves) s)).
    { apply (fold_moves (P := idleSince s) C moves (fun e t => idleSince_move C e s t)).
      split; [exact Hr|]. split; [exact Hm|]. apply sameStore_refl. }
    destruct Hi as (Hr2 & Hm2 & Hs2).
    apply draw_release_inGrid; try assumption.
    + exact (sameStore_validRefs _ _ Hs2 Hv).
    + exact (allInGrid_sameStore _ _ Hs2 Hg).
Qed.

Lemma drawingInGrid_run (C : catalogs) (evs : list event) (s : state) :
  drawingInGrid s -> drawingInGrid (run C evs s).
Proof.
  unfold run. apply fold_left_invariant. intros t ev Ht.
  destruct ev as [itemId e|e|e|e|a|a|x| |x| |k|k];
    try (intros d;
         match goal with
         | |- drawing (handle C ?ev t) = _ -> _ =>
             rewrite (sameDrawing_single C ev t eq_refl)
         end; apply Ht).
  - apply drawingInGrid_press, Ht.
  - apply drawingInGrid_move, Ht.
  - apply drawingInGrid_release, Ht.
Qed.

Lemma action_keeps_inGrid (C : catalogs) (a : userAction) (s : state) :
  orderly a -> insideDrop a ->
  idle s /\ validRefs s /\ allInGrid s /\ drawingInGrid s ->
  idle (run C (eventsOf a) s) /\ validRefs (run C (eventsOf a) s) /\
  allInGrid (run C (eventsOf a) s) /\ drawingInGrid (run C (eventsOf a) s).
Proof.
  intros Ha Hin (Hi & Hv & Hg & Hd). split; [|split; [|split]].
  - destruct a as [e0 moves e1|ev]; cbn [eventsOf].
    + apply gesture_ends_idle, Hi.
    + cbn [orderly] in Ha. destruct (sameGesture_single C ev s Ha) as (G1 & G2).
      destruct Hi as (Hr & Hm). split; unfold run; cbn [fold_left]; congruence.
  - exact (proj1 (keeps_run C _ s Hv)).
  - destruct a as [e0 moves e1|ev]; cbn [eventsOf].
    + apply gesture_inGrid; assumption.
    + cbn [orderly] in Ha. unfold run. cbn [fold_left].
      destruct ev as [itemId e|e|e|e|x|x|x| |x| |k|k]; try discriminate Ha;
        try (apply (allInGrid_shrunk s); [apply click_shrunk; [reflexivity|discriminate]|exact Hg]).
      cbn [insideDrop] in Hin. destruct Hin as [Hx Hy]. cbn [handle].
      apply drop_inGrid; assumption.
  - apply drawingInGrid_run, Hd.
Qed.

Lemma session_keeps_inGrid (C : catalogs) (actions : list userAction) :
  Forall orderly actions -> Forall insideDrop actions ->
  forall s, idle s /\ validRefs s /\ allInGrid s /\ drawingInGrid s ->
            idle (run C (session actions) s) /\ validRefs (run C (session actions) s) /\
            allInGrid (run C (session actions) s) /\
            drawingInGrid (run C (session actions) s).
Proof.
  intros Hall. induction Hall as [|a actions Ha _ IH]; intros Hin s Hs; [exact Hs|].
  apply Forall_cons in Hin. destruct Hin as [Hina Hin].
  unfold session. cbn [map concat]. rewrite run_app.
  apply (IH Hin). apply action_keeps_inGrid; assumption.
Qed.

Lemma session_allInGrid (C : catalogs) (actions : list userAction) :
  Forall orderly actions -> Forall insideDrop actions ->
  allInGrid (run C (session actions) (init C None)).
Proof.
  intros Hall Hin.
  apply (session_keeps_inGrid C actions Hall Hin).
  assert (Hs : sameStore initialState (init C None)).
  { unfold init, loadFromURL. cbn [snd]. apply sameStore_renderAnimalList. }
  split; [|split; [|split]].
  - unfold init, loadFromURL. cbn [snd].
    destruct (fields_renderAnimalList C initialState) as (_ & G1 & G2).
    split; [rewrite G1|rewrite G2]; reflexivity.
  - apply init_wellformed.
  - apply (allInGrid_sameStore _ _ Hs). intros o [].
  - intros d. unfold init, loadFromURL. cbn [snd].
    rewrite sameDrawing_renderAnimalList. discriminate.
Qed.

(** In a session that starts with the empty grid and whose pointer events
    come as complete gestures, every stored object has an integer rectangle
    that lies inside the grid ([0 <= x], [0 <= y], [x + w <= 30],
    [y + h <= 30]) after every action, provided no drop has its pointer
    left of or above the grid element: drops and moves are tested, drawn
    rectangles come from clamped cells and a resize clamps its result. *)
Theorem interactive_session_inGrid (C : catalogs) (actions : list userAction) :
  Forall orderly actions -> Forall insideDrop actions ->
  Forall (fun o => exists r, occupies o r /\ inBounds r)
         (stored (run C (session actions) (init C None))).
Proof.
  intros Hall Hin. apply List.Forall_forall. intros o Ho.
  apply (session_allInGrid C actions Hall Hin), inGrid_bounds in Ho.
  destruct Ho as (x & y & w & h & Hocc & Hb).
  exists {| rx := x; ry := y; rw := w; rh := h |}. split; [exact Hocc|exact Hb].
Qed.

Lemma interactive_session_inGrid_witness :
  Forall (fun o => exists r, occupies o r /\ inBounds r)
         (stored (run sampleCatalogs
                    (session [Single (Drop "restaurant" (pointerAt 545 5));
                              Single (ClickAnimalCard "zebra");
                              Gesture (pointerAt 5 5) [pointerAt 70 50] (pointerAt 70 50);
                              Gesture (pointerAt 80 30) [pointerAt 700 30] (pointerAt 700 30)])
                    (init sampleCatalogs None))).
Proof.
  apply interactive_session_inGrid.
  - repeat constructor.
  - repeat constructor; simpl; lia.
Defined.

(* --------------------------------------------------------------------- *)
(** ** Base 36, beyond one digit                                          *)
(* --------------------------------------------------------------------- *)

Lemma digitChar_reads (d : Z) :
  0 <= d < 36 ->
  digitVal (digitChar d) = Some d /\ isStrWhiteSpace (digitChar d) = false /\
  forall rest,
    parseInt36 (String (digitChar d) rest)
    = match parseDigits (String (digitChar d) rest) None with
      | Some v => Num (1 * v)
      | None => NaN
      end.
Proof.
  intros Hd. replace d with (Z.of_nat (Z.to_nat d)) by lia.
  assert (Hn : (Z.to_nat d < 36)%nat) by lia.
  generalize dependent (Z.to_nat d). clear. intros k Hk.
  do 36 (destruct k as [|k]; [repeat split|]). lia.
Qed.

Lemma digits36_reads (fuel : nat) :
  forall (n : Z) (acc : string),
    0 <= n < 36 ^ Z.of_nat (S fuel) ->
    parseDigits (digits36 (S fuel) n acc) None = parseDigits acc (Some n).
Proof.
  induction fuel as [|fuel IH]; intros n acc Hn.
  - change (36 ^ Z.of_nat 1) with 36 in Hn.
    cbn [digits36]. rewrite Z.div_small by lia. cbn [Z.eqb parseDigits].
    rewrite Z.mod_small by lia. rewrite (proj1 (digitChar_reads n Hn)).
    cbn [default]. f_equal.
  - change (digits36 (S (S fuel)) n acc)
      with (if n / 36 =? 0 then String (digitChar (n mod 36)) acc
            else digits36 (S fuel) (n / 36) (String (digitChar (n mod 36)) acc)).
    assert (Hm : 0 <= n mod 36 < 36) by (apply Z.mod_pos_bound; lia).
    assert (Hq : 0 <= n / 36 < 36 ^ Z.of_nat (S fuel)).
    { split; [apply Z.div_pos; lia|]. apply Z.div_lt_upper_bound; [lia|].
      replace (Z.of_nat (S (S fuel))) with (Z.succ (Z.of_nat (S fuel))) in Hn by lia.
      rewrite Z.pow_succ_r in Hn by lia. lia. }
    destruct (Z.eqb_spec (n / 36) 0) as [E|E].
    + cbn [parseDigits]. rewrite (proj1 (digitChar_reads _ Hm)). cbn [default].
      f_equal. f_equal. pose proof (Z.div_mod n 36). lia.
    + rewrite (IH (n / 36) _ Hq). cbn [parseDigits].
      rewrite (proj1 (digitChar_reads _ Hm)).
      change (default 0 (Some (n / 36))) with (n / 36).
      f_equal. f_equal. pose proof (Z.div_mod n 36). lia.
Qed.

Lemma digits36_head (fuel : nat) :
  forall (n : Z) (acc : string),
    exists d rest, 0 <= d < 36 /\ digits36 (S fuel) n acc = String (digitChar d) rest.
Proof.
  induction fuel as [|fuel IH]; intros n acc.
  - exists (n mod 36). cbn [digits36]. destruct (n / 36 =? 0); eexists;
      (split; [apply Z.mod_pos_bound; lia|reflexivity]).
  - change (digits36 (S (S fuel)) n acc)
      with (if n / 36 =? 0 then String (digitChar (n mod 36)) acc
            else digits36 (S fuel) (n / 36) (String (digitChar (n mod 36)) acc)).
    destruct (n / 36 =? 0); [|apply IH].
    exists (n mod 36), acc. split; [apply Z.mod_pos_bound; lia|reflexivity].
Qed.

Lemma enough_digits (z : Z) : 0 <= z -> z < 36 ^ Z.of_nat (S (Z.to_nat (Z.log2 z))).
Proof.
  intros Hz. destruct (Z.eq_dec z 0) as [->|Hne]; [reflexivity|].
  pose proof (Z.log2_nonneg z) as Hl.
  replace (Z.of_nat (S (Z.to_nat (Z.log2 z)))) with (Z.succ (Z.log2 z)) by lia.
  apply Z.lt_le_trans with (2 ^ Z.succ (Z.log2 z)).
  - apply Z.log2_spec. lia.
  - apply Z.pow_le_mono_l. lia.
Qed.

Lemma digits_read_back (z : Z) :
  0 <= z ->
  parseDigits (digits36 (S (Z.to_nat (Z.log2 z))) z "") None = Some z.
Proof.
  intros Hz. rewrite digits36_reads by (split; [exact Hz|apply enough_digits, Hz]).
  reflexivity.
Qed.

Lemma parseInt36_minus (t : string) :
  parseInt36 (String "-" t)
  = match parseDigits t None with
    | Some v => Num (-1 * v)
    | None => NaN
    end.
Proof. reflexivity. Qed.

(** [fromBase36] undoes [toBase36] on every integer, whatever its number
    of digits and its sign; [NaN] is written ["NaN"], which reads back as
    the number 30191. *)
Theorem fromBase36_toBase36 (z : Z) :
  fromBase36 (Some (toBase36 (Num z))) = Num z /\
  fromBase36 (Some (toBase36 NaN)) = Num 30191.
Proof.
  split; [|reflexivity].
  unfold fromBase36. cbn [from_option]. unfold Datatypes.id, toBase36, toString36.
  destruct (Z.ltb_spec z 0) as [Hneg|Hpos].
  - rewrite parseInt36_minus, digits_read_back by lia. f_equal. lia.
  - destruct (digits36_head (Z.to_nat (Z.log2 z)) z "") as (d & rest & Hd & E).
    pose proof (digits_read_back z Hpos) as Hread. rewrite E in *.
    rewrite (proj2 (proj2 (digitChar_reads d Hd))), Hread. f_equal. lia.
Qed.

(* --------------------------------------------------------------------- *)
(** ** The round trip, by catalog entry                                   *)
(* --------------------------------------------------------------------- *)

Lemma findIndexFrom_at {A : Type} (p : A -> bool) (l : list A) :
  forall (n : nat) (i : Z) (a : A),
    l !! n = Some a -> p a = true ->
    (forall j b, l !! j = Some b -> p b = true -> j = n) ->
    findIndexFrom p l i = Num (i + Z.of_nat n).
Proof.
  induction l as [|x l IH]; intros n i a Hn Hp Hu; [destruct n; discriminate|].
  cbn [findIndexFrom]. destruct n as [|n].
  - injection Hn as ->. rewrite Hp. f_equal. lia.
  - destruct (p x) eqn:Ex; [specialize (Hu 0%nat x eq_refl Ex); discriminate|].
    rewrite (IH n (i + 1) a Hn Hp); [f_equal; lia|].
    intros j b Hj Hb. specialize (Hu (S j) b Hj Hb). lia.
Qed.

Lemma lookup_key {A : Type} (key : A -> string) (l : list A) (i j : nat) (a b : A) :
  NoDup (map key l) -> l !! i = Some a -> l !! j = Some b -> key a = key b -> i = j.
Proof.
  intros Hnd Hi Hj E.
  apply (proj1 (NoDup_alt (map key l)) Hnd i j (key a)).
  - change (map key l) with (key <$> l). rewrite list_lookup_fmap, Hi. reflexivity.
  - change (map key l) with (key <$> l). rewrite list_lookup_fmap, Hj, E. reflexivity.
Qed.

(** In a catalog with distinct, dash-free ids the encoder finds the entry
    an object is an instance of. *)
Lemma typeIndexOf_instance (catalog : list itemDef) (b : entity) (k : Z) (def : itemDef)
    (n : string) :
  NoDup (map def_id catalog) -> Forall (fun d => noDash (def_id d)) catalog ->
  0 <= k -> catalog !! Z.to_nat k = Some def -> id b = def_id def +:+ "-" +:+ n ->
  typeIndexOf catalog b = Num k.
Proof.
  intros Hnd Hdash Hk Hdef Hid.
  assert (Ht : typeIdOf (id b) = def_id def).
  { rewrite Hid. apply typeIdOf_noDash.
    rewrite List.Forall_forall in Hdash. apply Hdash.
    apply (atIndex_In catalog (Num k)). unfold atIndex.
    destruct (Z.ltb_spec k 0); [lia|exact Hdef]. }
  unfold typeIndexOf, findIndex. cbv zeta. rewrite Ht.
  rewrite (findIndexFrom_at _ catalog (Z.to_nat k) 0 def Hdef).
  - f_equal. lia.
  - apply String.eqb_refl.
  - intros j d Hj Hd. apply String.eqb_eq in Hd.
    exact (lookup_key def_id catalog j (Z.to_nat k) d def Hnd Hj Hdef Hd).
Qed.

Lemma animalIndexOf_occupant (animals : list animalDef) (e : entity) (k : Z) (a : animalDef) :
  NoDup (map animal_id animals) ->
  0 <= k -> animals !! Z.to_nat k = Some a -> animal e = Some (animal_id a) ->
  animalIndexOf animals e = Num k.
Proof.
  intros Hnd Hk Ha He. unfold animalIndexOf, findIndex. rewrite He.
  rewrite (findIndexFrom_at _ animals (Z.to_nat k) 0 a Ha).
  - f_equal. lia.
  - apply String.eqb_refl.
  - intros j d Hj Hd. apply String.eqb_eq in Hd.
    exact (lookup_key animal_id animals j (Z.to_nat k) d a Hnd Hj Ha Hd).
Qed.

Lemma itemRecord_tuple (catalog : list itemDef) (b : entity) (r : itemData) :
  NoDup (map def_id catalog) -> Forall (fun d => noDash (def_id d)) catalog ->
  itemRecord catalog b r -> encodableItem catalog b /\ itemTuple catalog b = r.
Proof.
  intros Hnd Hdash (k & def & n & -> & Hk & Hdef & Hid & Hx & Hy).
  pose proof (typeIndexOf_instance catalog b k def _ Hnd Hdash (proj1 Hk) Hdef Hid) as Ht.
  unfold encodableItem, itemTuple. rewrite Ht. repeat split; try assumption; apply Hk.
Qed.

Lemma enclosureRecord_tuple (animals : list animalDef) (e : entity) (r : enclosureData) :
  NoDup (map animal_id animals) ->
  enclosureRecord animals e r -> encodableEnclosure animals e /\ enclosureTuple animals e = r.
Proof.
  intros Hnd (k & a & -> & Hk & Ha & He & Hx & Hy & Hw & Hh).
  pose proof (animalIndexOf_occupant animals e k a Hnd (proj1 Hk) Ha He) as Ht.
  unfold encodableEnclosure, enclosureTuple. rewrite Ht.
  repeat split; try assumption; apply Hk.
Qed.

Lemma itemRecords_tuples (catalog : list itemDef) (l : list entity) (rs : list itemData) :
  NoDup (map def_id catalog) -> Forall (fun d => noDash (def_id d)) catalog ->
  Forall2 (itemRecord catalog) l rs ->
  Forall (encodableItem catalog) l /\ map (itemTuple catalog) l = rs.
Proof.
  intros Hnd Hdash. induction 1 as [|b r l rs Hr _ [IH1 IH2]]; [split; [constructor|reflexivity]|].
  destruct (itemRecord_tuple catalog b r Hnd Hdash Hr) as [H1 H2].
  split; [constructor; assumption|]. cbn [map]. rewrite H2, IH2. reflexivity.
Qed.

Lemma enclosureRecords_tuples (animals : list animalDef) (l : list entity)
    (rs : list enclosureData) :
  NoDup (map animal_id animals) ->
  Forall2 (enclosureRecord animals) l rs ->
  Forall (encodableEnclosure animals) l /\ map (enclosureTuple animals) l = rs.
Proof.
  intros Hnd. induction 1 as [|e r l rs Hr _ [IH1 IH2]]; [split; [constructor|reflexivity]|].
  destruct (enclosureRecord_tuple animals e r Hnd Hr) as [H1 H2].
  split; [constructor; assumption|]. cbn [map]. rewrite H2, IH2. reflexivity.
Qed.

Lemma sampleCatalogs_clean : cleanCatalogs sampleCatalogs.
Proof.
  unfold cleanCatalogs.
  repeat split; try (apply (bool_decide_unpack _); vm_compute; reflexivity);
    repeat constructor; discriminate.
Qed.

Lemma sampleZoo_records :
  Forall2 (itemRecord (BUILDINGS sampleCatalogs)) (buildingsOf sampleZoo)
    [ {| typeIndex := Num 2; i_x := Num 5; i_y := Num 5 |} ] /\
  Forall2 (itemRecord (DECORATIONS sampleCatalogs)) (decorationsOf sampleZoo)
    [ {| typeIndex := Num 2; i_x := Num 15; i_y := Num 20 |} ] /\
  Forall2 (enclosureRecord (ANIMALS sampleCatalogs)) (enclosuresOf sampleZoo)
    [ {| animalIndex := Num 1; e_x := Num 0; e_y := Num 0; e_w := Num 4; e_h := Num 3 |} ].
Proof.
  split; [|split].
  - evaluate (buildingsOf sampleZoo). repeat constructor.
    exists 2, {| def_id := "restaurant"; def_width := Num 3; def_height := Num 2 |}, 1%N.
    repeat split; simpl; lia.
  - evaluate (decorationsOf sampleZoo). repeat constructor.
    exists 2, {| def_id := "fountain"; def_width := Num 2; def_height := Num 2 |}, 1%N.
    repeat split; simpl; lia.
  - evaluate (enclosuresOf sampleZoo). repeat constructor.
    exists 1, {| animal_id := "zebra"; minPerimeter := Num 14; minArea := Num 12 |}.
    repeat split; simpl; lia.
Qed.

(** C1, as stated, fails.  With a buildings catalog whose entry 0 is called
    ["ice-cream"], the state holding one instance of that entry on cell
    (5, 5) has its catalog index and its coordinates below 36, yet it is
    encoded as ["-155"], which decodes to the record (NaN, 1, 5) and not to
    (0, 5, 5). *)
Lemma dashed_id_breaks_roundtrip :
  buildingsOf iceCreamAt55
  = [ {| id := "ice-cream-1"; gridX := Num 5; gridY := Num 5;
         width := Num 1; height := Num 1; animal := None |} ] /\
  decorationsOf iceCreamAt55 = [] /\ enclosuresOf iceCreamAt55 = [] /\
  Forall2 (itemRecord (BUILDINGS dashedCatalogs)) (buildingsOf iceCreamAt55)
    [ {| typeIndex := Num 0; i_x := Num 5; i_y := Num 5 |} ] /\
  encodeZooState dashedCatalogs iceCreamAt55 = "-155" /\
  decodeZooState (Some (encodeZooState dashedCatalogs iceCreamAt55))
  = Some {| d_buildings := [ {| typeIndex := NaN; i_x := Num 1; i_y := Num 5 |} ];
            d_decorations := []; d_enclosures := [] |} /\
  decodeZooState (Some (encodeZooState dashedCatalogs iceCreamAt55))
  <> Some {| d_buildings := [ {| typeIndex := Num 0; i_x := Num 5; i_y := Num 5 |} ];
             d_decorations := []; d_enclosures := [] |}.
Proof.
  split; [vm_compute; reflexivity|]. split; [vm_compute; reflexivity|].
  split; [vm_compute; reflexivity|]. split.
  - evaluate (buildingsOf iceCreamAt55). repeat constructor.
    exists 0, {| def_id := "ice-cream"; def_width := Num 1; def_height := Num 1 |}, 1%N.
    repeat split; simpl; lia.
  - split; [vm_compute; reflexivity|].
    evaluate (decodeZooState (Some (encodeZooState dashedCatalogs iceCreamAt55))).
    split; [reflexivity|discriminate].
Qed.

(** C1, amended.  Round-trip law.  When, within each catalog, the ids are
    pairwise distinct and no id of a building or decoration contains a
    dash, and every placed object is an instance of a catalog entry whose
    index, like every coordinate, width and height, is an integer from 0
    to 35, decoding the encoded state succeeds and yields, section by
    section and in the order of the collections, the (catalogIndex, x, y)
    records of the buildings and of the decorations and the
    (occupantIndex, x, y, w, h) records of the enclosures.  The records
    carry no instance id. *)
Theorem decode_encode_roundtrip (C : catalogs) (s : state)
    (rb rd : list itemData) (re : list enclosureData) :
  cleanCatalogs C ->
  Forall2 (itemRecord (BUILDINGS C)) (buildingsOf s) rb ->
  Forall2 (itemRecord (DECORATIONS C)) (decorationsOf s) rd ->
  Forall2 (enclosureRecord (ANIMALS C)) (enclosuresOf s) re ->
  decodeZooState (Some (encodeZooState C s))
  = Some {| d_buildings := rb; d_decorations := rd; d_enclosures := re |}.
Proof.
  intros (Nb & Db & Nd & Dd & Na) Hb Hd He.
  destruct (itemRecords_tuples _ _ _ Nb Db Hb) as [Eb <-].
  destruct (itemRecords_tuples _ _ _ Nd Dd Hd) as [Ed <-].
  destruct (enclosureRecords_tuples _ _ _ Na He) as [Ee <-].
  exact (decode_of_encoding C s Eb Ed Ee).
Qed.

Lemma decode_encode_roundtrip_witness :
  decodeZooState (Some (encodeZooState sampleCatalogs sampleZoo))
  = Some {| d_buildings := [ {| typeIndex := Num 2; i_x := Num 5; i_y := Num 5 |} ];
            d_decorations := [ {| typeIndex := Num 2; i_x := Num 15; i_y := Num 20 |} ];
            d_enclosures := [ {| animalIndex := Num 1; e_x := Num 0; e_y := Num 0;
                                 e_w := Num 4; e_h := Num 3 |} ] |}.
Proof.
  destruct sampleZoo_records as (Hb & Hd & He).
  exact (decode_encode_roundtrip sampleCatalogs sampleZoo _ _ _ sampleCatalogs_clean Hb Hd He).
Defined.

(* --------------------------------------------------------------------- *)
(** ** Opening the URL of a state                                         *)
(* --------------------------------------------------------------------- *)

Lemma Forall2_through {A B D : Type} (R1 : A -> B -> Prop) (R2 : A -> D -> Prop)
    (R3 : D -> B -> Prop) :
  (forall a b d, R1 a b -> R2 a d -> R3 d b) ->
  forall l rs, Forall2 R1 l rs -> forall l', Forall2 R2 l l' -> Forall2 R3 l' rs.
Proof.
  intros H l rs. induction 1 as [|a b l rs Hab _ IH]; intros l' Hl'.
  - inversion Hl'. constructor.
  - inversion Hl' as [|a' d l0 l1 Had Hrest]; subst.
    constructor; [exact (H a b d Hab Had)|exact (IH _ Hrest)].
Qed.

Lemma loadedFrom_record (catalog : list itemDef) (b : entity) (r : itemData) (o : entity) :
  NoDup (map def_id catalog) -> Forall (fun d => noDash (def_id d)) catalog ->
  itemRecord catalog b r -> loadedFrom catalog b o -> loadedItem catalog o r.
Proof.
  intros Hnd Hdash (k & def & n & -> & Hk & Hdef & Hid & Hx & Hy)
    (def' & n' & Hat & Hid' & Hgx & Hgy & Hw & Hh).
  rewrite (typeIndexOf_instance catalog b k def _ Hnd Hdash (proj1 Hk) Hdef Hid) in Hat.
  unfold atIndex in Hat. destruct (Z.ltb_spec k 0); [lia|].
  rewrite Hdef in Hat. injection Hat as <-.
  exists k, def, n'. rewrite Hgx, Hgy. repeat split; try assumption; apply Hk.
Qed.

Lemma loadedItem_record (catalog : list itemDef) (o : entity) (r : itemData) :
  loadedItem catalog o r -> itemRecord catalog o r.
Proof.
  intros (k & def & n & Hr & Hk & Hdef & Hid & Hx & Hy & _).
  exists k, def, n. repeat split; try assumption; apply Hk.
Qed.

Lemma enclosureRecords_same (animals : list animalDef) (l : list entity)
    (rs : list enclosureData) :
  Forall2 (enclosureRecord animals) l rs ->
  forall l', map geometryOf l' = map geometryOf l -> map animal l' = map animal l ->
             Forall2 (enclosureRecord animals) l' rs.
Proof.
  induction 1 as [|e r l rs Hr _ IH]; intros [|e' l'] Hg Ha; try discriminate; [constructor|].
  cbn [map] in *. injection Hg as Hx Hy Hw Hh Hg. injection Ha as Ha1 Ha.
  constructor; [|exact (IH l' Hg Ha)].
  destruct Hr as (k & a & -> & Hk & Hin & Han & Dx & Dy & Dw & Dh).
  exists k, a. rewrite Hx, Hy, Hw, Hh, Ha1. repeat split; try assumption; apply Hk.
Qed.

(** Opening the URL of a state gives that state again, up to the instance
    ids.  When, within each catalog, the ids are pairwise distinct and no
    id of a building or decoration contains a dash, and every placed
    object is an instance of a catalog entry whose index, like every
    coordinate, width and height, is an integer from 0 to 35, the page
    opened with the encoded state holds, collection by collection and in
    the same order, instances of the same catalog entries at the same
    places, with the sizes of their entries, and enclosures of the same
    animals with the same rectangles; encoding it gives the same string. *)
Theorem reload_roundtrip (C : catalogs) (s : state)
    (rb rd : list itemData) (re : list enclosureData) :
  cleanCatalogs C ->
  Forall2 (itemRecord (BUILDINGS C)) (buildingsOf s) rb ->
  Forall2 (itemRecord (DECORATIONS C)) (decorationsOf s) rd ->
  Forall2 (enclosureRecord (ANIMALS C)) (enclosuresOf s) re ->
  let s' := init C (Some (encodeZooState C s)) in
  Forall2 (loadedItem (BUILDINGS C)) (buildingsOf s') rb /\
  Forall2 (loadedItem (DECORATIONS C)) (decorationsOf s') rd /\
  Forall2 (enclosureRecord (ANIMALS C)) (enclosuresOf s') re /\
  map geometryOf (enclosuresOf s') = map geometryOf (enclosuresOf s) /\
  map animal (enclosuresOf s') = map animal (enclosuresOf s) /\
  encodeZooState C s' = encodeZooState C s.
Proof.
  intros (Nb & Db & Nd & Dd & Na) Hb Hd He s'.
  destruct (itemRecords_tuples _ _ _ Nb Db Hb) as [Eb Tb].
  destruct (itemRecords_tuples _ _ _ Nd Dd Hd) as [Ed Td].
  destruct (enclosureRecords_tuples _ _ _ Na He) as [Ee _].
  destruct (reloaded_collections C s s' Eb Ed Ee eq_refl) as (Lb & Ld & Ge & Ae).
  assert (Hb' : Forall2 (loadedItem (BUILDINGS C)) (buildingsOf s') rb).
  { apply (Forall2_through _ _ _ (fun b r o => loadedFrom_record _ b r o Nb Db) _ _ Hb _ Lb). }
  assert (Hd' : Forall2 (loadedItem (DECORATIONS C)) (decorationsOf s') rd).
  { apply (Forall2_through _ _ _ (fun b r o => loadedFrom_record _ b r o Nd Dd) _ _ Hd _ Ld). }
  split; [exact Hb'|]. split; [exact Hd'|].
  split; [exact (enclosureRecords_same _ _ _ He _ Ge Ae)|].
  split; [exact Ge|]. split; [exact Ae|].
  assert (Tb' : map (itemTuple (BUILDINGS C)) (buildingsOf s') = rb).
  { apply (itemRecords_tuples _ _ _ Nb Db).
    apply (Forall2_impl _ _ _ _ Hb'). intros o r. apply loadedItem_record. }
  assert (Td' : map (itemTuple (DECORATIONS C)) (decorationsOf s') = rd).
  { apply (itemRecords_tuples _ _ _ Nd Dd).
    apply (Forall2_impl _ _ _ _ Hd'). intros o r. apply loadedItem_record. }
  unfold encodeZooState, buildingStr, decorationStr, enclosureStr.
  rewrite (encodeItem_tuple (BUILDINGS C) (buildingsOf s) (buildingsOf s')) by congruence.
  rewrite (encodeItem_tuple (DECORATIONS C) (decorationsOf s) (decorationsOf s')) by congruence.
  rewrite (encodeEnclosure_tuple _ _ _ Ge Ae).
  reflexivity.
Qed.

Lemma reload_roundtrip_witness :
  let s' := init sampleCatalogs (Some (encodeZooState sampleCatalogs sampleZoo)) in
  Forall2 (loadedItem (BUILDINGS sampleCatalogs)) (buildingsOf s')
    [ {| typeIndex := Num 2; i_x := Num 5; i_y := Num 5 |} ] /\
  Forall2 (loadedItem (DECORATIONS sampleCatalogs)) (decorationsOf s')
    [ {| typeIndex := Num 2; i_x := Num 15; i_y := Num 20 |} ] /\
  Forall2 (enclosureRecord (ANIMALS sampleCatalogs)) (enclosuresOf s')
    [ {| animalIndex := Num 1; e_x := Num 0; e_y := Num 0; e_w := Num 4; e_h := Num 3 |} ] /\
  map geometryOf (enclosuresOf s') = map geometryOf (enclosuresOf sampleZoo) /\
  map animal (enclosuresOf s') = map animal (enclosuresOf sampleZoo) /\
  encodeZooState sampleCatalogs s' = encodeZooState sampleCatalogs sampleZoo.
Proof.
  destruct sampleZoo_records as (Hb & Hd & He).
  exact (reload_roundtrip sampleCatalogs sampleZoo _ _ _ sampleCatalogs_clean Hb Hd He).
Defined.

(* --------------------------------------------------------------------- *)
(** ** The threshold of edge detection                                    *)
(* --------------------------------------------------------------------- *)

(** The threshold of 0.3 cells is compared in binary64: six pixels left of
    an edge at cell 1 the distance [1 - 0.7] is just above 0.3 and no edge
    is found, five pixels left of it the left edge is found, and six
    pixels right of an edge at cell 0 the distance is 0.3 itself. *)
Example edgeOf_threshold :
  let atOne := {| id := "enclosure-1"; gridX := Num 1; gridY := Num 0;
                  width := Num 4; height := Num 3; animal := Some "zebra" |} in
  let atZero := {| id := "enclosure-1"; gridX := Num 0; gridY := Num 0;
                   width := Num 4; height := Num 3; animal := Some "zebra" |} in
  let edgeAt e x y := edgeOf e (fst (getPrecisePoint (pointerAt x y)))
                        (snd (getPrecisePoint (pointerAt x y))) in
  edgeAt atOne 14 30 = None /\
  edgeAt atOne 15 30
  = Some {| edge_left := true; edge_right := false; edge_top := false; edge_bottom := false |} /\
  edgeAt atZero 6 30
  = Some {| edge_left := true; edge_right := false; edge_top := false; edge_bottom := false |}.
Proof. vm_compute. repeat split. Qed.

(* --------------------------------------------------------------------- *)
(** ** A drop while an object is held                                     *)
(* --------------------------------------------------------------------- *)

(** The put-back of a rejected move is not tested.  An enclosure on cells
    (0..3, 0..2) is grabbed and dragged away, the restaurant is dropped on
    the cells it left, and the enclosure is released on top of the
    restaurant: it returns to where it was grabbed, and the two overlap. *)
Theorem drop_during_move_breaks_noOverlap :
  map (fun o => (id o, geometryOf o)) (stored dropDuringMove)
  = [ ("restaurant-1", {| g_gridX := Num 0; g_gridY := Num 0;
                          g_width := Num 3; g_height := Num 2 |});
      ("enclosure-1", {| g_gridX := Num 0; g_gridY := Num 0;
                         g_width := Num 4; g_height := Num 3 |}) ] /\
  overlaps_spec {| rx := 0; ry := 0; rw := 3; rh := 2 |}
                {| rx := 0; ry := 0; rw := 4; rh := 3 |} /\
  ~ noOverlap dropDuringMove.
Proof.
  split; [vm_compute; reflexivity|]. split; [unfold overlaps_spec; simpl; lia|].
  intros H.
  assert (H0 : stored dropDuringMove !! 0%nat
               = Some {| id := "restaurant-1"; gridX := Num 0; gridY := Num 0;
                         width := Num 3; height := Num 2; animal := None |})
    by (vm_compute; reflexivity).
  assert (H1 : stored dropDuringMove !! 1%nat
               = Some {| id := "enclosure-1"; gridX := Num 0; gridY := Num 0;
                         width := Num 4; height := Num 3; animal := Some "zebra" |})
    by (vm_compute; reflexivity).
  specialize (H 0%nat 1%nat _ _ (O_S 0) H0 H1). vm_compute in H. discriminate H.
Qed.
